(** * YT Music Manager backend: the extraction gateway, embedded and verified

    The repository is an Express application whose route handlers parse a
    query parameter, call an external extractor (yt-dlp through
    [yt-dlp-wrap], or [ytdl-core] in the oldest draft), reshape the
    extractor's JSON into a response and, for one route, pipe audio to the
    client.  This development embeds the handlers of

    - [src/server.js]            (module [Server])
    - [src/unnamed/part_000]     (module [Hybrid], the OAuth fallback variant)
    - [src/unnamed/part_002]     (module [LineDraft], the per-line draft)
    - [src/unnamed/part_001]     (module [YtdlDraft], the ytdl-core draft)

    as executable functions over a small model of JavaScript values, and
    proves the properties the specification states about them. *)

From Stdlib Require Import String Ascii List ZArith QArith Bool Lia.
From stdpp Require Import base option gmap strings.
Import ListNotations.

Local Open Scope string_scope.
Local Open Scope list_scope.
Local Set Warnings "-register-all".

(* ===================================================================== *)
(** * JavaScript values                                                   *)
(* ===================================================================== *)

Module JS.

(** The values a handler can hold: what [JSON.parse] produces, [undefined],
    and the one built-in method object a handler can read as data
    ([Array.prototype.entries], reached by [payload.entries] when the
    payload is an array).  Numbers are exact rationals: IEEE rounding is
    outside this model.  A string is a sequence of code units, each in the
    Latin-1 range.  An object is its own enumerable properties in insertion
    order, one binding per name. *)
Inductive value : Type :=
| VUndefined
| VNull
| VBool (b : bool)
| VNum (q : Q)
| VStr (s : string)
| VArr (items : list value)
| VObj (props : list (string * value))
| VFun (name : string) (arity : nat).

(** An [Error] object: the value of a rejected promise or a [throw].  The
    handlers only ever read [message] and [code] from it.  (The libraries
    reject with [Error] objects; a rejection with a value that is not an
    object is outside this model.) *)
Record js_error : Type := mkError {
  err_name : string;
  err_message : value;
  err_code : value
}.

Definition TypeError (msg : string) : js_error :=
  mkError "TypeError" (VStr msg) VUndefined.

Definition SyntaxError (msg : string) : js_error :=
  mkError "SyntaxError" (VStr msg) VUndefined.

(** An evaluation either completes with a value or throws. *)
Inductive result (A : Type) : Type :=
| Ok (a : A)
| Throw (e : js_error).
Arguments Ok {A} a.
Arguments Throw {A} e.

Definition rbind {A B} (r : result A) (k : A -> result B) : result B :=
  match r with
  | Ok a => k a
  | Throw e => Throw e
  end.

Declare Scope result_scope.
Delimit Scope result_scope with result.
Notation "x <~ c ; k" := (rbind c (fun x => k))
  (at level 100, c at next level, right associativity) : result_scope.

Definition num (z : Z) : value := VNum (inject_Z z).

(** ToBoolean. *)
Definition truthy (v : value) : bool :=
  match v with
  | VUndefined | VNull => false
  | VBool b => b
  | VNum q => negb (Qnum q =? 0)%Z
  | VStr s => negb (String.eqb s "")
  | VArr _ | VObj _ | VFun _ _ => true
  end.

(** [a || b] and [a && b] when [b] cannot throw. *)
Definition or (a b : value) : value := if truthy a then a else b.
Definition and (a b : value) : value := if truthy a then b else a.

(** [a || b] and [a && b] in general: [b] is evaluated only when needed. *)
Definition or_else (a : value) (b : result value) : result value :=
  if truthy a then Ok a else b.
Definition and_then (a : value) (b : result value) : result value :=
  if truthy a then b else Ok a.

Fixpoint lookup_prop (k : string) (props : list (string * value)) : value :=
  match props with
  | [] => VUndefined
  | (k', v) :: rest => if String.eqb k k' then v else lookup_prop k rest
  end.

Definition has_prop (k : string) (props : list (string * value)) : bool :=
  existsb (fun kv => String.eqb k (fst kv)) props.

(** [JSON.stringify] leaves out the properties whose value is [undefined]:
    these are the fields a client receives. *)
Definition sent_fields (props : list (string * value)) : list string :=
  List.map fst
    (List.filter (fun kv => match snd kv with VUndefined => false | _ => true end) props).

Definition type_name (v : value) : string :=
  match v with
  | VUndefined => "undefined"
  | _ => "null"
  end.

(** [v.k] for the property names the handlers read.  On [undefined] and
    [null] the read throws (the message is V8's).  On an array the only
    inherited members among those names are [length] and [entries]; on a
    string and on a function, [length]. *)
Definition get (v : value) (k : string) : result value :=
  match v with
  | VUndefined | VNull =>
      Throw (TypeError ("Cannot read properties of " ++ type_name v
                        ++ " (reading '" ++ k ++ "')"))
  | VObj props => Ok (lookup_prop k props)
  | VArr items =>
      if String.eqb k "length" then Ok (num (Z.of_nat (List.length items)))
      else if String.eqb k "entries" then Ok (VFun "entries" 0)
      else Ok VUndefined
  | VStr s =>
      if String.eqb k "length" then Ok (num (Z.of_nat (String.length s)))
      else Ok VUndefined
  | VFun _ arity =>
      if String.eqb k "length" then Ok (num (Z.of_nat arity))
      else Ok VUndefined
  | VBool _ | VNum _ => Ok VUndefined
  end.

(** [v?.k]. *)
Definition get_opt (v : value) (k : string) : result value :=
  match v with
  | VUndefined | VNull => Ok VUndefined
  | _ => get v k
  end.

(** The part of the language the handlers lean on without defining it:
    [JSON.parse], and the coercions of values that are neither numbers nor
    booleans.  Every theorem below holds for any such runtime. *)
Record Runtime : Type := mkRuntime {
  JSON_parse : string -> result value;
  (** ToNumber on strings, arrays, objects and functions; [None] is NaN *)
  ToNumber_other : value -> option Q;
  (** ToString on a number, used as a property key *)
  NumberToString : Q -> string;
  (** ToString on a value that is not a string, used in a template
      literal; it throws when the value is an object with no callable
      [toString] or [valueOf] *)
  ToString_other : value -> result string;
  (** [a > b] when an operand is a string, an array, an object or a function *)
  Greater_other : value -> value -> bool
}.

Section WithRuntime.
Context (rt : Runtime).

(** ToNumber; [None] is NaN. *)
Definition to_number (v : value) : option Q :=
  match v with
  | VUndefined => None
  | VNull => Some 0%Q
  | VBool b => Some (if b then 1%Q else 0%Q)
  | VNum q => Some q
  | _ => ToNumber_other rt v
  end.

(** [v > 0]. *)
Definition gt0 (v : value) : bool :=
  match to_number v with
  | Some q => (0 <? Qnum q)%Z
  | None => false
  end.

(** [a > b]: on numbers, booleans, [null] and [undefined] it compares the
    numbers they convert to, and is false when one of them is NaN. *)
Definition is_simple (v : value) : bool :=
  match v with
  | VUndefined | VNull | VBool _ | VNum _ => true
  | _ => false
  end.

Definition greater (a b : value) : bool :=
  if is_simple a && is_simple b then
    match to_number a, to_number b with
    | Some x, Some y => negb (Qle_bool x y)
    | _, _ => false
    end
  else Greater_other rt a b.

(** [`${v}`]. *)
Definition to_string (v : value) : result string :=
  match v with
  | VStr s => Ok s
  | _ => ToString_other rt v
  end.

(** The index of a rational, when it is a natural number. *)
Definition as_index (q : Q) : option nat :=
  let r := Qred q in
  if ((Zpos (Qden r) =? 1) && (0 <=? Qnum r))%Z then Some (Z.to_nat (Qnum r)) else None.

(** [v[i]] for a number [i] ([None] is NaN).  An array or a string holds
    its elements at the natural indices and nothing at any other number;
    an object is read at the property named by the number. *)
Definition get_at (v : value) (i : option Q) : result value :=
  match v with
  | VUndefined | VNull =>
      Throw (TypeError ("Cannot read properties of " ++ type_name v))
  | VArr items =>
      match i with
      | Some q => match as_index q with
                  | Some n => Ok (nth n items VUndefined)
                  | None => Ok VUndefined
                  end
      | None => Ok VUndefined
      end
  | VStr s =>
      match i with
      | Some q => match as_index q with
                  | Some n => match String.get n s with
                              | Some c => Ok (VStr (String c EmptyString))
                              | None => Ok VUndefined
                              end
                  | None => Ok VUndefined
                  end
      | None => Ok VUndefined
      end
  | VObj props =>
      match i with
      | Some q => Ok (lookup_prop (NumberToString rt q) props)
      | None => Ok (lookup_prop "NaN" props)
      end
  | VBool _ | VNum _ | VFun _ _ => Ok VUndefined
  end.

(** [v.length - 1]. *)
Definition minus_one (v : value) : option Q :=
  match to_number v with
  | Some q => Some (q - 1)%Q
  | None => None
  end.

End WithRuntime.

(** ** Strings *)

Definition is_digit (c : ascii) : bool :=
  let n := nat_of_ascii c in (48 <=? n)%nat && (n <=? 57)%nat.
Definition is_lower (c : ascii) : bool :=
  let n := nat_of_ascii c in (97 <=? n)%nat && (n <=? 122)%nat.
Definition is_upper (c : ascii) : bool :=
  let n := nat_of_ascii c in (65 <=? n)%nat && (n <=? 90)%nat.

Fixpoint map_string (f : ascii -> ascii) (s : string) : string :=
  match s with
  | EmptyString => EmptyString
  | String c rest => String (f c) (map_string f rest)
  end.

Fixpoint forall_string (p : ascii -> bool) (s : string) : bool :=
  match s with
  | EmptyString => true
  | String c rest => p c && forall_string p rest
  end.

(** [String.prototype.toLowerCase] on Latin-1 code units: A-Z, and the
    accented capitals 0xC0-0xDE other than the multiplication sign.  The
    handlers call it on sanitized text only, which is ASCII. *)
Definition lower_char (c : ascii) : ascii :=
  let n := nat_of_ascii c in
  if is_upper c then ascii_of_nat (n + 32)
  else if ((192 <=? n) && (n <=? 222) && negb (n =? 215))%nat then ascii_of_nat (n + 32)
  else c.

Definition toLowerCase (s : string) : string := map_string lower_char s.

(** [s.startsWith(p)] and [s.substring(n)]. *)
Definition startsWith (s p : string) : bool := String.prefix p s.
Definition substring_from (n : nat) (s : string) : string :=
  String.substring n (String.length s - n) s.

(** [s.split(sep)] for a one-character separator. *)
Fixpoint split_on (sep : ascii) (s : string) : list string :=
  match s with
  | EmptyString => [EmptyString]
  | String c rest =>
      if Ascii.eqb c sep then EmptyString :: split_on sep rest
      else match split_on sep rest with
           | [] => [String c EmptyString]
           | piece :: pieces => String c piece :: pieces
           end
  end.

(** The code units [String.prototype.trim] removes, in the Latin-1 range. *)
Definition is_space (c : ascii) : bool :=
  let n := nat_of_ascii c in
  ((9 <=? n) && (n <=? 13) || (n =? 32) || (n =? 160))%nat.

(** [line.trim()] is truthy: some code unit of the line is not white space. *)
Definition trim_truthy (s : string) : bool := negb (forall_string is_space s).

(** [s.trim()]: the white space at both ends removed. *)
Fixpoint trim_start (s : string) : string :=
  match s with
  | String c rest => if is_space c then trim_start rest else s
  | EmptyString => s
  end.

Fixpoint trim_end (s : string) : string :=
  match s with
  | EmptyString => EmptyString
  | String c rest =>
      match trim_end rest with
      | EmptyString => if is_space c then EmptyString else String c EmptyString
      | kept => String c kept
      end
  end.

Definition trim (s : string) : string := trim_end (trim_start s).

End JS.

(* ===================================================================== *)
(** * Outbound calls and the handler monad                                *)
(* ===================================================================== *)

Module Eff.
Import JS.

(** A stream of audio bytes, as the sequence of events it will emit. *)
Inductive stream_event : Type :=
| Data (chunk : string)
| End
| Error (e : js_error).

(** The calls a handler makes out of the process. *)
Inductive call : Type :=
| CallGetVideoInfo (args : list string)
| CallExecStream (args : list string)
| CallPlaylistsList (token : string) (params : value)
| CallYtdlGetInfo (url : string).

Definition trace : Type := list call.

(** The extractor and the authenticated listing API, as the outcome each
    call has: a resolved value or a rejection. *)
Record Services : Type := mkServices {
  (** [ytDlp.getVideoInfo(args)] *)
  getVideoInfo : list string -> result value;
  (** [ytDlp.execStream(args)] *)
  execStream : list string -> result (list stream_event);
  (** [getYouTubeClient(token).playlists.list(params)] *)
  playlists_list : string -> value -> result value
}.

(** What a handler does to the response object [res], in order.  The JSON
    handlers answer with exactly one [res.status(s).json(body)] (status 200
    when [status] is not called) and are modelled as returning that
    response; the streaming handler works on [res] step by step and its
    operations are logged. *)
Inductive res_op : Type :=
| SetHeader (name content : string)
| Status (code : Z)
| Json (payload : value)
| Write (chunk : string)
| EndResponse.

(** The state a handler runs in: the outbound calls made so far and the
    operations performed on [res] so far. *)
Record state : Type := mkState {
  calls : trace;
  res : list res_op
}.

Definition initial : state := mkState [] [].

(** A handler step: it may call out, may act on [res], and completes or
    throws. *)
Definition M (A : Type) : Type := state -> result A * state.

Definition ret {A} (a : A) : M A := fun s => (Ok a, s).

Definition bind {A B} (m : M A) (k : A -> M B) : M B :=
  fun s => match m s with
           | (Ok a, s') => k a s'
           | (Throw e, s') => (Throw e, s')
           end.

Definition throw {A} (e : js_error) : M A := fun s => (Throw e, s).

Definition lift {A} (r : result A) : M A := fun s => (r, s).

(** [try { m } catch (e) { h e }] *)
Definition try_catch {A} (m : M A) (h : js_error -> M A) : M A :=
  fun s => match m s with
           | (Ok a, s') => (Ok a, s')
           | (Throw e, s') => h e s'
           end.

(** [await] of an outbound call with the given outcome. *)
Definition perform {A} (c : call) (outcome : result A) : M A :=
  fun s => (outcome, mkState (calls s ++ [c]) (res s)).

(** One operation on [res]. *)
Definition on_res (op : res_op) : M unit :=
  fun s => (Ok tt, mkState (calls s) (res s ++ [op])).

Definition get_state : M state := fun s => (Ok s, s).

Definition run {A} (m : M A) : result A * state := m initial.

Declare Scope eff_scope.
Delimit Scope eff_scope with eff.
Notation "x <- c ;; k" := (bind c (fun x => k))
  (at level 100, c at next level, right associativity) : eff_scope.

(** What [res.status(s).json(body)] sends. *)
Record response : Type := mkResponse {
  status : Z;
  body : value
}.

(** A request: the parsed query string and the [Authorization] header. *)
Record request : Type := mkRequest {
  query : list (string * value);
  authorization : option string
}.

Definition query_param (req : request) (k : string) : value :=
  lookup_prop k (query req).

End Eff.

(* ===================================================================== *)
(** * Helpers shared by the drafts                                        *)
(* ===================================================================== *)

Module Common.
Import JS Eff.

(** [`https://www.youtube.com/playlist?list=${playlistId}`] and
    [`https://www.youtube.com/watch?v=${videoId}`]: the literal throws when
    the conversion of the parameter to a string does. *)
Definition playlist_url (rt : Runtime) (playlistId : value) : result string :=
  (text <~ to_string rt playlistId;
   Ok ("https://www.youtube.com/playlist?list=" ++ text)%string)%result.

Definition watch_url (rt : Runtime) (videoId : value) : result string :=
  (text <~ to_string rt videoId;
   Ok ("https://www.youtube.com/watch?v=" ++ text)%string)%result.

(** [typeof metadata === 'string' ? JSON.parse(metadata) : metadata] *)
Definition parse_metadata (rt : Runtime) (metadata : value) : result value :=
  match metadata with
  | VStr s => JSON_parse rt s
  | _ => Ok metadata
  end.

(** [v === s] for a string literal [s], and [v === n] for an integer. *)
Definition is_str (v : value) (s : string) : bool :=
  match v with
  | VStr s' => String.eqb s' s
  | _ => false
  end.

Definition is_int (v : value) (z : Z) : bool :=
  match v with
  | VNum q => Qeq_bool q (inject_Z z)
  | _ => false
  end.

Definition not_null (v : value) : bool :=
  match v with
  | VNull => false
  | _ => true
  end.

(** [xs.map(f)] where [f] may throw: the first throw ends the loop. *)
Fixpoint map_result (f : value -> result value) (xs : list value) : result (list value) :=
  match xs with
  | [] => Ok []
  | x :: rest =>
      (y <~ f x;
       ys <~ map_result f rest;
       Ok (y :: ys))%result
  end.

(** [xs.filter(p)] where [p] may throw. *)
Fixpoint filter_result (p : value -> result bool) (xs : list value) : result (list value) :=
  match xs with
  | [] => Ok []
  | x :: rest =>
      (b <~ p x;
       ys <~ filter_result p rest;
       Ok (if b then x :: ys else ys))%result
  end.

(** [xs.find(p)] where [p] may throw; [undefined] when nothing matches. *)
Fixpoint find_result (p : value -> result bool) (xs : list value) : result value :=
  match xs with
  | [] => Ok VUndefined
  | x :: rest =>
      (b <~ p x;
       if b then Ok x else find_result p rest)%result
  end.

(** [v.map(f)]: only an array has a [map] to call. *)
Definition call_map (what : string) (v : value) (f : value -> result value)
  : result (list value) :=
  match v with
  | VArr items => map_result f items
  | VUndefined | VNull =>
      Throw (TypeError ("Cannot read properties of " ++ type_name v
                        ++ " (reading 'map')"))
  | _ => Throw (TypeError (what ++ ".map is not a function"))
  end.

(** [title.replace(/[^a-z0-9]/gi, '_').toLowerCase()] *)
Definition is_alnum (c : ascii) : bool := is_lower c || is_upper c || is_digit c.

Definition sanitize (title : string) : string :=
  toLowerCase (map_string (fun c => if is_alnum c then c else "_"%char) title).

(** [v.replace(/[^a-z0-9]/gi, '_').toLowerCase()] on any value: only a
    string has a [replace] to call. *)
Definition sanitize_value (what : string) (v : value) : result string :=
  match v with
  | VStr s => Ok (sanitize s)
  | VUndefined | VNull =>
      Throw (TypeError ("Cannot read properties of " ++ type_name v
                        ++ " (reading 'replace')"))
  | _ => Throw (TypeError (what ++ ".replace is not a function"))
  end.

End Common.

(* ===================================================================== *)
(** * [src/server.js]                                                     *)
(* ===================================================================== *)

Module Server.
Import JS Eff Common.

(** The choice of the extractor binary at startup, lines 11-28.
    [execSync] is the outcome of running a shell command: its output, or a
    throw.  The result is [ytDlpPath] ([None] is [undefined]) and the
    commands that were run, in order. *)
Definition resolve_ytDlpPath (execSync : string -> result string)
  : option string * list string :=
  match execSync "which yt-dlp" with
  | Ok output => (Some (trim output), ["which yt-dlp"])
  | Throw _ =>
      match execSync "yt-dlp --version" with
      | Ok _ => (Some "yt-dlp", ["which yt-dlp"; "yt-dlp --version"])
      | Throw _ => (None, ["which yt-dlp"; "yt-dlp --version"])
      end
  end.

Section Handlers.
Context (rt : Runtime) (sv : Services).

Local Open Scope eff_scope.

Definition bad_request (msg : string) : response :=
  mkResponse 400 (VObj [("error", VStr msg)]).

Definition server_error (what : string) (error : js_error) : response :=
  mkResponse 500 (VObj [("error", VStr what); ("message", err_message error)]).

(** The [thumbnailUrl] of the playlist summary:
    [d.thumbnails && d.thumbnails.length > 0
       ? d.thumbnails[d.thumbnails.length - 1].url : null || ''] *)
Definition playlist_thumbnail (playlistData : value) : result value :=
  (thumbnails <~ get playlistData "thumbnails";
   cond <~ and_then thumbnails
             (len <~ get thumbnails "length"; Ok (VBool (gt0 rt len)));
   if truthy cond then
     (len <~ get thumbnails "length";
      last <~ get_at rt thumbnails (minus_one rt len);
      get last "url")
   else Ok (or VNull (VStr "")))%result.

(** [app.get('/api/playlist-info')], lines 50-82. *)
Definition playlist_info (req : request) : M response :=
  try_catch
    (let playlistId := query_param req "playlistId" in
     if negb (truthy playlistId) then
       ret (bad_request "playlistId parameter is required")
     else
       playlistUrl <- lift (playlist_url rt playlistId) ;;
       metadata <- perform
           (CallGetVideoInfo [playlistUrl; "--flat-playlist"; "--dump-single-json"])
           (getVideoInfo sv [playlistUrl; "--flat-playlist"; "--dump-single-json"]) ;;
       playlistData <- lift (parse_metadata rt metadata) ;;
       lift
         (title <~ get playlistData "title";
          description <~ get playlistData "description";
          thumbnailUrl <~ playlist_thumbnail playlistData;
          playlist_count <~ get playlistData "playlist_count";
          itemCount <~ or_else playlist_count
                         (entries <~ get playlistData "entries";
                          if truthy entries then get entries "length"
                          else Ok (num 0));
          Ok (mkResponse 200
                (VObj [("id", playlistId);
                       ("title", or title (VStr "Unknown Playlist"));
                       ("description", or description (VStr ""));
                       ("thumbnailUrl", thumbnailUrl);
                       ("itemCount", itemCount)])))%result)
    (fun error => ret (server_error "Failed to fetch playlist info" error)).

(** The [thumbnailUrl] of one playlist entry:
    [video.thumbnail
       || (video.thumbnails && video.thumbnails.length > 0
             ? video.thumbnails[0].url : '')
       || ''] *)
Definition entry_thumbnail (video : value) : result value :=
  (thumbnail <~ get video "thumbnail";
   first <~ or_else thumbnail
     (thumbnails <~ get video "thumbnails";
      cond <~ and_then thumbnails
                (len <~ get thumbnails "length"; Ok (VBool (gt0 rt len)));
      if truthy cond then
        (head <~ get_at rt thumbnails (Some 0%Q);
         get head "url")
      else Ok (VStr ""));
   Ok (or first (VStr "")))%result.

(** The callback of [entries.map], lines 103-112. *)
Definition map_entry (video : value) : result value :=
  if negb (truthy video) then Ok VNull
  else
    (id <~ get video "id";
     title <~ get video "title";
     uploader <~ get video "uploader";
     channel <~ get video "channel";
     uploader_id <~ get video "uploader_id";
     duration <~ get video "duration";
     thumbnailUrl <~ entry_thumbnail video;
     Ok (VObj [("id", id);
               ("title", or title (VStr "Unknown"));
               ("author", or (or (or uploader channel) uploader_id) (VStr "Unknown"));
               ("duration", or duration (num 0));
               ("thumbnailUrl", thumbnailUrl)]))%result.

(** [entries.map(...).filter(v => v !== null)] *)
Definition map_entries (entries : value) : result (list value) :=
  (mapped <~ call_map "entries" entries map_entry;
   Ok (List.filter not_null mapped))%result.

Definition videos_response (playlistId title : value) (videos : list value) : response :=
  mkResponse 200
    (VObj [("playlistId", playlistId);
           ("title", title);
           ("itemCount", num (Z.of_nat (List.length videos)));
           ("videos", VArr videos)]).

(** [app.get('/api/playlist-videos')], lines 85-128. *)
Definition playlist_videos (req : request) : M response :=
  try_catch
    (let playlistId := query_param req "playlistId" in
     if negb (truthy playlistId) then
       ret (bad_request "playlistId parameter is required")
     else
       playlistUrl <- lift (playlist_url rt playlistId) ;;
       metadata <- perform
           (CallGetVideoInfo [playlistUrl; "--flat-playlist"; "--dump-single-json"])
           (getVideoInfo sv [playlistUrl; "--flat-playlist"; "--dump-single-json"]) ;;
       playlistData <- lift (parse_metadata rt metadata) ;;
       lift
         (entries0 <~ get playlistData "entries";
          let entries := or entries0 (VArr []) in
          videos <~ map_entries entries;
          title <~ get playlistData "title";
          Ok (videos_response playlistId (or title (VStr "")) videos))%result)
    (fun error => ret (server_error "Failed to fetch playlist videos" error)).

(** [app.get('/api/download-info')], lines 131-162. *)
Definition download_info (req : request) : M response :=
  try_catch
    (let videoId := query_param req "videoId" in
     if negb (truthy videoId) then
       ret (bad_request "videoId parameter is required")
     else
       videoUrl <- lift (watch_url rt videoId) ;;
       metadata <- perform
           (CallGetVideoInfo [videoUrl; "--dump-json"])
           (getVideoInfo sv [videoUrl; "--dump-json"]) ;;
       info <- lift (parse_metadata rt metadata) ;;
       lift
         (title <~ get info "title";
          uploader <~ get info "uploader";
          author <~ or_else uploader (get info "channel");
          duration <~ get info "duration";
          Ok (mkResponse 200
                (VObj [("videoId", videoId);
                       ("title", title);
                       ("author", or author (VStr "Unknown"));
                       ("lengthSeconds", or duration (num 0));
                       ("downloadUrl", VStr videoUrl);
                       ("quality", VStr "best");
                       ("format", VStr "audio/mp4")])))%result)
    (fun error => ret (server_error "Failed to fetch download info" error)).

(** ** The streaming route *)

(** [res.headersSent]: something has been written to the socket. *)
Definition commits (op : res_op) : bool :=
  match op with
  | Json _ | Write _ | EndResponse => true
  | SetHeader _ _ | Status _ => false
  end.

Definition headersSent (log : list res_op) : bool := existsb commits log.

(** The response has been ended: by [res.json], or by [res.end()] when the
    piped stream ends. *)
Definition ends (op : res_op) : bool :=
  match op with
  | Json _ | EndResponse => true
  | _ => false
  end.

Definition finished (log : list res_op) : bool := existsb ends log.

(** The headers set by the handler and the status code, as a client sees
    them.  (Header names are compared as written: the handler uses two
    distinct names.) *)
Definition headers (log : list res_op) : gmap string string :=
  fold_left (fun m op => match op with
                         | SetHeader k v => <[k:=v]> m
                         | _ => m
                         end) log ∅.

Definition statusCode (log : list res_op) : Z :=
  fold_left (fun c op => match op with
                         | Status c' => c'
                         | _ => c
                         end) log 200%Z.

(** [res.setHeader(name, content)]; Node refuses it once headers are sent. *)
Definition setHeader (name content : string) : M unit :=
  fun s => if headersSent (res s)
           then (Throw (mkError "Error"
                          (VStr "Cannot set headers after they are sent to the client")
                          (VStr "ERR_HTTP_HEADERS_SENT")), s)
           else on_res (SetHeader name content) s.

(** [res.status(code).json(payload)] *)
Definition send_json (code : Z) (payload : value) : M unit :=
  _ <- on_res (Status code) ;; on_res (Json payload).

Definition dquote : string := String "034"%char EmptyString.

Definition content_disposition (title : string) : string :=
  "attachment; filename=" ++ dquote ++ title ++ ".m4a" ++ dquote.

(** The outer [catch], lines 200-208. *)
Definition download_catch (error : js_error) : M (list stream_event) :=
  s <- get_state ;;
  if negb (headersSent (res s)) then
    _ <- send_json 500 (VObj [("error", VStr "Failed to download");
                              ("message", err_message error)]) ;;
    ret []
  else ret [].

(** [app.get('/api/download')], lines 165-209, up to the point where the
    listeners are registered.  The result is the sequence of events the
    stream will deliver to them (none when no stream was opened). *)
Definition download (req : request) : M (list stream_event) :=
  try_catch
    (let videoId := query_param req "videoId" in
     if negb (truthy videoId) then
       _ <- send_json 400 (VObj [("error", VStr "videoId parameter is required")]) ;;
       ret []
     else
       videoUrl <- lift (watch_url rt videoId) ;;
       metadata <- perform
           (CallGetVideoInfo [videoUrl; "--dump-json"])
           (getVideoInfo sv [videoUrl; "--dump-json"]) ;;
       info <- lift (parse_metadata rt metadata) ;;
       raw_title <- lift (get info "title") ;;
       title <- lift (sanitize_value "info.title" raw_title) ;;
       _ <- setHeader "Content-Disposition" (content_disposition title) ;;
       _ <- setHeader "Content-Type" "audio/mp4" ;;
       stream <- perform
           (CallExecStream [videoUrl; "-f"; "bestaudio"; "-o"; "-"])
           (execStream sv [videoUrl; "-f"; "bestaudio"; "-o"; "-"]) ;;
       ret stream)
    download_catch.

(** The listeners: [stream.pipe(res)] writes each chunk and ends [res]
    with the stream (a response that is already ended takes no more); the
    ['error'] listener of lines 193-198. *)
Definition on_stream_event (log : list res_op) (ev : stream_event) : list res_op :=
  match ev with
  | Data chunk => if finished log then log else log ++ [Write chunk]
  | End => if finished log then log else log ++ [EndResponse]
  | Error error =>
      if negb (headersSent log)
      then log ++ [Status 500; Json (VObj [("error", VStr "Download failed")])]
      else log
  end.

Definition deliver (events : list stream_event) (log : list res_op) : list res_op :=
  fold_left on_stream_event events log.

(** A whole exchange: the handler, then the stream's events.  The result is
    the outbound calls and everything that was done to [res]. *)
Definition download_exchange (req : request) : trace * list res_op :=
  match run (download req) with
  | (Ok events, s) => (calls s, deliver events (res s))
  | (Throw _, s) => (calls s, res s)
  end.

End Handlers.
End Server.

(* ===================================================================== *)
(** * [src/unnamed/part_000]: the variant with the OAuth fallback         *)
(* ===================================================================== *)

Module Hybrid.
Import JS Eff Common.

Section Handlers.
Context (rt : Runtime) (sv : Services).

Local Open Scope eff_scope.

(** [authHeader && authHeader.startsWith('Bearer ')] *)
Definition has_bearer (authHeader : option string) : bool :=
  match authHeader with
  | Some h => negb (String.eqb h "") && startsWith h "Bearer "
  | None => false
  end.

(** [authHeader.substring(7)] *)
Definition access_token (authHeader : option string) : string :=
  match authHeader with
  | Some h => substring_from 7 h
  | None => ""
  end.

(** [snippet.thumbnails?.medium?.url || snippet.thumbnails?.default?.url || ''] *)
Definition api_thumbnail (snippet : value) : result value :=
  (thumbnails <~ get snippet "thumbnails";
   medium <~ get_opt thumbnails "medium";
   medium_url <~ get_opt medium "url";
   first <~ or_else medium_url
              (dflt <~ get_opt thumbnails "default"; get_opt dflt "url");
   Ok (or first (VStr "")))%result.

(** The callback of [response.data.items.map], lines 76-83. *)
Definition map_user_playlist (playlist : value) : result value :=
  (id <~ get playlist "id";
   snippet <~ get playlist "snippet";
   title <~ get snippet "title";
   description <~ get snippet "description";
   thumbnailUrl <~ api_thumbnail snippet;
   contentDetails <~ get playlist "contentDetails";
   itemCount <~ get contentDetails "itemCount";
   status <~ get playlist "status";
   privacyStatus <~ get_opt status "privacyStatus";
   Ok (VObj [("id", id);
             ("title", title);
             ("description", description);
             ("thumbnailUrl", thumbnailUrl);
             ("itemCount", itemCount);
             ("privacy", or privacyStatus (VStr "public"))]))%result.

Definition mine_params : value :=
  VObj [("part", VArr [VStr "snippet"; VStr "contentDetails"]);
        ("mine", VBool true);
        ("maxResults", num 50)].

(** [app.get('/api/user-playlists')], lines 58-100. *)
Definition user_playlists (req : request) : M response :=
  try_catch
    (let authHeader := authorization req in
     if negb (has_bearer authHeader) then
       ret (mkResponse 401 (VObj [("error", VStr "Authorization token required")]))
     else
       let accessToken := access_token authHeader in
       listing <- perform (CallPlaylistsList accessToken mine_params)
                          (playlists_list sv accessToken mine_params) ;;
       lift
         (data <~ get listing "data";
          items <~ get data "items";
          playlists <~ call_map "response.data.items" items map_user_playlist;
          Ok (mkResponse 200 (VObj [("playlists", VArr playlists)])))%result)
    (fun error =>
       if is_int (err_code error) 401 then
         ret (mkResponse 401 (VObj [("error", VStr "Invalid or expired token");
                                    ("message", VStr "Please sign in again")]))
       else
         ret (mkResponse 500 (VObj [("error", VStr "Failed to fetch user playlists");
                                    ("message", err_message error)]))).

(** The payload of the extractor split into the playlist-level document
    and the item list, lines 117-126 and 194-204 (the same text in both
    handlers). *)
Definition has_type (tags : list string) (item : value) : result bool :=
  (t <~ get item "_type";
   Ok (existsb (is_str t) tags))%result.

Definition last_item (items : list value) : value :=
  match items with
  | [] => VUndefined
  | _ => nth (List.length items - 1) items VUndefined
  end.

Definition classify (rawData : value) : result (value * value) :=
  match rawData with
  | VArr items =>
      (found <~ find_result (has_type ["playlist"]) items;
       let playlistData := or found (last_item items) in
       entries <~ filter_result (has_type ["url"; "video"]) items;
       Ok (playlistData, VArr entries))%result
  | _ =>
      (entries <~ get rawData "entries";
       Ok (rawData, or entries (VArr [])))%result
  end.

(** The summary built from the extractor's payload, lines 128-135. *)
Definition summary_of_extractor (playlistId playlistData entries : value)
  : result response :=
  (title <~ get playlistData "title";
   description <~ get playlistData "description";
   thumbnailUrl <~ Server.playlist_thumbnail rt playlistData;
   playlist_count <~ get playlistData "playlist_count";
   counted <~ or_else playlist_count (get entries "length");
   Ok (mkResponse 200
         (VObj [("id", playlistId);
                ("title", or title (VStr "Unknown Playlist"));
                ("description", or description (VStr ""));
                ("thumbnailUrl", thumbnailUrl);
                ("itemCount", or counted (num 0));
                ("source", VStr "yt-dlp")])))%result.

Definition id_params (playlistId : value) : value :=
  VObj [("part", VArr [VStr "snippet"; VStr "contentDetails"]);
        ("id", VArr [playlistId])].

(** The summary built from the first item of the listing API, lines
    150-160; [None] when the listing has no item. *)
Definition summary_of_api (playlistId listing : value) : result (option response) :=
  (data <~ get listing "data";
   items <~ get data "items";
   cond <~ and_then items
             (len <~ get items "length"; Ok (VBool (gt0 rt len)));
   if truthy cond then
     (playlist <~ get_at rt items (Some 0%Q);
      snippet <~ get playlist "snippet";
      title <~ get snippet "title";
      description <~ get snippet "description";
      thumbnailUrl <~ api_thumbnail snippet;
      contentDetails <~ get playlist "contentDetails";
      itemCount <~ get contentDetails "itemCount";
      Ok (Some (mkResponse 200
                  (VObj [("id", playlistId);
                         ("title", title);
                         ("description", or description (VStr ""));
                         ("thumbnailUrl", thumbnailUrl);
                         ("itemCount", itemCount);
                         ("source", VStr "youtube-api")]))))
   else Ok None)%result.

(** The inner [try] block, lines 113-135. *)
Definition try_extractor (playlistId : value) : M response :=
  playlistUrl <- lift (playlist_url rt playlistId) ;;
  metadata <- perform
      (CallGetVideoInfo [playlistUrl; "--flat-playlist"; "--dump-single-json"])
      (getVideoInfo sv [playlistUrl; "--flat-playlist"; "--dump-single-json"]) ;;
  rawData <- lift (parse_metadata rt metadata) ;;
  lift
    (split <~ classify rawData;
     summary_of_extractor playlistId (fst split) (snd split))%result.

(** The inner [catch] block, lines 136-168. *)
Definition fallback (playlistId : value) (authHeader : option string)
    (ytdlpError : js_error) : M response :=
  answered <-
    (if has_bearer authHeader then
       let accessToken := access_token authHeader in
       try_catch
         (listing <- perform (CallPlaylistsList accessToken (id_params playlistId))
                             (playlists_list sv accessToken (id_params playlistId)) ;;
          lift (summary_of_api playlistId listing))
         (fun apiError => ret None)
     else ret None) ;;
  match answered with
  | Some r => ret r
  | None => throw ytdlpError
  end.

(** [app.get('/api/playlist-info')], lines 103-177. *)
Definition playlist_info (req : request) : M response :=
  try_catch
    (let playlistId := query_param req "playlistId" in
     let authHeader := authorization req in
     if negb (truthy playlistId) then
       ret (Server.bad_request "playlistId parameter is required")
     else
       try_catch (try_extractor playlistId)
                 (fallback playlistId authHeader))
    (fun error => ret (Server.server_error "Failed to fetch playlist info" error)).

(** [app.get('/api/playlist-videos')], lines 180-232. *)
Definition playlist_videos (req : request) : M response :=
  try_catch
    (let playlistId := query_param req "playlistId" in
     if negb (truthy playlistId) then
       ret (Server.bad_request "playlistId parameter is required")
     else
       playlistUrl <- lift (playlist_url rt playlistId) ;;
       metadata <- perform
           (CallGetVideoInfo [playlistUrl; "--flat-playlist"; "--dump-single-json"])
           (getVideoInfo sv [playlistUrl; "--flat-playlist"; "--dump-single-json"]) ;;
       rawData <- lift (parse_metadata rt metadata) ;;
       lift
         (split <~ classify rawData;
          videos <~ Server.map_entries rt (snd split);
          title <~ get (fst split) "title";
          Ok (Server.videos_response playlistId (or title (VStr "")) videos))%result)
    (fun error => ret (Server.server_error "Failed to fetch playlist videos" error)).

End Handlers.
End Hybrid.

(* ===================================================================== *)
(** * [src/unnamed/part_002]: the draft that reads one document per line  *)
(* ===================================================================== *)

Module LineDraft.
Import JS Eff Common.

Section Handlers.
Context (rt : Runtime) (sv : Services).

Local Open Scope eff_scope.

(** [metadata.split('\n').filter(line => line.trim())]: only a string has
    a [split] to call. *)
Definition newline : ascii := "010"%char.

(** [typeof metadata === 'string' ? JSON.parse(metadata.split('\n')[0]) : metadata] *)
Definition parse_first_line (metadata : value) : result value :=
  match metadata with
  | VStr s => JSON_parse rt (hd EmptyString (split_on newline s))
  | _ => Ok metadata
  end.

(** [app.get('/api/playlist-info')], lines 31-62. *)
Definition playlist_info (req : request) : M response :=
  try_catch
    (let playlistId := query_param req "playlistId" in
     if negb (truthy playlistId) then
       ret (Server.bad_request "playlistId parameter is required")
     else
       playlistUrl <- lift (playlist_url rt playlistId) ;;
       metadata <- perform
           (CallGetVideoInfo [playlistUrl; "--flat-playlist"; "--dump-json"])
           (getVideoInfo sv [playlistUrl; "--flat-playlist"; "--dump-json"]) ;;
       playlistData <- lift (parse_first_line metadata) ;;
       lift
         (title <~ get playlistData "title";
          description <~ get playlistData "description";
          thumbnail <~ get playlistData "thumbnail";
          playlist_count <~ get playlistData "playlist_count";
          Ok (mkResponse 200
                (VObj [("id", playlistId);
                       ("title", or title (VStr "Unknown Playlist"));
                       ("description", or description (VStr ""));
                       ("thumbnailUrl", or thumbnail (VStr ""));
                       ("itemCount", or playlist_count (num 0))])))%result)
    (fun error => ret (Server.server_error "Failed to fetch playlist info" error)).

Definition nonblank_lines (metadata : value) : result (list string) :=
  match metadata with
  | VStr s => Ok (List.filter trim_truthy (split_on newline s))
  | VUndefined | VNull =>
      Throw (TypeError ("Cannot read properties of " ++ type_name metadata
                        ++ " (reading 'split')"))
  | _ => Throw (TypeError "metadata.split is not a function")
  end.

(** The callback of [lines.slice(1).map], lines 81-95: a line that does
    not parse, or whose document has no properties to read, gives [null]. *)
Definition map_line (line : string) : value :=
  match (video <~ JSON_parse rt line;
         id <~ get video "id";
         title <~ get video "title";
         uploader <~ get video "uploader";
         channel <~ get video "channel";
         duration <~ get video "duration";
         thumbnail <~ get video "thumbnail";
         Ok (VObj [("id", id);
                   ("title", or title (VStr "Unknown"));
                   ("author", or (or uploader channel) (VStr "Unknown"));
                   ("duration", or duration (num 0));
                   ("thumbnailUrl", or thumbnail (VStr ""))]))%result
  with
  | Ok v => v
  | Throw _ => VNull
  end.

(** [lines.slice(1).map(...).filter(v => v !== null)] *)
Definition videos_of_lines (lines : list string) : list value :=
  List.filter not_null (List.map map_line (List.tl lines)).

(** [app.get('/api/playlist-videos')], lines 65-111. *)
Definition playlist_videos (req : request) : M response :=
  try_catch
    (let playlistId := query_param req "playlistId" in
     if negb (truthy playlistId) then
       ret (Server.bad_request "playlistId parameter is required")
     else
       playlistUrl <- lift (playlist_url rt playlistId) ;;
       metadata <- perform
           (CallGetVideoInfo [playlistUrl; "--flat-playlist"; "--dump-json"])
           (getVideoInfo sv [playlistUrl; "--flat-playlist"; "--dump-json"]) ;;
       lines <- lift (nonblank_lines metadata) ;;
       ret (Server.videos_response playlistId (VStr "") (videos_of_lines lines)))
    (fun error => ret (Server.server_error "Failed to fetch playlist videos" error)).

End Handlers.
End LineDraft.

(* ===================================================================== *)
(** * [src/unnamed/part_001]: the draft on ytdl-core                      *)
(* ===================================================================== *)

Module YtdlDraft.
Import JS Eff Common.

(** The library calls of this draft. *)
Record Ytdl : Type := mkYtdl {
  (** [ytdl.validateURL(url)] *)
  validateURL : string -> bool;
  (** [ytdl.getInfo(url)] *)
  getInfo : string -> result value;
  (** [ytdl.filterFormats(formats, 'audioonly')] *)
  filterFormats : value -> result value
}.

Section Handlers.
Context (rt : Runtime) (yt : Ytdl).

Local Open Scope eff_scope.

(** The callback of [audioFormats.reduce], lines 45-50. *)
Definition better (best format : value) : result value :=
  if negb (truthy best) then Ok format
  else
    (bitrate <~ get format "audioBitrate";
     best_bitrate <~ and_then bitrate (get best "audioBitrate");
     if truthy bitrate && greater rt bitrate best_bitrate then Ok format else Ok best)%result.

Fixpoint reduce_best (formats : list value) (best : value) : result value :=
  match formats with
  | [] => Ok best
  | format :: rest => (next <~ better best format; reduce_best rest next)%result
  end.

Definition best_audio (audioFormats : value) : result value :=
  match audioFormats with
  | VArr formats => reduce_best formats VNull
  | VUndefined | VNull =>
      Throw (TypeError ("Cannot read properties of " ++ type_name audioFormats
                        ++ " (reading 'reduce')"))
  | _ => Throw (TypeError "audioFormats.reduce is not a function")
  end.

(** [bestAudio?.mimeType?.split(';')[0]] *)
Definition mime_head (bestAudio : value) : result value :=
  (mimeType <~ get_opt bestAudio "mimeType";
   match mimeType with
   | VUndefined | VNull => Ok VUndefined
   | VStr s => Ok (VStr (hd EmptyString (split_on ";"%char s)))
   | _ => Throw (TypeError "bestAudio?.mimeType?.split is not a function")
   end)%result.

(** [app.get('/api/download-info')], lines 23-69. *)
Definition download_info (req : request) : M response :=
  try_catch
    (let videoId := query_param req "videoId" in
     if negb (truthy videoId) then
       ret (Server.bad_request "videoId parameter is required")
     else
       videoUrl <- lift (watch_url rt videoId) ;;
       if negb (validateURL yt videoUrl) then
         ret (Server.bad_request "Invalid YouTube video ID")
       else
         info <- perform (CallYtdlGetInfo videoUrl) (getInfo yt videoUrl) ;;
         lift
           (formats <~ get info "formats";
            audioFormats <~ filterFormats yt formats;
            bestAudio <~ best_audio audioFormats;
            videoDetails <~ get info "videoDetails";
            title <~ get videoDetails "title";
            author <~ get videoDetails "author";
            name <~ get author "name";
            lengthSeconds <~ get videoDetails "lengthSeconds";
            url <~ get_opt bestAudio "url";
            audioBitrate <~ get_opt bestAudio "audioBitrate";
            mime <~ mime_head bestAudio;
            Ok (mkResponse 200
                  (VObj [("videoId", videoId);
                         ("title", title);
                         ("author", name);
                         ("lengthSeconds", lengthSeconds);
                         ("downloadUrl", or url VNull);
                         ("quality", or audioBitrate (VStr "unknown"));
                         ("format", or mime (VStr "audio/webm"))])))%result)
    (fun error => ret (Server.server_error "Failed to fetch download info" error)).

(** ** The streaming route of this draft *)

Definition content_disposition (title : string) : string :=
  "attachment; filename=" ++ Server.dquote ++ title ++ ".mp3" ++ Server.dquote.

(** [app.get('/api/download')], lines 72-118, up to the point where the
    listeners are registered.  [open_stream] is the outcome of
    [ytdl(videoUrl, {quality: 'highestaudio', filter: 'audioonly'})]: the
    events the stream will deliver.  Creating the stream is not awaited and
    is not counted among the outbound calls.  The outer [catch] and the
    ['error'] listener have the text of [src/server.js]. *)
Definition download (open_stream : string -> result (list stream_event))
    (req : request) : M (list stream_event) :=
  try_catch
    (let videoId := query_param req "videoId" in
     if negb (truthy videoId) then
       _ <- Server.send_json 400 (VObj [("error", VStr "videoId parameter is required")]) ;;
       ret []
     else
       videoUrl <- lift (watch_url rt videoId) ;;
       if negb (validateURL yt videoUrl) then
         _ <- Server.send_json 400 (VObj [("error", VStr "Invalid YouTube video ID")]) ;;
         ret []
       else
         info <- perform (CallYtdlGetInfo videoUrl) (getInfo yt videoUrl) ;;
         videoDetails <- lift (get info "videoDetails") ;;
         raw_title <- lift (get videoDetails "title") ;;
         title <- lift (sanitize_value "info.videoDetails.title" raw_title) ;;
         _ <- Server.setHeader "Content-Disposition" (content_disposition title) ;;
         _ <- Server.setHeader "Content-Type" "audio/mpeg" ;;
         audioStream <- lift (open_stream videoUrl) ;;
         ret audioStream)
    Server.download_catch.

Definition download_exchange (open_stream : string -> result (list stream_event))
    (req : request) : trace * list res_op :=
  match run (download open_stream req) with
  | (Ok events, s) => (calls s, Server.deliver events (res s))
  | (Throw _, s) => (calls s, res s)
  end.

End Handlers.
End YtdlDraft.

(* ===================================================================== *)
(** * A reference [JSON.parse]                                            *)
(* ===================================================================== *)

(** The handlers are verified for any [JSON.parse].  To run them on
    concrete payloads, this module gives one: the JSON grammar of ECMA-404
    on Latin-1 text (an escape above code unit 255 has no code unit in this
    model and is refused). *)
Module Json.
Import JS.

Definition dq : ascii := "034"%char.
Definition backslash : ascii := "092"%char.

Definition is_ws (c : ascii) : bool :=
  let n := nat_of_ascii c in
  ((n =? 32) || (n =? 9) || (n =? 10) || (n =? 13))%nat.

Fixpoint skip_ws (s : string) : string :=
  match s with
  | String c rest => if is_ws c then skip_ws rest else s
  | EmptyString => s
  end.

Definition hex_digit (c : ascii) : option nat :=
  let n := nat_of_ascii c in
  if is_digit c then Some (n - 48)
  else if ((97 <=? n) && (n <=? 102))%nat then Some (n - 87)
  else if ((65 <=? n) && (n <=? 70))%nat then Some (n - 55)
  else None.

Definition simple_escape (c : ascii) : option ascii :=
  if Ascii.eqb c dq then Some dq
  else if Ascii.eqb c backslash then Some backslash
  else if Ascii.eqb c "/" then Some "/"%char
  else if Ascii.eqb c "b" then Some "008"%char
  else if Ascii.eqb c "f" then Some "012"%char
  else if Ascii.eqb c "n" then Some "010"%char
  else if Ascii.eqb c "r" then Some "013"%char
  else if Ascii.eqb c "t" then Some "009"%char
  else None.

(** The characters of a string literal after its opening quote, and what
    follows the closing quote. *)
Fixpoint parse_chars (s : string) : option (string * string) :=
  match s with
  | EmptyString => None
  | String c rest =>
      if Ascii.eqb c dq then Some (EmptyString, rest)
      else if Ascii.eqb c backslash then
        match rest with
        | String e rest' =>
            if Ascii.eqb e "u" then
              match rest' with
              | String h1 (String h2 (String h3 (String h4 rest''))) =>
                  match hex_digit h1, hex_digit h2, hex_digit h3, hex_digit h4 with
                  | Some 0, Some 0, Some a, Some b =>
                      match parse_chars rest'' with
                      | Some (t, after) => Some (String (ascii_of_nat (16 * a + b)) t, after)
                      | None => None
                      end
                  | _, _, _, _ => None
                  end
              | _ => None
              end
            else
              match simple_escape e with
              | Some d =>
                  match parse_chars rest' with
                  | Some (t, after) => Some (String d t, after)
                  | None => None
                  end
              | None => None
              end
        | EmptyString => None
        end
      else if (nat_of_ascii c <? 32)%nat then None
      else
        match parse_chars rest with
        | Some (t, after) => Some (String c t, after)
        | None => None
        end
  end.

(** The longest run of decimal digits: its value, its length, the rest. *)
Fixpoint digits (s : string) (acc : Z) (len : nat) : Z * nat * string :=
  match s with
  | String c rest =>
      if is_digit c
      then digits rest (10 * acc + Z.of_nat (nat_of_ascii c - 48))%Z (S len)
      else (acc, len, s)
  | EmptyString => (acc, len, s)
  end.

Definition scale (m e : Z) : Q :=
  if (0 <=? e)%Z then inject_Z (m * 10 ^ e)
  else Qmake m (Z.to_pos (10 ^ (- e))).

(** A number literal: [-? int frac? exp?]. *)
Definition parse_number (s : string) : option (Q * string) :=
  let '(neg, s1) := match s with
                    | String "-" rest => (true, rest)
                    | _ => (false, s)
                    end in
  let '(int, int_len, s2) := digits s1 0%Z 0 in
  let leading_zero := match s1 with
                      | String "0" _ => (1 <? int_len)%nat
                      | _ => false
                      end in
  if (int_len =? 0)%nat || leading_zero then None
  else
    let frac := match s2 with
                | String "." rest =>
                    let '(m, len, s3) := digits rest int 0 in
                    if (len =? 0)%nat then None else Some (m, len, s3)
                | _ => Some (int, 0, s2)
                end in
    match frac with
    | None => None
    | Some (m, frac_len, s3) =>
        let exponent :=
          match s3 with
          | String c rest =>
              if Ascii.eqb c "e" || Ascii.eqb c "E" then
                let '(eneg, s4) := match rest with
                                   | String "-" r => (true, r)
                                   | String "+" r => (false, r)
                                   | _ => (false, rest)
                                   end in
                let '(e, len, s5) := digits s4 0%Z 0 in
                if (len =? 0)%nat then None
                else Some ((if eneg then - e else e)%Z, s5)
              else Some (0%Z, s3)
          | EmptyString => Some (0%Z, s3)
          end in
        match exponent with
        | None => None
        | Some (e, after) =>
            let m' := (if neg then - m else m)%Z in
            Some (scale m' (e - Z.of_nat frac_len), after)
        end
    end.

Definition expect (word : string) (v : value) (s : string) : option (value * string) :=
  if String.prefix word s
  then Some (v, String.substring (String.length word)
                  (String.length s - String.length word) s)
  else None.

(** [obj[k] = v] while the object is built: a repeated name keeps its place
    and takes the later value. *)
Fixpoint set_prop (k : string) (v : value) (props : list (string * value))
  : list (string * value) :=
  match props with
  | [] => [(k, v)]
  | (k', v') :: rest =>
      if String.eqb k k' then (k, v) :: rest else (k', v') :: set_prop k v rest
  end.

Section Containers.
Context (parse_value : string -> option (value * string)).

(** The elements of an array after the first, up to the closing bracket. *)
Fixpoint parse_elements (fuel : nat) (s : string) (acc : list value)
  : option (list value * string) :=
  match fuel with
  | O => None
  | S fuel' =>
      match skip_ws s with
      | String "]" rest => Some (acc, rest)
      | String "," rest =>
          match parse_value rest with
          | Some (v, after) => parse_elements fuel' after (acc ++ [v])
          | None => None
          end
      | _ => None
      end
  end.

Definition parse_member (s : string) : option (string * value * string) :=
  match skip_ws s with
  | String c rest =>
      if Ascii.eqb c dq then
        match parse_chars rest with
        | Some (k, after) =>
            match skip_ws after with
            | String ":" after' =>
                match parse_value after' with
                | Some (v, after'') => Some (k, v, after'')
                | None => None
                end
            | _ => None
            end
        | None => None
        end
      else None
  | EmptyString => None
  end.

(** The members of an object after the first, up to the closing brace. *)
Fixpoint parse_members (fuel : nat) (s : string) (acc : list (string * value))
  : option (list (string * value) * string) :=
  match fuel with
  | O => None
  | S fuel' =>
      match skip_ws s with
      | String "}" rest => Some (acc, rest)
      | String "," rest =>
          match parse_member rest with
          | Some (k, v, after) => parse_members fuel' after (set_prop k v acc)
          | None => None
          end
      | _ => None
      end
  end.

End Containers.

(** One value and what follows it.  [fuel] bounds the nesting depth. *)
Fixpoint parse_value (fuel : nat) (s : string) : option (value * string) :=
  match fuel with
  | O => None
  | S fuel' =>
      let s' := skip_ws s in
      let width := S (String.length s') in
      match s' with
      | EmptyString => None
      | String c rest =>
          if Ascii.eqb c dq then
            match parse_chars rest with
            | Some (t, after) => Some (VStr t, after)
            | None => None
            end
          else if Ascii.eqb c "[" then
            match skip_ws rest with
            | String "]" after => Some (VArr [], after)
            | _ =>
                match parse_value fuel' rest with
                | Some (v, after) =>
                    match parse_elements (parse_value fuel') width after [v] with
                    | Some (items, after') => Some (VArr items, after')
                    | None => None
                    end
                | None => None
                end
            end
          else if Ascii.eqb c "{" then
            match skip_ws rest with
            | String "}" after => Some (VObj [], after)
            | _ =>
                match parse_member (parse_value fuel') rest with
                | Some (k, v, after) =>
                    match parse_members (parse_value fuel') width after [(k, v)] with
                    | Some (props, after') => Some (VObj props, after')
                    | None => None
                    end
                | None => None
                end
            end
          else if Ascii.eqb c "t" then expect "true" (VBool true) s'
          else if Ascii.eqb c "f" then expect "false" (VBool false) s'
          else if Ascii.eqb c "n" then expect "null" VNull s'
          else
            match parse_number s' with
            | Some (q, after) => Some (VNum q, after)
            | None => None
            end
      end
  end.

(** [JSON.parse(text)]: one value, then nothing but white space. *)
Definition parse (text : string) : result value :=
  match parse_value (S (String.length text)) text with
  | Some (v, after) =>
      match skip_ws after with
      | EmptyString => Ok v
      | _ => Throw (SyntaxError "Unexpected non-whitespace character after JSON")
      end
  | None => Throw (SyntaxError "Unexpected token in JSON")
  end.

(** The conversion to a string in a template literal, for the values a
    parsed query string holds beside strings.  An array joins the
    conversions of its elements with commas.  An object converts through
    its [toString]: [Object.prototype.toString], unless the query gave the
    object a property of that name; such a property is a string, an array
    or an object, never a function, and the conversion throws. *)
Fixpoint template_text (v : value) : result string :=
  match v with
  | VStr s => Ok s
  | VArr items =>
      (fix join (xs : list value) : result string :=
         match xs with
         | [] => Ok EmptyString
         | x :: rest =>
             (head <~ match x with
                      | VUndefined | VNull => Ok EmptyString
                      | _ => template_text x
                      end;
              match rest with
              | [] => Ok head
              | _ => (tail <~ join rest; Ok (head ++ "," ++ tail)%string)
              end)%result
         end) items
  | VObj props =>
      if has_prop "toString" props
      then Throw (TypeError "Cannot convert object to primitive value")
      else Ok "[object Object]"
  | VUndefined => Ok "undefined"
  | VNull => Ok "null"
  | VBool b => Ok (if b then "true" else "false")
  | VNum _ => Ok "NaN"
  | VFun name _ => Ok ("function " ++ name ++ "() { [native code] }")%string
  end.

(** A runtime around them.  The coercions of numbers, and of strings,
    arrays and objects to numbers, are not reproduced: the runs below never
    reach them. *)
Definition runtime : Runtime :=
  mkRuntime parse (fun _ => None) (fun _ => "NaN") template_text
            (fun _ _ => false).

End Json.

(* ===================================================================== *)
(** * The routing table and the vocabulary of the specification           *)
(* ===================================================================== *)

Module App.
Import JS Eff Common.

(** The four routes of [src/server.js] that take a query parameter. *)
Inductive route : Type :=
| PlaylistInfo
| PlaylistVideos
| DownloadInfo
| Download.

Definition path (r : route) : string :=
  match r with
  | PlaylistInfo => "/api/playlist-info"
  | PlaylistVideos => "/api/playlist-videos"
  | DownloadInfo => "/api/download-info"
  | Download => "/api/download"
  end.

(** The query parameter each route destructures from [req.query]. *)
Definition required (r : route) : string :=
  match r with
  | PlaylistInfo | PlaylistVideos => "playlistId"
  | DownloadInfo | Download => "videoId"
  end.

(** The JSON answer in a log of operations on [res]: the first payload
    sent, under the status set before it. *)
Fixpoint json_sent (code : Z) (log : list res_op) : option response :=
  match log with
  | [] => None
  | Status c :: rest => json_sent c rest
  | Json payload :: _ => Some (mkResponse code payload)
  | _ :: rest => json_sent code rest
  end.

Definition answer (outcome : result response * state) : option response * trace :=
  (match fst outcome with
   | Ok r => Some r
   | Throw _ => None
   end, calls (snd outcome)).

(** [app.get(path r, ...)]: the JSON answer of the route, if any, and the
    outbound calls it made. *)
Definition serve (rt : Runtime) (sv : Services) (r : route) (req : request)
  : option response * trace :=
  match r with
  | PlaylistInfo => answer (run (Server.playlist_info rt sv req))
  | PlaylistVideos => answer (run (Server.playlist_videos rt sv req))
  | DownloadInfo => answer (run (Server.download_info rt sv req))
  | Download =>
      let exchange := Server.download_exchange rt sv req in
      (json_sent 200 (snd exchange), fst exchange)
  end.

(** The field of a JSON answer. *)
Definition field (r : response) (k : string) : value :=
  match body r with
  | VObj props => lookup_prop k props
  | _ => VUndefined
  end.

(** The error envelope of the specification, [{error, message}]: both
    fields are present. *)
Definition has_envelope (r : response) : bool :=
  match body r with
  | VObj props => has_prop "error" props && has_prop "message" props
  | _ => false
  end.

(** No status code and no JSON body is emitted once the headers have
    gone out ([sent] tells whether they had before the log starts). *)
Fixpoint quiet_after_commit (sent : bool) (log : list res_op) : bool :=
  match log with
  | [] => true
  | op :: rest =>
      match op with
      | Status _ | Json _ => negb sent
      | _ => true
      end && quiet_after_commit (sent || Server.commits op) rest
  end.

(** A field the client can read: JSON leaves out an [undefined] one. *)
Definition defined (v : value) : bool :=
  match v with
  | VUndefined => false
  | _ => true
  end.

Definition nonempty_string (v : value) : bool :=
  match v with
  | VStr s => negb (String.eqb s "")
  | _ => false
  end.

Definition nonneg_number (v : value) : bool :=
  match v with
  | VNum q => (0 <=? Qnum q)%Z
  | _ => false
  end.

(** What the specification promises of a successful answer of
    [/api/download-info] for the video at [watch]. *)
Definition download_info_claim (watch : string) (r : response) : bool :=
  nonempty_string (field r "title")
  && nonneg_number (field r "lengthSeconds")
  && is_str (field r "downloadUrl") watch
  && is_str (field r "quality") "best"
  && is_str (field r "format") "audio/mp4".

(** The three ways a request fails to authenticate.  A token is invalid or
    expired when the listing API rejects the call with code 401, which is the
    test the handler itself makes. *)
Inductive auth_failure (sv : Services) (req : request) : Prop :=
| header_missing :
    authorization req = None -> auth_failure sv req
| header_not_bearer (h : string) :
    authorization req = Some h -> startsWith h "Bearer " = false ->
    auth_failure sv req
| token_rejected (h : string) (e : js_error) :
    authorization req = Some h -> startsWith h "Bearer " = true ->
    playlists_list sv (substring_from 7 h) Hybrid.mine_params = Throw e ->
    is_int (err_code e) 401 = true ->
    auth_failure sv req.

(** The outbound calls of the extractor attempt of a playlist route: one
    call with the address of the playlist, or none when the address cannot
    be built. *)
Definition attempt_calls (rt : Runtime) (playlistId : value) : trace :=
  match playlist_url rt playlistId with
  | Ok playlistUrl =>
      [CallGetVideoInfo [playlistUrl; "--flat-playlist"; "--dump-single-json"]]
  | Throw _ => []
  end.

(** The videos list has no [null] entry and [itemCount] is its length. *)
Definition videos_invariant (r : response) : Prop :=
  exists videos,
    field r "videos" = VArr videos
    /\ field r "itemCount" = num (Z.of_nat (List.length videos))
    /\ Forall (fun v => v <> VNull) videos.

(** The characters allowed in the file name before its extension. *)
Definition filename_char (c : ascii) : bool :=
  is_lower c || is_digit c || Ascii.eqb c "_".

(** The specification's wording of the sanitization, one character at a
    time: outside [a-zA-Z0-9] an underscore, inside the lower-case letter. *)
Definition sanitize_char (c : ascii) : ascii :=
  if is_alnum c then lower_char c else "_"%char.





Definition nullish (v : value) : bool :=
  match v with
  | VUndefined | VNull => true
  | _ => false
  end.


(** The fields of an entry that always have a value. *)
Definition entry_complete (v : value) : bool :=
  match v with
  | VObj props =>
      defined (lookup_prop "title" props)
      && defined (lookup_prop "author" props)
      && defined (lookup_prop "duration" props)
      && defined (lookup_prop "thumbnailUrl" props)
  | _ => false
  end.

End App.

(* ===================================================================== *)
(** * Concrete services and requests                                      *)
(* ===================================================================== *)

Module Scenario.
Import JS Eff Common.

Definition extractor_down : js_error :=
  mkError "Error" (VStr "ERROR: [youtube:tab] PL404: The playlist does not exist.") VUndefined.

Definition unauthorized : js_error :=
  mkError "Error" (VStr "Invalid Credentials") (num 401).

(** Every outbound call is rejected. *)
Definition offline : Services :=
  mkServices (fun _ => Throw extractor_down)
             (fun _ => Throw extractor_down)
             (fun _ _ => Throw unauthorized).

Definition no_query : request := mkRequest [] None.

(** What the query [?playlistId[toString]=x] parses to: an object whose
    [toString] is not a function, so that it has no conversion to a
    string. *)
Definition unprintable : value := VObj [("toString", VStr "x")].

Definition with_query (k v : string) (auth : option string) : request :=
  mkRequest [(k, VStr v)] auth.

(** The extractor answers every call with [payload]. *)
Definition extractor_returns (payload : value) : Services :=
  mkServices (fun _ => Ok payload)
             (fun _ => Ok [Data "ftyp"; End])
             (fun _ _ => Throw unauthorized).

(** A playlist document whose reported count differs from its entries:
    five announced, one entry and one hole delivered. *)
Definition short_playlist : value :=
  VObj [("title", VStr "Road trip");
        ("playlist_count", num 5);
        ("entries", VArr [VObj [("id", VStr "dQw4w9WgXcQ");
                                ("title", VStr "First song");
                                ("duration", num 212)];
                          VNull])].

(** A private playlist: the extractor is refused, the listing API of the
    signed-in owner knows it. *)
Definition owner_listing : value :=
  VObj [("data",
         VObj [("items",
                VArr [VObj [("id", VStr "PLprivate");
                            ("snippet",
                             VObj [("title", VStr "Road trip");
                                   ("description", VStr "");
                                   ("thumbnails",
                                    VObj [("default",
                                           VObj [("url", VStr "https://i.ytimg.com/vi/a/default.jpg")])])]);
                            ("contentDetails", VObj [("itemCount", num 12)])]])])].

Definition private_playlist : Services :=
  mkServices (fun _ => Throw extractor_down)
             (fun _ => Throw extractor_down)
             (fun _ _ => Ok owner_listing).

(** Output of the extractor with one document per line, one of them cut
    short. *)
Definition quoted (s : string) : string :=
  String Json.dq (s ++ String Json.dq EmptyString).

Definition entry_line (id title : string) : string :=
  "{" ++ quoted "id" ++ ":" ++ quoted id ++ ","
      ++ quoted "title" ++ ":" ++ quoted title ++ "}".

Definition line_break : string := String LineDraft.newline EmptyString.

Definition ndjson : string :=
  entry_line "a" "First song" ++ line_break
  ++ entry_line "b" "Second song" ++ line_break
  ++ "{" ++ quoted "id" ++ line_break
  ++ entry_line "c" "Third song" ++ line_break.

Definition line_entry (id title : string) : value :=
  VObj [("id", VStr id);
        ("title", VStr title);
        ("author", VStr "Unknown");
        ("duration", num 0);
        ("thumbnailUrl", VStr "")].

Definition playlist_request : request := with_query "playlistId" "PL1" None.

(** What ytdl-core knows of a video: two audio-only formats. *)
Definition ytdl_info : value :=
  VObj [("formats",
         VArr [VObj [("url", VStr "https://rr1.googlevideo.com/videoplayback?itag=140");
                     ("audioBitrate", num 128);
                     ("mimeType", VStr "audio/mp4; codecs=mp4a.40.2")];
               VObj [("url", VStr "https://rr1.googlevideo.com/videoplayback?itag=251");
                     ("audioBitrate", num 160);
                     ("mimeType", VStr "audio/webm; codecs=opus")]]);
        ("videoDetails",
         VObj [("title", VStr "Never Gonna Give You Up (Official Video)");
               ("author", VObj [("name", VStr "Rick Astley")]);
               ("lengthSeconds", VStr "212")])].

Definition ytdl_library : YtdlDraft.Ytdl :=
  YtdlDraft.mkYtdl (fun _ => true) (fun _ => Ok ytdl_info) (fun formats => Ok formats).

Definition broken_pipe : js_error :=
  mkError "Error" (VStr "write EPIPE") (VStr "EPIPE").

(** A video document, and a stream that breaks after its first chunk. *)
Definition video_document : value :=
  VObj [("id", VStr "dQw4w9WgXcQ");
        ("title", VStr "Never Gonna Give You Up (Official Video)");
        ("uploader", VStr "Rick Astley");
        ("duration", num 212)].

Definition breaking_stream : Services :=
  mkServices (fun _ => Ok video_document)
             (fun _ => Ok [Data "ftyp"; Error broken_pipe; Data "mdat"])
             (fun _ _ => Throw unauthorized).

Definition video_request : request := with_query "videoId" "dQw4w9WgXcQ" None.

(** What [/api/download-info] of [src/server.js] answers to that request
    when the extractor reports an empty document. *)
Definition bare_answer : response :=
  mkResponse 200
    (VObj [("videoId", VStr "dQw4w9WgXcQ");
           ("title", VUndefined);
           ("author", VStr "Unknown");
           ("lengthSeconds", num 0);
           ("downloadUrl", VStr "https://www.youtube.com/watch?v=dQw4w9WgXcQ");
           ("quality", VStr "best");
           ("format", VStr "audio/mp4")]).

End Scenario.

(* ===================================================================== *)
(** * Further vocabulary: strings, formats, streams                       *)
(* ===================================================================== *)

Module Notions.
Import JS Eff Common App.

(** [pieces.join(sep)] for a one-character separator. *)
Fixpoint join (sep : ascii) (pieces : list string) : string :=
  match pieces with
  | [] => EmptyString
  | [piece] => piece
  | piece :: rest => piece ++ String sep (join sep rest)
  end.

Definition free_of (sep : ascii) (s : string) : bool :=
  forall_string (fun c => negb (Ascii.eqb c sep)) s.

(** The first and the last code unit of a string. *)
Definition first_char (s : string) : option ascii :=
  match s with
  | String c _ => Some c
  | EmptyString => None
  end.

Fixpoint last_char (s : string) : option ascii :=
  match s with
  | EmptyString => None
  | String c EmptyString => Some c
  | String _ rest => last_char rest
  end.

Definition not_space (c : option ascii) : bool :=
  match c with
  | Some c => negb (is_space c)
  | None => true
  end.

(** The [audioBitrate] of a format, when it is a number. *)
Definition bitrate (format : value) : option Q :=
  match format with
  | VObj props =>
      match lookup_prop "audioBitrate" props with
      | VNum q => Some q
      | _ => None
      end
  | _ => None
  end.

(** A format object whose bitrate is a positive number. *)
Definition rated (format : value) : bool :=
  match bitrate format with
  | Some q => (0 <? Qnum q)%Z
  | None => false
  end.

Definition bitrate_le (a b : value) : bool :=
  match bitrate a, bitrate b with
  | Some x, Some y => Qle_bool x y
  | _, _ => false
  end.

(** The chunks written to the response, in order. *)
Definition written (log : list res_op) : list string :=
  flat_map (fun op => match op with
                      | Write chunk => [chunk]
                      | _ => []
                      end) log.

(** The error code of each route of [src/server.js], as its [catch]
    writes it. *)
Definition failure_text (r : route) : string :=
  match r with
  | PlaylistInfo => "Failed to fetch playlist info"
  | PlaylistVideos => "Failed to fetch playlist videos"
  | DownloadInfo => "Failed to fetch download info"
  | Download => "Failed to download"
  end.

(** The address each route of [src/server.js] builds from its parameter,
    and the arguments it gives the extractor for the metadata of that
    address. *)
Definition route_url (rt : Runtime) (r : route) (req : request) : result string :=
  match r with
  | PlaylistInfo | PlaylistVideos => playlist_url rt (query_param req "playlistId")
  | DownloadInfo | Download => watch_url rt (query_param req "videoId")
  end.

Definition metadata_args (r : route) (url : string) : list string :=
  match r with
  | PlaylistInfo | PlaylistVideos => [url; "--flat-playlist"; "--dump-single-json"]
  | DownloadInfo | Download => [url; "--dump-json"]
  end.

(** What [which yt-dlp] prints: the path and a line break. *)
Definition which_output : string :=
  "/usr/local/bin/yt-dlp" ++ Scenario.line_break.

(** A title with its ASCII capitals lower-cased: two titles with the same
    fold differ only in the case of their ASCII letters. *)
Definition fold_ascii_case (title : string) : string :=
  map_string (fun c => if is_upper c then ascii_of_nat (nat_of_ascii c + 32) else c)
    title.

Definition is_stream_call (c : call) : bool :=
  match c with
  | CallExecStream _ => true
  | _ => false
  end.

End Notions.

(* ===================================================================== *)
(** * Properties                                                          *)
(* ===================================================================== *)

Import JS Eff Common App.

(** One step of a case analysis on a handler's run. *)
Ltac case_step H :=
  match type of H with
  | context [match ?x with _ => _ end] =>
      lazymatch x with
      | context [match _ with _ => _ end] => fail
      | _ => let E := fresh "E" in destruct x eqn:E; simpl in H
      end
  end.

(** ** Basic facts about values *)

Lemma lookup_absent (k : string) (props : list (string * value)) :
  has_prop k props = false -> lookup_prop k props = VUndefined.
Proof.
  induction props as [|[k' v] rest IH]; simpl; intros H.
  - reflexivity.
  - apply orb_false_iff in H as [Hk Hrest].
    rewrite Hk. now apply IH.
Qed.

Lemma get_object (props : list (string * value)) (k : string) :
  get (VObj props) k = Ok (lookup_prop k props).
Proof. reflexivity. Qed.

Lemma or_defined (a b : value) : defined b = true -> defined (or a b) = true.
Proof. unfold or. destruct a; simpl; intros; try assumption; try reflexivity;
  match goal with |- context [if ?c then _ else _] => destruct c end; auto. Qed.

(** ** The reference parser on the lines of the scenarios *)

Example parse_entry_line :
  Json.parse (Scenario.entry_line "a" "First song")
  = Ok (VObj [("id", VStr "a"); ("title", VStr "First song")]).
Proof. reflexivity. Qed.

Example parse_cut_line :
  Json.parse ("{" ++ Scenario.quoted "id")
  = Throw (SyntaxError "Unexpected token in JSON").
Proof. reflexivity. Qed.

Example parse_numbers :
  Json.parse "[0, -12, 2.5, 1e2, true, null]"
  = Ok (VArr [VNum 0; VNum (-12); VNum (Qmake 25 10); VNum 100; VBool true; VNull]).
Proof. reflexivity. Qed.

(** ** Missing query parameter *)

(** C5, as stated, fails: the body of the 400 answer of [src/server.js]
    has the [error] field alone, not the envelope with [message]. *)
Lemma C5_bad_request_has_no_message :
  serve Json.runtime Scenario.offline PlaylistInfo Scenario.no_query
    = (Some (mkResponse 400 (VObj [("error", VStr "playlistId parameter is required")])), [])
  /\ has_envelope (mkResponse 400 (VObj [("error", VStr "playlistId parameter is required")]))
     = false.
Proof. split; reflexivity. Qed.

(** C5, amended: on each of the four routes of [src/server.js], a request
    whose query lacks the required parameter is answered with status 400
    and the body [{error: "<name> parameter is required"}], which has no
    [message] field, and no outbound call is made. *)
Theorem C5_missing_parameter (rt : Runtime) (sv : Services) (r : route) (req : request) :
  has_prop (required r) (query req) = false ->
  serve rt sv r req
    = (Some (mkResponse 400 (VObj [("error", VStr (required r ++ " parameter is required"))])), [])
  /\ has_envelope (mkResponse 400 (VObj [("error", VStr (required r ++ " parameter is required"))]))
     = false.
Proof.
  intros H. apply lookup_absent in H. split; [|reflexivity].
  destruct r; simpl in H;
    unfold serve, answer, run, Server.playlist_info, Server.playlist_videos,
      Server.download_info, Server.download_exchange, Server.download,
      try_catch, query_param, run;
    rewrite H; reflexivity.
Qed.

Lemma C5_missing_parameter_witness :
  serve Json.runtime Scenario.offline Download Scenario.no_query
    = (Some (mkResponse 400 (VObj [("error", VStr "videoId parameter is required")])), [])
  /\ has_envelope (mkResponse 400 (VObj [("error", VStr "videoId parameter is required")]))
     = false.
Proof.
  exact (C5_missing_parameter Json.runtime Scenario.offline Download Scenario.no_query
           eq_refl).
Defined.

(** ** Authentication failures of [/api/user-playlists] *)

Lemma bearer_is_nonempty (h : string) :
  startsWith h "Bearer " = true -> String.eqb h "" = false.
Proof. destruct h; simpl; [discriminate | reflexivity]. Qed.

(** C8: a request to [/api/user-playlists] whose [Authorization] header is
    missing or is not a bearer header, or whose token the listing API
    rejects with code 401, is answered with status 401 and an [error] field;
    when the header is missing no outbound call is made. *)
Theorem C8_user_playlists_unauthorized (sv : Services) (req : request) :
  auth_failure sv req ->
  exists r s,
    run (Hybrid.user_playlists sv req) = (Ok r, s)
    /\ status r = 401%Z
    /\ nonempty_string (field r "error") = true
    /\ (authorization req = None -> calls s = []).
Proof.
  intros [Hnone | h Hsome Hpre | h e Hsome Hpre Hcall Hcode];
    unfold Hybrid.user_playlists, run, try_catch, Hybrid.has_bearer,
      Hybrid.access_token, bind, perform, ret;
    rewrite ?Hnone, ?Hsome; simpl.
  - eexists _, _. repeat split.
  - rewrite Hpre, andb_false_r. simpl.
    eexists _, _. repeat split; discriminate.
  - rewrite Hpre, (bearer_is_nonempty h Hpre). simpl.
    rewrite Hcall, Hcode.
    eexists _, _. repeat split; discriminate.
Qed.

Lemma C8_user_playlists_unauthorized_witness :
  exists r s,
    run (Hybrid.user_playlists Scenario.offline
           (mkRequest [] (Some "Bearer expired-token"))) = (Ok r, s)
    /\ status r = 401%Z
    /\ nonempty_string (field r "error") = true
    /\ (authorization (mkRequest [] (Some "Bearer expired-token")) = None -> calls s = []).
Proof.
  apply C8_user_playlists_unauthorized.
  apply (token_rejected _ _ "Bearer expired-token" Scenario.unauthorized);
    reflexivity.
Defined.

(** ** The videos list of [/api/playlist-videos] *)

Lemma filter_not_null (xs : list value) :
  Forall (fun v => v <> VNull) (List.filter not_null xs).
Proof.
  induction xs as [|x rest IH]; simpl.
  - constructor.
  - destruct x; simpl; try assumption; constructor; (discriminate || assumption).
Qed.

Lemma map_entries_not_null (rt : Runtime) (entries : value) (videos : list value) :
  Server.map_entries rt entries = Ok videos ->
  Forall (fun v => v <> VNull) videos.
Proof.
  unfold Server.map_entries, rbind.
  destruct (call_map "entries" entries (Server.map_entry rt)); intros H;
    inversion H; subst. apply filter_not_null.
Qed.

Lemma videos_response_invariant (playlistId title : value) (videos : list value) :
  Forall (fun v => v <> VNull) videos ->
  videos_invariant (Server.videos_response playlistId title videos).
Proof. intros H. exists videos. repeat split. exact H. Qed.

Lemma server_playlist_videos_cases (rt : Runtime) (sv : Services) (req : request)
    (r : response) :
  fst (run (Server.playlist_videos rt sv req)) = Ok r ->
  status r = 400%Z \/ status r = 500%Z
  \/ exists title entries videos,
       Server.map_entries rt entries = Ok videos
       /\ r = Server.videos_response (query_param req "playlistId")
                (or title (VStr "")) videos.
Proof.
  unfold Server.playlist_videos, run, try_catch, bind, perform, lift, ret, rbind.
  intros H. simpl in H.
  repeat case_step H; inversion H; subst; simpl; eauto 10.
Qed.

Lemma hybrid_playlist_videos_cases (rt : Runtime) (sv : Services) (req : request)
    (r : response) :
  fst (run (Hybrid.playlist_videos rt sv req)) = Ok r ->
  status r = 400%Z \/ status r = 500%Z
  \/ exists title entries videos,
       Server.map_entries rt entries = Ok videos
       /\ r = Server.videos_response (query_param req "playlistId")
                (or title (VStr "")) videos.
Proof.
  unfold Hybrid.playlist_videos, run, try_catch, bind, perform, lift, ret, rbind.
  intros H. simpl in H.
  repeat case_step H; inversion H; subst; simpl; eauto 10.
Qed.

(** C10: in a successful answer of [/api/playlist-videos], in
    [src/server.js] and in [src/unnamed/part_000] alike, the videos list has
    no [null] entry and [itemCount] is the length of that list, whatever
    [playlist_count] the extractor reported. *)
Theorem C10_videos_count (rt : Runtime) (sv : Services) (req : request) (r : response) :
  fst (run (Server.playlist_videos rt sv req)) = Ok r
  \/ fst (run (Hybrid.playlist_videos rt sv req)) = Ok r ->
  status r = 200%Z ->
  videos_invariant r.
Proof.
  intros [H | H] H200;
    [apply server_playlist_videos_cases in H | apply hybrid_playlist_videos_cases in H];
    destruct H as [H | [H | (title & entries & videos & Hmap & ->)]];
    try (rewrite H in H200; discriminate);
    apply videos_response_invariant, (map_entries_not_null rt entries), Hmap.
Qed.

Lemma C10_videos_count_witness :
  exists r,
    fst (run (Server.playlist_videos Json.runtime
                (Scenario.extractor_returns Scenario.short_playlist)
                (Scenario.with_query "playlistId" "PL1" None))) = Ok r
    /\ status r = 200%Z
    /\ field r "itemCount" = num 1
    /\ videos_invariant r.
Proof.
  eexists. split; [reflexivity|]. split; [reflexivity|]. split; [reflexivity|].
  apply (C10_videos_count Json.runtime
           (Scenario.extractor_returns Scenario.short_playlist)
           (Scenario.with_query "playlistId" "PL1" None));
    [left; reflexivity | reflexivity].
Defined.

(** ** The streaming route once the headers are out *)

Lemma headersSent_app (l l' : list res_op) :
  Server.headersSent (l ++ l') = Server.headersSent l || Server.headersSent l'.
Proof. apply existsb_app. Qed.

Lemma quiet_app (sent : bool) (l l' : list res_op) :
  quiet_after_commit sent (l ++ l')
  = quiet_after_commit sent l
    && quiet_after_commit (sent || Server.headersSent l) l'.
Proof.
  revert sent. induction l as [|op rest IH]; intros sent; simpl.
  - now rewrite orb_false_r.
  - rewrite IH, <- andb_assoc, <- orb_assoc. reflexivity.
Qed.

Lemma statusCode_app (l l' : list res_op) :
  (forall op, In op l' -> match op with Status _ => False | _ => True end) ->
  Server.statusCode (l ++ l') = Server.statusCode l.
Proof.
  unfold Server.statusCode. rewrite fold_left_app.
  generalize (fold_left (fun c op => match op with Status c' => c' | _ => c end) l 200%Z).
  induction l' as [|op rest IH]; intros c H; simpl; [reflexivity|].
  pose proof (H op (or_introl eq_refl)) as Hop.
  destruct op; try contradiction; apply IH; intros; apply H; now right.
Qed.

Lemma json_sent_app (code : Z) (l l' : list res_op) :
  (forall op, In op l' -> match op with Status _ | Json _ => False | _ => True end) ->
  json_sent code (l ++ l') = json_sent code l.
Proof.
  intros H. revert code. induction l as [|op rest IH]; intros code; simpl.
  - induction l' as [|op rest IH]; simpl; [reflexivity|].
    pose proof (H op (or_introl eq_refl)) as Hop.
    destruct op; try contradiction; apply IH; intros; apply H; now right.
  - destruct op; auto.
Qed.

(** What a stream event can still do to a response whose headers are out:
    nothing, one more chunk, or the end. *)
Lemma event_after_commit (log : list res_op) (ev : stream_event) :
  Server.headersSent log = true ->
  Server.on_stream_event log ev = log
  \/ (exists chunk, Server.on_stream_event log ev = log ++ [Write chunk])
  \/ Server.on_stream_event log ev = log ++ [EndResponse].
Proof.
  intros H. destruct ev; simpl.
  - destruct (Server.finished log); eauto.
  - destruct (Server.finished log); eauto.
  - rewrite H. now left.
Qed.

Lemma event_keeps_commit (log : list res_op) (ev : stream_event) :
  Server.headersSent log = true ->
  Server.headersSent (Server.on_stream_event log ev) = true.
Proof.
  intros H. destruct (event_after_commit log ev H) as [-> | [[c ->] | ->]];
    rewrite ?headersSent_app, ?H; reflexivity.
Qed.

Lemma event_keeps_answer (log : list res_op) (ev : stream_event) :
  Server.headersSent log = true ->
  Server.statusCode (Server.on_stream_event log ev) = Server.statusCode log
  /\ json_sent 200 (Server.on_stream_event log ev) = json_sent 200 log
  /\ Server.headers (Server.on_stream_event log ev) = Server.headers log.
Proof.
  intros H. destruct (event_after_commit log ev H) as [-> | [[c ->] | ->]];
    repeat split;
    try (apply statusCode_app; intros op [<- | []]; exact I);
    try (apply json_sent_app; intros op [<- | []]; exact I);
    unfold Server.headers; rewrite fold_left_app; reflexivity.
Qed.

Lemma deliver_keeps_answer (events : list stream_event) (log : list res_op) :
  Server.headersSent log = true ->
  Server.statusCode (Server.deliver events log) = Server.statusCode log
  /\ json_sent 200 (Server.deliver events log) = json_sent 200 log
  /\ Server.headers (Server.deliver events log) = Server.headers log.
Proof.
  revert log. induction events as [|ev rest IH]; intros log H; simpl.
  - repeat split.
  - destruct (IH _ (event_keeps_commit log ev H)) as (Hs & Hj & Hh).
    destruct (event_keeps_answer log ev H) as (Hs' & Hj' & Hh').
    repeat split; congruence.
Qed.

Lemma event_keeps_quiet (log : list res_op) (ev : stream_event) :
  quiet_after_commit false log = true ->
  quiet_after_commit false (Server.on_stream_event log ev) = true.
Proof.
  intros H. destruct ev; simpl.
  - destruct (Server.finished log); [assumption|].
    rewrite quiet_app, H. reflexivity.
  - destruct (Server.finished log); [assumption|].
    rewrite quiet_app, H. reflexivity.
  - destruct (Server.headersSent log) eqn:E; simpl; [assumption|].
    rewrite quiet_app, H, E. reflexivity.
Qed.

Lemma deliver_keeps_quiet (events : list stream_event) (log : list res_op) :
  quiet_after_commit false log = true ->
  quiet_after_commit false (Server.deliver events log) = true.
Proof.
  revert log. induction events as [|ev rest IH]; intros log H; simpl.
  - assumption.
  - apply IH, event_keeps_quiet, H.
Qed.

(** The handler itself, before any event, leaves a quiet log. *)
Lemma download_quiet (rt : Runtime) (sv : Services) (req : request) :
  quiet_after_commit false (res (snd (run (Server.download rt sv req)))) = true.
Proof.
  unfold Server.download, Server.download_catch, run, try_catch, bind, perform, lift,
    ret, get_state, Server.setHeader, Server.send_json, on_res, bind.
  simpl.
  repeat match goal with
         | |- context [match ?x with _ => _ end] =>
             lazymatch x with
             | context [match _ with _ => _ end] => fail
             | _ => destruct x; simpl
             end
         end; reflexivity.
Qed.

(** C9: on the streaming route, once the headers of the response are out,
    nothing changes its status code or sends a JSON body: not the stream's
    events (the ['error'] listener included), not the outer [catch]; and in
    every exchange no status code and no JSON body is emitted after the
    headers. *)
Theorem C9_no_error_response_after_headers (rt : Runtime) (sv : Services) :
  (forall log events,
      Server.headersSent log = true ->
      Server.statusCode (Server.deliver events log) = Server.statusCode log
      /\ json_sent 200 (Server.deliver events log) = json_sent 200 log
      /\ Server.headers (Server.deliver events log) = Server.headers log)
  /\ (forall log error,
         Server.headersSent log = true ->
         Server.on_stream_event log (Error error) = log)
  /\ (forall s error,
         Server.headersSent (res s) = true ->
         Server.download_catch error s = (Ok [], s))
  /\ (forall req,
         quiet_after_commit false (snd (Server.download_exchange rt sv req)) = true).
Proof.
  split; [|split; [|split]].
  - intros log events H. apply deliver_keeps_answer, H.
  - intros log error H. simpl. now rewrite H.
  - intros s error H. unfold Server.download_catch, bind, get_state. now rewrite H.
  - intros req. unfold Server.download_exchange.
    pose proof (download_quiet rt sv req) as Hq.
    destruct (run (Server.download rt sv req)) as [[events | e] s]; simpl in *.
    + apply deliver_keeps_quiet, Hq.
    + exact Hq.
Qed.

Lemma C9_no_error_response_after_headers_witness :
  Server.on_stream_event
    [SetHeader "Content-Type" "audio/mp4"; Write "ftyp"] (Error Scenario.broken_pipe)
  = [SetHeader "Content-Type" "audio/mp4"; Write "ftyp"]
  /\ quiet_after_commit false
       (snd (Server.download_exchange Json.runtime Scenario.breaking_stream
               Scenario.video_request)) = true.
Proof.
  split.
  - apply (proj1 (proj2 (C9_no_error_response_after_headers
                           Json.runtime Scenario.breaking_stream))).
    reflexivity.
  - apply (proj2 (proj2 (proj2 (C9_no_error_response_after_headers
                                  Json.runtime Scenario.breaking_stream)))).
Defined.

(** The exchange of that scenario, in full: the error after the first chunk
    leaves no trace in the response, and the chunks keep flowing. *)
Example breaking_stream_exchange :
  snd (Server.download_exchange Json.runtime Scenario.breaking_stream
         Scenario.video_request)
  = [SetHeader "Content-Disposition"
       (Server.content_disposition "never_gonna_give_you_up__official_video_");
     SetHeader "Content-Type" "audio/mp4";
     Write "ftyp"; Write "mdat"].
Proof. reflexivity. Qed.

(** ** The file name of the download *)

Lemma sanitize_char_ok (c : ascii) :
  lower_char (if is_alnum c then c else "_"%char) = sanitize_char c
  /\ filename_char (sanitize_char c) = true.
Proof.
  destruct c as [[] [] [] [] [] [] [] []]; split; reflexivity.
Qed.

Lemma sanitize_pointwise (t : string) :
  sanitize t = map_string sanitize_char t.
Proof.
  unfold sanitize, toLowerCase.
  induction t as [|c rest IH]; simpl; [reflexivity|].
  rewrite IH. f_equal. apply sanitize_char_ok.
Qed.

Lemma sanitize_chars (t : string) :
  forall_string filename_char (sanitize t) = true.
Proof.
  rewrite sanitize_pointwise.
  induction t as [|c rest IH]; simpl; [reflexivity|].
  rewrite IH, andb_true_r. apply sanitize_char_ok.
Qed.

Lemma sanitize_length (t : string) :
  String.length (sanitize t) = String.length t.
Proof.
  rewrite sanitize_pointwise.
  induction t as [|c rest IH]; simpl; congruence.
Qed.

Lemma event_keeps_headers (log : list res_op) (ev : stream_event) :
  Server.headers (Server.on_stream_event log ev) = Server.headers log.
Proof.
  destruct ev; simpl;
    repeat match goal with |- context [if ?b then _ else _] => destruct b end;
    try reflexivity;
    unfold Server.headers; rewrite fold_left_app; reflexivity.
Qed.

Lemma deliver_keeps_headers (events : list stream_event) (log : list res_op) :
  Server.headers (Server.deliver events log) = Server.headers log.
Proof.
  revert log. induction events as [|ev rest IH]; intros log; simpl.
  - reflexivity.
  - rewrite IH. apply event_keeps_headers.
Qed.

(** A value that can be read once can be read at any name. *)
Lemma get_total (v x : value) (k k' : string) :
  get v k = Ok x -> exists y, get v k' = Ok y.
Proof.
  destruct v; simpl; intros H; try discriminate; eauto;
    repeat match goal with |- context [if ?b then _ else _] => destruct b end; eauto.
Qed.

(** The log of the streaming handler when the extractor reports a title
    string and opens the stream. *)
Lemma download_streams (rt : Runtime) (sv : Services) (req : request)
    (videoUrl : string) (metadata info : value) (t : string)
    (events : list stream_event) :
  truthy (query_param req "videoId") = true ->
  watch_url rt (query_param req "videoId") = Ok videoUrl ->
  getVideoInfo sv [videoUrl; "--dump-json"] = Ok metadata ->
  parse_metadata rt metadata = Ok info ->
  get info "title" = Ok (VStr t) ->
  execStream sv [videoUrl; "-f"; "bestaudio"; "-o"; "-"] = Ok events ->
  Server.download_exchange rt sv req
  = ([CallGetVideoInfo [videoUrl; "--dump-json"];
      CallExecStream [videoUrl; "-f"; "bestaudio"; "-o"; "-"]],
     Server.deliver events
       [SetHeader "Content-Disposition" (Server.content_disposition (sanitize t));
        SetHeader "Content-Type" "audio/mp4"]).
Proof.
  intros Hid Hurl Hcall Hparse Htitle Hstream.
  unfold Server.download_exchange, Server.download, run, try_catch, bind, perform,
    lift, ret, Server.setHeader, on_res.
  rewrite Hid. simpl. rewrite Hurl. simpl. rewrite Hcall, Hparse, Htitle. simpl.
  rewrite Hstream. reflexivity.
Qed.

(** C4: when the address of the video is built from the parameter, the
    extractor reports the title string [t] and the stream
    opens, the response of [/api/download] carries
    [Content-Disposition: attachment; filename="<name>.m4a"] where [<name>]
    is [t] with every character outside [a-zA-Z0-9] replaced by an
    underscore and the others lower-cased, so [<name>] holds only lower-case
    letters, digits and underscores; [Content-Type] is [audio/mp4]; and the
    [title] field of the JSON answer of [/api/download-info] for the same
    extractor output is [t] itself. *)
Theorem C4_download_filename (rt : Runtime) (sv : Services) (req : request)
    (videoUrl : string) (metadata info : value) (t : string)
    (events : list stream_event) :
  truthy (query_param req "videoId") = true ->
  watch_url rt (query_param req "videoId") = Ok videoUrl ->
  getVideoInfo sv [videoUrl; "--dump-json"] = Ok metadata ->
  parse_metadata rt metadata = Ok info ->
  get info "title" = Ok (VStr t) ->
  execStream sv [videoUrl; "-f"; "bestaudio"; "-o"; "-"] = Ok events ->
  let log := snd (Server.download_exchange rt sv req) in
  Server.headers log !! "Content-Disposition"
    = Some ("attachment; filename=" ++ Server.dquote
            ++ map_string sanitize_char t ++ ".m4a" ++ Server.dquote)%string
  /\ Server.headers log !! "Content-Type" = Some "audio/mp4"
  /\ forall_string filename_char (map_string sanitize_char t) = true
  /\ exists r, fst (run (Server.download_info rt sv req)) = Ok r
               /\ status r = 200%Z
               /\ field r "title" = VStr t.
Proof.
  intros Hid Hurl Hcall Hparse Htitle Hstream log. subst log.
  rewrite (download_streams rt sv req videoUrl metadata info t events
             Hid Hurl Hcall Hparse Htitle Hstream).
  simpl snd. rewrite deliver_keeps_headers, <- sanitize_pointwise.
  split; [|split; [|split]].
  - unfold Server.headers, Server.content_disposition. simpl.
    rewrite lookup_insert_ne by discriminate. apply lookup_insert_eq.
  - unfold Server.headers. simpl. apply lookup_insert_eq.
  - apply sanitize_chars.
  - destruct (get_total info _ "title" "uploader" Htitle) as [u Hu].
    destruct (get_total info _ "title" "channel" Htitle) as [c Hc].
    destruct (get_total info _ "title" "duration" Htitle) as [d Hd].
    unfold Server.download_info, run, try_catch, bind, perform, lift, ret, rbind, or_else.
    rewrite Hid. simpl. rewrite Hurl. simpl. rewrite Hcall, Hparse, Htitle, Hu, Hd. simpl.
    destruct (truthy u); [|rewrite Hc]; eexists; repeat split.
Qed.

Lemma C4_download_filename_witness :
  Server.headers (snd (Server.download_exchange Json.runtime Scenario.breaking_stream
                         Scenario.video_request)) !! "Content-Disposition"
    = Some ("attachment; filename=" ++ Server.dquote
            ++ "never_gonna_give_you_up__official_video_" ++ ".m4a" ++ Server.dquote)%string
  /\ Server.headers (snd (Server.download_exchange Json.runtime Scenario.breaking_stream
                            Scenario.video_request)) !! "Content-Type"
     = Some "audio/mp4"
  /\ forall_string filename_char "never_gonna_give_you_up__official_video_" = true
  /\ exists r, fst (run (Server.download_info Json.runtime Scenario.breaking_stream
                           Scenario.video_request)) = Ok r
               /\ status r = 200%Z
               /\ field r "title" = VStr "Never Gonna Give You Up (Official Video)".
Proof.
  exact (C4_download_filename Json.runtime Scenario.breaking_stream Scenario.video_request
           "https://www.youtube.com/watch?v=dQw4w9WgXcQ"
           Scenario.video_document Scenario.video_document
           "Never Gonna Give You Up (Official Video)"
           [Data "ftyp"; Error Scenario.broken_pipe; Data "mdat"]
           eq_refl eq_refl eq_refl eq_refl eq_refl eq_refl).
Defined.

(** ** The array shape of a playlist payload *)










(** ** The fallback of [/api/playlist-info] *)

Lemma try_extractor_state (rt : Runtime) (sv : Services) (playlistId : value) (s : state) :
  snd (Hybrid.try_extractor rt sv playlistId s)
  = mkState (calls s ++ attempt_calls rt playlistId) (res s).
Proof.
  unfold Hybrid.try_extractor, attempt_calls, bind, perform, lift.
  destruct (playlist_url rt playlistId) as [url|]; simpl.
  - destruct (getVideoInfo sv _); [|reflexivity].
    destruct (parse_metadata rt a); reflexivity.
  - rewrite app_nil_r. destruct s; reflexivity.
Qed.

(** When the address cannot be built, the inner [try] block throws that
    error. *)
Lemma try_extractor_no_address (rt : Runtime) (sv : Services) (playlistId : value)
    (e : js_error) (s : state) :
  playlist_url rt playlistId = Throw e ->
  fst (Hybrid.try_extractor rt sv playlistId s) = Throw e.
Proof.
  intros H. unfold Hybrid.try_extractor, bind, lift. now rewrite H.
Qed.







(** Without a token the same failure is reported as it came. *)
Example playlist_info_without_token :
  fst (run (Hybrid.playlist_info Json.runtime Scenario.private_playlist
              (Scenario.with_query "playlistId" "PLprivate" None)))
  = Ok (mkResponse 500
          (VObj [("error", VStr "Failed to fetch playlist info");
                 ("message", err_message Scenario.extractor_down)])).
Proof. reflexivity. Qed.

(** ** Defaults for what the extractor leaves out *)

(** C2, as stated, fails: when the extractor reports no [title] for a video
    the successful answer of [/api/download-info] has no [title], and when
    it reports no [id] for a playlist entry the entry of
    [/api/playlist-videos] has no [id].  Nor is every other field always
    defined: the summary of [/api/playlist-info] has no [thumbnailUrl] when
    the last thumbnail reported has no [url], and no [itemCount] when the
    extractor reports no [playlist_count] and entries without a length. *)
Lemma C2_title_and_id_pass_through :
  (exists r,
      fst (run (Server.download_info Json.runtime
                  (Scenario.extractor_returns
                     (VObj [("uploader", VStr "Rick Astley"); ("duration", num 212)]))
                  Scenario.video_request)) = Ok r
      /\ status r = 200%Z
      /\ defined (field r "title") = false)
  /\ (exists r entry,
         fst (run (Server.playlist_videos Json.runtime
                     (Scenario.extractor_returns
                        (VObj [("entries", VArr [VObj [("title", VStr "First song")]])]))
                     (Scenario.with_query "playlistId" "PL1" None))) = Ok r
         /\ status r = 200%Z
         /\ field r "videos" = VArr [VObj entry]
         /\ defined (lookup_prop "id" entry) = false)
  /\ (exists r,
         fst (run (Server.playlist_info Json.runtime
                     (Scenario.extractor_returns
                        (VObj [("title", VStr "Road trip");
                               ("thumbnails", VArr [VObj [("height", num 90)]])]))
                     Scenario.playlist_request)) = Ok r
         /\ status r = 200%Z
         /\ defined (field r "thumbnailUrl") = false)
  /\ (exists r,
         fst (run (Server.playlist_info Json.runtime
                     (Scenario.extractor_returns
                        (VObj [("title", VStr "Road trip"); ("entries", VObj [])]))
                     Scenario.playlist_request)) = Ok r
         /\ status r = 200%Z
         /\ defined (field r "itemCount") = false).
Proof.
  split; [|split; [|split]].
  - eexists. repeat split.
  - eexists _, _. repeat split.
  - eexists. repeat split.
  - eexists. repeat split.
Qed.

Lemma Qred_inject_Z (k : Z) : Qred (inject_Z k) = inject_Z k.
Proof.
  unfold Qred, inject_Z.
  pose proof (Z.ggcd_gcd k 1) as Hg.
  pose proof (Z.ggcd_correct_divisors k 1) as Hd.
  destruct (Z.ggcd k 1) as [g [a b]]. simpl in *.
  rewrite Z.gcd_1_r in Hg. subst g. destruct Hd as [Ha Hb].
  rewrite Z.mul_1_l in Ha, Hb. subst a b. reflexivity.
Qed.

Lemma as_index_pred (n : nat) :
  as_index (inject_Z (Z.of_nat (S n)) - 1) = Some n.
Proof.
  unfold as_index.
  rewrite (Qred_complete _ (inject_Z (Z.of_nat n))).
  - rewrite Qred_inject_Z. simpl.
    replace (0 <=? Z.of_nat n)%Z with true by (symmetry; apply Z.leb_le; lia).
    now rewrite Nat2Z.id.
  - unfold Qeq, Qminus, Qplus, inject_Z. simpl. lia.
Qed.

Lemma nth_last (items : list value) (x : value) :
  nth (List.length items) (x :: items) VUndefined = List.last (x :: items) VUndefined.
Proof.
  revert x. induction items as [|y rest IH]; intros x; [reflexivity|].
  change (nth (List.length (y :: rest)) (x :: y :: rest) VUndefined)
    with (nth (List.length rest) (y :: rest) VUndefined).
  rewrite IH. reflexivity.
Qed.

Lemma entry_thumbnail_defined (rt : Runtime) (video thumb : value) :
  Server.entry_thumbnail rt video = Ok thumb -> defined thumb = true.
Proof.
  unfold Server.entry_thumbnail, rbind. intros H.
  repeat case_step H; inversion H; subst; now apply or_defined.
Qed.

Lemma entry_thumbnail_absent (rt : Runtime) (props : list (string * value)) :
  has_prop "thumbnail" props = false ->
  has_prop "thumbnails" props = false ->
  Server.entry_thumbnail rt (VObj props) = Ok (VStr "").
Proof.
  intros H1 H2. unfold Server.entry_thumbnail. simpl.
  rewrite (lookup_absent _ _ H1), (lookup_absent _ _ H2). reflexivity.
Qed.

(** An entry of the videos list, field by field. *)
Lemma map_entry_fields (rt : Runtime) (video v : value) :
  Server.map_entry rt video = Ok v ->
  v = VNull
  \/ exists id title uploader channel uploader_id duration thumb,
       get video "id" = Ok id
       /\ get video "title" = Ok title
       /\ get video "uploader" = Ok uploader
       /\ get video "channel" = Ok channel
       /\ get video "uploader_id" = Ok uploader_id
       /\ get video "duration" = Ok duration
       /\ Server.entry_thumbnail rt video = Ok thumb
       /\ v = VObj [("id", id);
                    ("title", or title (VStr "Unknown"));
                    ("author", or (or (or uploader channel) uploader_id) (VStr "Unknown"));
                    ("duration", or duration (num 0));
                    ("thumbnailUrl", thumb)].
Proof.
  unfold Server.map_entry, rbind. intros H.
  destruct (truthy video); simpl in H; [|inversion H; now left].
  right. repeat case_step H; inversion H; subst.
  eexists _, _, _, _, _, _, _. repeat split.
Qed.

Lemma map_result_pairs (f : value -> result value) (xs ys : list value) :
  map_result f xs = Ok ys -> Forall2 (fun x y => f x = Ok y) xs ys.
Proof.
  revert ys. induction xs as [|x rest IH]; simpl; intros ys H.
  - inversion H. constructor.
  - unfold rbind in H. destruct (f x) as [y|] eqn:Ey; [|discriminate].
    destruct (map_result f rest) as [ys'|]; [|discriminate].
    inversion H; subst. constructor; [assumption | now apply IH].
Qed.

(** The thumbnail of an entry that is an object, case by case. *)
Lemma entry_thumbnail_object (rt : Runtime) (props : list (string * value))
    (thumb : value) :
  Server.entry_thumbnail rt (VObj props) = Ok thumb ->
  (truthy (lookup_prop "thumbnail" props) = true ->
   thumb = lookup_prop "thumbnail" props)
  /\ (truthy (lookup_prop "thumbnail" props) = false ->
      truthy (lookup_prop "thumbnails" props) = false ->
      thumb = VStr "")
  /\ (truthy (lookup_prop "thumbnail" props) = false ->
      forall items,
        lookup_prop "thumbnails" props = VArr items ->
        match items with
        | [] => thumb = VStr ""
        | first :: _ => exists url, get first "url" = Ok url /\ thumb = or url (VStr "")
        end).
Proof.
  unfold Server.entry_thumbnail, rbind, or_else, and_then.
  rewrite !get_object. intros H. split; [|split].
  - intros Ht. rewrite Ht in H. unfold or in H. rewrite Ht in H. congruence.
  - intros Ht Hts. rewrite Ht, Hts in H. simpl in H. rewrite Hts in H. simpl in H.
    inversion H. reflexivity.
  - intros Ht items Hitems. rewrite Ht, Hitems in H.
    destruct items as [|x rest]; [simpl in H; inversion H; reflexivity|].
    cbn [truthy get String.eqb Ascii.eqb Bool.eqb List.length] in H.
    unfold gt0, to_number, num in H.
    replace (0 <? Qnum (inject_Z (Z.of_nat (S (List.length rest)))))%Z with true in H
      by (symmetry; apply Z.ltb_lt; simpl; lia).
    cbn [truthy get_at] in H.
    replace (as_index 0) with (Some 0%nat) in H by reflexivity.
    cbn [nth] in H.
    destruct (get x "url") as [url|]; [|discriminate].
    exists url. split; [reflexivity | congruence].
Qed.

(** The thumbnail of a playlist summary: the empty string when the
    document has no thumbnails, the [url] of the last one when it has. *)
Lemma playlist_thumbnail_cases (rt : Runtime) (playlistData thumbnails thumb : value) :
  get playlistData "thumbnails" = Ok thumbnails ->
  Server.playlist_thumbnail rt playlistData = Ok thumb ->
  (truthy thumbnails = false \/ thumbnails = VArr [] -> thumb = VStr "")
  /\ (forall items url,
         thumbnails = VArr items -> items <> [] ->
         get (List.last items VUndefined) "url" = Ok url ->
         thumb = url).
Proof.
  unfold Server.playlist_thumbnail, rbind, and_then. intros Hget H.
  rewrite Hget in H. split.
  - intros [Hf | ->].
    + rewrite Hf in H. simpl in H. rewrite Hf in H. simpl in H.
      inversion H. reflexivity.
    + simpl in H. inversion H. reflexivity.
  - intros items url -> Hne Hurl.
    destruct items as [|x rest]; [contradiction|].
    cbn [truthy get String.eqb Ascii.eqb Bool.eqb List.length] in H.
    unfold gt0, minus_one, to_number, num in H.
    replace (0 <? Qnum (inject_Z (Z.of_nat (S (List.length rest)))))%Z with true in H
      by (symmetry; apply Z.ltb_lt; simpl; lia).
    cbn [truthy get_at] in H. rewrite as_index_pred, nth_last in H. congruence.
Qed.

(** The successful answers of the three JSON routes of [src/server.js],
    each with the document of the extractor it was built from. *)
Lemma server_download_info_run (rt : Runtime) (sv : Services) (req : request)
    (r : response) :
  fst (run (Server.download_info rt sv req)) = Ok r ->
  status r = 200%Z ->
  exists videoUrl metadata info title uploader channel duration,
    watch_url rt (query_param req "videoId") = Ok videoUrl
    /\ getVideoInfo sv [videoUrl; "--dump-json"] = Ok metadata
    /\ parse_metadata rt metadata = Ok info
    /\ get info "title" = Ok title
    /\ get info "uploader" = Ok uploader
    /\ get info "channel" = Ok channel
    /\ get info "duration" = Ok duration
    /\ r = mkResponse 200
             (VObj [("videoId", query_param req "videoId");
                    ("title", title);
                    ("author", or (or uploader channel) (VStr "Unknown"));
                    ("lengthSeconds", or duration (num 0));
                    ("downloadUrl", VStr videoUrl);
                    ("quality", VStr "best");
                    ("format", VStr "audio/mp4")]).
Proof.
  unfold Server.download_info, run, try_catch, bind, perform, lift, ret.
  intros H H200. simpl in H.
  destruct (truthy (query_param req "videoId")); simpl in H;
    [|inversion H; subst; discriminate].
  destruct (watch_url rt _) as [videoUrl|] eqn:Hurl; simpl in H;
    [|inversion H; subst; discriminate].
  destruct (getVideoInfo sv _) as [metadata|] eqn:Hcall; simpl in H;
    [|inversion H; subst; discriminate].
  destruct (parse_metadata rt metadata) as [info|] eqn:Hparse; simpl in H;
    [|inversion H; subst; discriminate].
  destruct (get info "title") as [title|] eqn:Ht; simpl in H;
    [|inversion H; subst; discriminate].
  destruct (get_total info _ "title" "channel" Ht) as [channel Hch].
  destruct (get info "uploader") as [uploader|] eqn:Hup; simpl in H;
    [|inversion H; subst; discriminate].
  unfold or_else in H. rewrite Hch in H.
  assert (Hauthor : (if truthy uploader then Ok uploader else Ok channel)
                    = Ok (or uploader channel))
    by (unfold or; destruct (truthy uploader); reflexivity).
  rewrite Hauthor in H. simpl in H.
  destruct (get info "duration") as [duration|] eqn:Hd; simpl in H;
    [|inversion H; subst; discriminate].
  inversion H; subst.
  exists videoUrl, metadata, info, title, uploader, channel, duration.
  repeat split; assumption.
Qed.

Lemma server_playlist_videos_run (rt : Runtime) (sv : Services) (req : request)
    (r : response) :
  fst (run (Server.playlist_videos rt sv req)) = Ok r ->
  status r = 200%Z ->
  exists playlistUrl metadata playlistData title entries items mapped,
    playlist_url rt (query_param req "playlistId") = Ok playlistUrl
    /\ getVideoInfo sv [playlistUrl; "--flat-playlist"; "--dump-single-json"]
       = Ok metadata
    /\ parse_metadata rt metadata = Ok playlistData
    /\ get playlistData "title" = Ok title
    /\ get playlistData "entries" = Ok entries
    /\ or entries (VArr []) = VArr items
    /\ Forall2 (fun entry video => Server.map_entry rt entry = Ok video) items mapped
    /\ r = Server.videos_response (query_param req "playlistId")
             (or title (VStr "")) (List.filter not_null mapped).
Proof.
  unfold Server.playlist_videos, run, try_catch, bind, perform, lift, ret.
  intros H H200. simpl in H.
  destruct (truthy (query_param req "playlistId")); simpl in H;
    [|inversion H; subst; discriminate].
  destruct (playlist_url rt _) as [playlistUrl|] eqn:Hurl; simpl in H;
    [|inversion H; subst; discriminate].
  destruct (getVideoInfo sv _) as [metadata|] eqn:Hcall; simpl in H;
    [|inversion H; subst; discriminate].
  destruct (parse_metadata rt metadata) as [playlistData|] eqn:Hparse; simpl in H;
    [|inversion H; subst; discriminate].
  destruct (get playlistData "entries") as [entries|] eqn:He; simpl in H;
    [|inversion H; subst; discriminate].
  destruct (Server.map_entries rt (or entries (VArr []))) as [videos|] eqn:Hmap;
    simpl in H; [|inversion H; subst; discriminate].
  destruct (get playlistData "title") as [title|] eqn:Ht; simpl in H;
    [|inversion H; subst; discriminate].
  inversion H; subst.
  unfold Server.map_entries, rbind, call_map in Hmap.
  destruct (or entries (VArr [])) as [| | | | |items| |] eqn:Hitems; try discriminate.
  destruct (map_result (Server.map_entry rt) items) as [mapped|] eqn:E; [|discriminate].
  inversion Hmap; subst.
  exists playlistUrl, metadata, playlistData, title, entries, items, mapped.
  repeat split; try assumption; try reflexivity.
  apply map_result_pairs, E.
Qed.

Lemma server_playlist_info_run (rt : Runtime) (sv : Services) (req : request)
    (r : response) :
  fst (run (Server.playlist_info rt sv req)) = Ok r ->
  status r = 200%Z ->
  exists playlistUrl metadata playlistData title description thumb count counted,
    playlist_url rt (query_param req "playlistId") = Ok playlistUrl
    /\ getVideoInfo sv [playlistUrl; "--flat-playlist"; "--dump-single-json"]
       = Ok metadata
    /\ parse_metadata rt metadata = Ok playlistData
    /\ get playlistData "title" = Ok title
    /\ get playlistData "description" = Ok description
    /\ Server.playlist_thumbnail rt playlistData = Ok thumb
    /\ get playlistData "playlist_count" = Ok count
    /\ or_else count
         (rbind (get playlistData "entries")
            (fun entries => if truthy entries then get entries "length" else Ok (num 0)))
       = Ok counted
    /\ r = mkResponse 200
             (VObj [("id", query_param req "playlistId");
                    ("title", or title (VStr "Unknown Playlist"));
                    ("description", or description (VStr ""));
                    ("thumbnailUrl", thumb);
                    ("itemCount", counted)]).
Proof.
  unfold Server.playlist_info, run, try_catch, bind, perform, lift, ret.
  intros H H200. simpl in H.
  destruct (truthy (query_param req "playlistId")); simpl in H;
    [|inversion H; subst; discriminate].
  destruct (playlist_url rt _) as [playlistUrl|] eqn:Hurl; simpl in H;
    [|inversion H; subst; discriminate].
  destruct (getVideoInfo sv _) as [metadata|] eqn:Hcall; simpl in H;
    [|inversion H; subst; discriminate].
  destruct (parse_metadata rt metadata) as [playlistData|] eqn:Hparse; simpl in H;
    [|inversion H; subst; discriminate].
  destruct (get playlistData "title") as [title|] eqn:Ht; simpl in H;
    [|inversion H; subst; discriminate].
  destruct (get playlistData "description") as [description|] eqn:Hdesc; simpl in H;
    [|inversion H; subst; discriminate].
  destruct (Server.playlist_thumbnail rt playlistData) as [thumb|] eqn:Hthumb;
    simpl in H; [|inversion H; subst; discriminate].
  destruct (get playlistData "playlist_count") as [count|] eqn:Hcount; simpl in H;
    [|inversion H; subst; discriminate].
  destruct (or_else count _) as [counted|] eqn:Hcounted; simpl in H;
    [|inversion H; subst; discriminate].
  inversion H; subst.
  exists playlistUrl, metadata, playlistData, title, description, thumb, count, counted.
  repeat split; assumption.
Qed.

(** C2, amended: every successful answer of [src/server.js] is built from
    the document the extractor returned for the request, and each field
    with a default is the document's value when that is truthy and the
    default otherwise, so it always has a value: of [/api/playlist-info],
    [title] (default [Unknown Playlist]) and [description] (the empty
    string); of [/api/playlist-videos], [title] (the empty string) and, in
    each entry, [title] ([Unknown]), [author] (the first truthy of
    [uploader], [channel] and [uploader_id], or [Unknown]), [duration]
    (zero) and [thumbnailUrl] (the entry's [thumbnail], else the [url] of
    its first thumbnail, else the empty string); of [/api/download-info],
    [author] ([uploader], else [channel], else [Unknown]) and
    [lengthSeconds] (zero).  In the summary of [/api/playlist-info],
    [thumbnailUrl] is the empty string when the document has no thumbnails
    and the [url] of the last one when that is truthy, and [itemCount] is
    [playlist_count] when truthy, otherwise the number of entries, and zero
    when the document has no entries either.  The [title] of
    [/api/download-info] and the [id] of an entry have no default: they are
    what the extractor reported, and are undefined when it reported
    nothing. *)
Theorem C2_defaults (rt : Runtime) (sv : Services) :
  (forall req r,
      fst (run (Server.download_info rt sv req)) = Ok r ->
      status r = 200%Z ->
      exists videoUrl metadata info title uploader channel duration,
        watch_url rt (query_param req "videoId") = Ok videoUrl
        /\ getVideoInfo sv [videoUrl; "--dump-json"] = Ok metadata
        /\ parse_metadata rt metadata = Ok info
        /\ get info "title" = Ok title
        /\ get info "uploader" = Ok uploader
        /\ get info "channel" = Ok channel
        /\ get info "duration" = Ok duration
        /\ field r "title" = title
        /\ field r "author" = or (or uploader channel) (VStr "Unknown")
        /\ field r "lengthSeconds" = or duration (num 0)
        /\ defined (field r "author") = true
        /\ defined (field r "lengthSeconds") = true)
  /\ (forall req r,
         fst (run (Server.playlist_videos rt sv req)) = Ok r ->
         status r = 200%Z ->
         exists playlistUrl metadata playlistData title entries items mapped,
           playlist_url rt (query_param req "playlistId") = Ok playlistUrl
           /\ getVideoInfo sv [playlistUrl; "--flat-playlist"; "--dump-single-json"]
              = Ok metadata
           /\ parse_metadata rt metadata = Ok playlistData
           /\ get playlistData "title" = Ok title
           /\ get playlistData "entries" = Ok entries
           /\ or entries (VArr []) = VArr items
           /\ Forall2 (fun entry video => Server.map_entry rt entry = Ok video)
                items mapped
           /\ field r "title" = or title (VStr "")
           /\ field r "videos" = VArr (List.filter not_null mapped)
           /\ defined (field r "title") = true
           /\ Forall (fun v => entry_complete v = true) (List.filter not_null mapped))
  /\ (forall props fields,
         Server.map_entry rt (VObj props) = Ok (VObj fields) ->
         lookup_prop "id" fields = lookup_prop "id" props
         /\ lookup_prop "title" fields = or (lookup_prop "title" props) (VStr "Unknown")
         /\ lookup_prop "author" fields
            = or (or (or (lookup_prop "uploader" props) (lookup_prop "channel" props))
                     (lookup_prop "uploader_id" props))
                 (VStr "Unknown")
         /\ lookup_prop "duration" fields = or (lookup_prop "duration" props) (num 0)
         /\ (truthy (lookup_prop "thumbnail" props) = true ->
             lookup_prop "thumbnailUrl" fields = lookup_prop "thumbnail" props)
         /\ (truthy (lookup_prop "thumbnail" props) = false ->
             truthy (lookup_prop "thumbnails" props) = false ->
             lookup_prop "thumbnailUrl" fields = VStr "")
         /\ (truthy (lookup_prop "thumbnail" props) = false ->
             forall items,
               lookup_prop "thumbnails" props = VArr items ->
               match items with
               | [] => lookup_prop "thumbnailUrl" fields = VStr ""
               | first :: _ =>
                   exists url,
                     get first "url" = Ok url
                     /\ lookup_prop "thumbnailUrl" fields = or url (VStr "")
               end)
         /\ defined (lookup_prop "thumbnailUrl" fields) = true)
  /\ (forall req r,
         fst (run (Server.playlist_info rt sv req)) = Ok r ->
         status r = 200%Z ->
         exists playlistUrl metadata playlistData title description thumbnails count,
           playlist_url rt (query_param req "playlistId") = Ok playlistUrl
           /\ getVideoInfo sv [playlistUrl; "--flat-playlist"; "--dump-single-json"]
              = Ok metadata
           /\ parse_metadata rt metadata = Ok playlistData
           /\ get playlistData "title" = Ok title
           /\ get playlistData "description" = Ok description
           /\ get playlistData "thumbnails" = Ok thumbnails
           /\ get playlistData "playlist_count" = Ok count
           /\ field r "title" = or title (VStr "Unknown Playlist")
           /\ field r "description" = or description (VStr "")
           /\ defined (field r "title") = true
           /\ defined (field r "description") = true
           /\ (truthy thumbnails = false \/ thumbnails = VArr [] ->
               field r "thumbnailUrl" = VStr "")
           /\ (forall items url,
                  thumbnails = VArr items -> items <> [] ->
                  get (List.last items VUndefined) "url" = Ok url ->
                  truthy url = true ->
                  field r "thumbnailUrl" = url)
           /\ (truthy count = true -> field r "itemCount" = count)
           /\ (truthy count = false ->
               forall items,
                 get playlistData "entries" = Ok (VArr items) ->
                 field r "itemCount" = num (Z.of_nat (List.length items)))
           /\ (truthy count = false ->
               forall entries,
                 get playlistData "entries" = Ok entries ->
                 truthy entries = false ->
                 field r "itemCount" = num 0)).
Proof.
  split; [|split; [|split]].
  - intros req r H H200.
    apply server_download_info_run in H
      as (url & metadata & info & title & up & ch & d
          & Hurl & Hcall & Hparse & Ht & Hup & Hch & Hd & ->); [|assumption].
    exists url, metadata, info, title, up, ch, d.
    repeat split; try assumption; apply or_defined; reflexivity.
  - intros req r H H200.
    apply server_playlist_videos_run in H
      as (url & metadata & pd & title & entries & items & mapped
          & Hurl & Hcall & Hparse & Ht & He & Hitems & Hmap & ->); [|assumption].
    exists url, metadata, pd, title, entries, items, mapped.
    repeat split; try assumption; try (apply or_defined; reflexivity).
    clear -Hmap. induction Hmap as [|x y xs ys Hxy _ IH]; simpl; [constructor|].
    destruct (not_null y) eqn:Hn; [|exact IH]. constructor; [|exact IH].
    apply map_entry_fields in Hxy
      as [-> | (id & t & up & ch & uid & d & th & _ & _ & _ & _ & _ & _ & Hth & ->)];
      [discriminate|].
    simpl. rewrite (entry_thumbnail_defined _ _ _ Hth).
    rewrite !or_defined; reflexivity.
  - intros props fields H.
    apply map_entry_fields in H
      as [H | (id & title & up & ch & uid & d & th
               & Hid & Ht & Hup & Hch & Huid & Hd & Hth & H)];
      [discriminate|].
    rewrite get_object in Hid, Ht, Hup, Hch, Huid, Hd.
    inversion Hid; inversion Ht; inversion Hup; inversion Hch; inversion Huid;
      inversion Hd.
    inversion H. subst. simpl.
    destruct (entry_thumbnail_object rt props th Hth) as (H1 & H2 & H3).
    split; [reflexivity|]. split; [reflexivity|]. split; [reflexivity|].
    split; [reflexivity|]. split; [exact H1|]. split; [exact H2|].
    split; [exact H3|]. apply (entry_thumbnail_defined _ _ _ Hth).
  - intros req r H H200.
    apply server_playlist_info_run in H
      as (url & metadata & pd & title & desc & thumb & count & counted
          & Hurl & Hcall & Hparse & Ht & Hdesc & Hthumb & Hcount & Hcounted & ->);
      [|assumption].
    destruct (get_total pd _ "title" "thumbnails" Ht) as [thumbnails Hths].
    destruct (playlist_thumbnail_cases rt pd thumbnails thumb Hths Hthumb)
      as [Hnone Hlast].
    exists url, metadata, pd, title, desc, thumbnails, count.
    split; [exact Hurl|]. split; [exact Hcall|]. split; [exact Hparse|].
    split; [exact Ht|]. split; [exact Hdesc|]. split; [exact Hths|].
    split; [exact Hcount|]. split; [reflexivity|]. split; [reflexivity|].
    split; [apply or_defined; reflexivity|].
    split; [apply or_defined; reflexivity|].
    split; [exact Hnone|].
    split; [intros items u Hi Hne Hu _; exact (Hlast items u Hi Hne Hu)|].
    unfold or_else, rbind in Hcounted. unfold field. simpl.
    split; [|split].
    + intros Hc. rewrite Hc in Hcounted. congruence.
    + intros Hc items He. rewrite Hc, He in Hcounted. simpl in Hcounted. congruence.
    + intros Hc entries He Hf. rewrite Hc, He, Hf in Hcounted. congruence.
Qed.

Lemma C2_defaults_witness :
  exists videoUrl metadata info title uploader channel duration,
    watch_url Json.runtime (query_param Scenario.video_request "videoId") = Ok videoUrl
    /\ getVideoInfo (Scenario.extractor_returns (VObj [])) [videoUrl; "--dump-json"]
       = Ok metadata
    /\ parse_metadata Json.runtime metadata = Ok info
    /\ get info "title" = Ok title
    /\ get info "uploader" = Ok uploader
    /\ get info "channel" = Ok channel
    /\ get info "duration" = Ok duration
    /\ field Scenario.bare_answer "title" = title
    /\ field Scenario.bare_answer "author" = or (or uploader channel) (VStr "Unknown")
    /\ field Scenario.bare_answer "lengthSeconds" = or duration (num 0)
    /\ defined (field Scenario.bare_answer "author") = true
    /\ defined (field Scenario.bare_answer "lengthSeconds") = true.
Proof.
  exact (proj1 (C2_defaults Json.runtime (Scenario.extractor_returns (VObj [])))
           Scenario.video_request Scenario.bare_answer eq_refl eq_refl).
Defined.

(** ** Payloads with one document per line *)

(** C3, as stated, fails: given the extractor's output with one document
    per line, [/api/playlist-videos] of [src/server.js] and of
    [src/unnamed/part_000] answers 500 with the parse error; there is no
    second, per-line attempt.  Nor does [src/server.js] accept the lines
    already gathered in an array: an array's [entries] is a method, not a
    list. *)
Lemma C3_no_line_fallback :
  fst (run (Server.playlist_videos Json.runtime
              (Scenario.extractor_returns (VStr Scenario.ndjson))
              Scenario.playlist_request))
  = Ok (mkResponse 500
          (VObj [("error", VStr "Failed to fetch playlist videos");
                 ("message", VStr "Unexpected non-whitespace character after JSON")]))
  /\ fst (run (Hybrid.playlist_videos Json.runtime
                 (Scenario.extractor_returns (VStr Scenario.ndjson))
                 Scenario.playlist_request))
     = Ok (mkResponse 500
             (VObj [("error", VStr "Failed to fetch playlist videos");
                    ("message", VStr "Unexpected non-whitespace character after JSON")]))
  /\ fst (run (Server.playlist_videos Json.runtime
                 (Scenario.extractor_returns
                    (VArr [VObj [("_type", VStr "url"); ("id", VStr "a")];
                           VObj [("_type", VStr "url"); ("id", VStr "b")]]))
                 Scenario.playlist_request))
     = Ok (mkResponse 500
             (VObj [("error", VStr "Failed to fetch playlist videos");
                    ("message", VStr "entries.map is not a function")])).
Proof. repeat split; vm_compute; reflexivity. Qed.

Lemma not_null_iff (v : value) : not_null v = true <-> v <> VNull.
Proof. destruct v; simpl; split; congruence. Qed.

Lemma map_line_unparsable (rt : Runtime) (line : string) (e : js_error) :
  JSON_parse rt line = Throw e -> LineDraft.map_line rt line = VNull.
Proof. intros H. unfold LineDraft.map_line, rbind. now rewrite H. Qed.

Lemma map_line_object (rt : Runtime) (line : string) (props : list (string * value)) :
  JSON_parse rt line = Ok (VObj props) ->
  LineDraft.map_line rt line
  = VObj [("id", lookup_prop "id" props);
          ("title", or (lookup_prop "title" props) (VStr "Unknown"));
          ("author", or (or (lookup_prop "uploader" props) (lookup_prop "channel" props))
                        (VStr "Unknown"));
          ("duration", or (lookup_prop "duration" props) (num 0));
          ("thumbnailUrl", or (lookup_prop "thumbnail" props) (VStr ""))].
Proof. intros H. unfold LineDraft.map_line, rbind. now rewrite H. Qed.

Lemma videos_of_lines_spec (rt : Runtime) (lines : list string) (v : value) :
  In v (LineDraft.videos_of_lines rt lines)
  <-> v <> VNull /\ exists line, In line (List.tl lines) /\ LineDraft.map_line rt line = v.
Proof.
  unfold LineDraft.videos_of_lines.
  rewrite filter_In, in_map_iff, not_null_iff.
  split.
  - intros [(line & Hv & Hin) Hn]. split; [exact Hn|]. exists line. auto.
  - intros [Hn (line & Hin & Hv)]. split; [|exact Hn]. exists line. auto.
Qed.

(** C3, amended: [/api/playlist-videos] of [src/server.js] and of
    [src/unnamed/part_000] parses a string payload as one JSON document
    only, and answers 500 with the parse error's message when that fails.
    The older draft [src/unnamed/part_002] parses a string payload line by
    line only: it drops the blank lines and the first of the others, skips
    every line that does not parse, and answers 200 with the entries of the
    lines that do. *)
Theorem C3_payload_parsing (rt : Runtime) (sv : Services) :
  (forall req playlistUrl text e,
      truthy (query_param req "playlistId") = true ->
      playlist_url rt (query_param req "playlistId") = Ok playlistUrl ->
      getVideoInfo sv [playlistUrl; "--flat-playlist"; "--dump-single-json"]
      = Ok (VStr text) ->
      JSON_parse rt text = Throw e ->
      fst (run (Server.playlist_videos rt sv req))
      = Ok (Server.server_error "Failed to fetch playlist videos" e)
      /\ fst (run (Hybrid.playlist_videos rt sv req))
         = Ok (Server.server_error "Failed to fetch playlist videos" e))
  /\ (forall req playlistUrl text,
         truthy (query_param req "playlistId") = true ->
         playlist_url rt (query_param req "playlistId") = Ok playlistUrl ->
         getVideoInfo sv [playlistUrl; "--flat-playlist"; "--dump-json"]
         = Ok (VStr text) ->
         fst (run (LineDraft.playlist_videos rt sv req))
         = Ok (Server.videos_response (query_param req "playlistId") (VStr "")
                 (LineDraft.videos_of_lines rt
                    (List.filter trim_truthy (split_on LineDraft.newline text)))))
  /\ (forall lines v,
         In v (LineDraft.videos_of_lines rt lines)
         <-> v <> VNull
             /\ exists line, In line (List.tl lines) /\ LineDraft.map_line rt line = v)
  /\ (forall line e,
         JSON_parse rt line = Throw e -> LineDraft.map_line rt line = VNull)
  /\ (forall line props,
         JSON_parse rt line = Ok (VObj props) ->
         LineDraft.map_line rt line
         = VObj [("id", lookup_prop "id" props);
                 ("title", or (lookup_prop "title" props) (VStr "Unknown"));
                 ("author", or (or (lookup_prop "uploader" props)
                                   (lookup_prop "channel" props))
                               (VStr "Unknown"));
                 ("duration", or (lookup_prop "duration" props) (num 0));
                 ("thumbnailUrl", or (lookup_prop "thumbnail" props) (VStr ""))]).
Proof.
  split; [|split; [|split; [|split]]].
  - intros req playlistUrl text e Hid Hurl Hcall Hparse. split.
    + unfold Server.playlist_videos, run, try_catch, bind, perform, lift, ret.
      rewrite Hid. simpl. rewrite Hurl. simpl. rewrite Hcall. simpl.
      rewrite Hparse. reflexivity.
    + unfold Hybrid.playlist_videos, run, try_catch, bind, perform, lift, ret.
      rewrite Hid. simpl. rewrite Hurl. simpl. rewrite Hcall. simpl.
      rewrite Hparse. reflexivity.
  - intros req playlistUrl text Hid Hurl Hcall.
    unfold LineDraft.playlist_videos, run, try_catch, bind, perform, lift, ret.
    rewrite Hid. simpl. rewrite Hurl. simpl. rewrite Hcall. reflexivity.
  - apply videos_of_lines_spec.
  - apply map_line_unparsable.
  - apply map_line_object.
Qed.

Lemma C3_payload_parsing_witness :
  fst (run (LineDraft.playlist_videos Json.runtime
              (Scenario.extractor_returns (VStr Scenario.ndjson))
              Scenario.playlist_request))
  = Ok (Server.videos_response (VStr "PL1") (VStr "")
          [Scenario.line_entry "b" "Second song";
           Scenario.line_entry "c" "Third song"]).
Proof.
  exact (proj1 (proj2 (C3_payload_parsing Json.runtime
                         (Scenario.extractor_returns (VStr Scenario.ndjson))))
           Scenario.playlist_request "https://www.youtube.com/playlist?list=PL1"
           Scenario.ndjson eq_refl eq_refl eq_refl).
Defined.

(** ** The answer of [/api/download-info] *)

(** C7, as stated, fails twice.  In [src/server.js] the title is whatever
    the extractor reported: for a document without one the successful
    answer has no title.  In the ytdl-core draft [src/unnamed/part_001] the
    download URL is the media URL of the best audio format, the quality its
    bitrate and the format its MIME type. *)
Lemma C7_title_and_media_url :
  (exists r,
      fst (run (Server.download_info Json.runtime
                  (Scenario.extractor_returns
                     (VObj [("uploader", VStr "Rick Astley"); ("duration", num 212)]))
                  Scenario.video_request)) = Ok r
      /\ status r = 200%Z
      /\ field r "title" = VUndefined
      /\ download_info_claim "https://www.youtube.com/watch?v=dQw4w9WgXcQ" r = false)
  /\ (exists r,
         fst (run (YtdlDraft.download_info Json.runtime Scenario.ytdl_library
                     Scenario.video_request)) = Ok r
         /\ status r = 200%Z
         /\ field r "downloadUrl"
            = VStr "https://rr1.googlevideo.com/videoplayback?itag=251"
         /\ field r "quality" = num 160
         /\ field r "format" = VStr "audio/webm"
         /\ download_info_claim "https://www.youtube.com/watch?v=dQw4w9WgXcQ" r = false).
Proof.
  split; eexists; repeat split.
Qed.

Lemma is_str_refl (s : string) : is_str (VStr s) s = true.
Proof. apply String.eqb_refl. Qed.

Lemma duration_default (duration : value) :
  nullish duration = true \/ nonneg_number duration = true ->
  nonneg_number (or duration (num 0)) = true.
Proof.
  intros [H | H]; destruct duration; try discriminate; try reflexivity.
  unfold or. simpl in *. destruct (Qnum q =? 0)%Z; [reflexivity | exact H].
Qed.

(** C7, amended: in [src/server.js], whenever the watch URL is built from
    the video id (from any string it is) and the extractor resolves it to a
    document, [/api/download-info] answers 200 with the
    document's title as it is, its duration or 0 as [lengthSeconds], the
    watch URL [https://www.youtube.com/watch?v=<id>] as [downloadUrl],
    quality [best] and format [audio/mp4]; so the title is a non-empty
    string and [lengthSeconds] a number at least 0 whenever the extractor
    reports a non-empty title and a duration that is absent or a number at
    least 0. *)
Theorem C7_download_info (rt : Runtime) (sv : Services) (req : request)
    (videoUrl : string) (metadata info title duration : value) :
  truthy (query_param req "videoId") = true ->
  watch_url rt (query_param req "videoId") = Ok videoUrl ->
  getVideoInfo sv [videoUrl; "--dump-json"] = Ok metadata ->
  parse_metadata rt metadata = Ok info ->
  get info "title" = Ok title ->
  get info "duration" = Ok duration ->
  exists r,
    run (Server.download_info rt sv req)
    = (Ok r, mkState [CallGetVideoInfo [videoUrl; "--dump-json"]] [])
    /\ status r = 200%Z
    /\ field r "title" = title
    /\ field r "lengthSeconds" = or duration (num 0)
    /\ field r "downloadUrl" = VStr videoUrl
    /\ field r "quality" = VStr "best"
    /\ field r "format" = VStr "audio/mp4"
    /\ (forall id,
           query_param req "videoId" = VStr id ->
           videoUrl = ("https://www.youtube.com/watch?v=" ++ id)%string)
    /\ (nonempty_string title = true ->
        nullish duration = true \/ nonneg_number duration = true ->
        download_info_claim videoUrl r = true).
Proof.
  intros Hid Hurl Hcall Hparse Htitle Hduration.
  destruct (get_total info _ "title" "uploader" Htitle) as [u Hu].
  destruct (get_total info _ "title" "channel" Htitle) as [c Hc].
  assert (Hstring : forall id,
             query_param req "videoId" = VStr id ->
             videoUrl = ("https://www.youtube.com/watch?v=" ++ id)%string).
  { intros id Hq. rewrite Hq in Hurl. inversion Hurl. reflexivity. }
  unfold Server.download_info, run, try_catch, bind, perform, lift, ret, rbind, or_else.
  rewrite Hid. simpl. rewrite Hurl. simpl. rewrite Hcall, Hparse, Htitle, Hu, Hduration.
  assert (Hclaim : forall author,
             nonempty_string title = true ->
             nullish duration = true \/ nonneg_number duration = true ->
             download_info_claim videoUrl
               (mkResponse 200
                  (VObj [("videoId", query_param req "videoId");
                         ("title", title);
                         ("author", author);
                         ("lengthSeconds", or duration (num 0));
                         ("downloadUrl", VStr videoUrl);
                         ("quality", VStr "best");
                         ("format", VStr "audio/mp4")])) = true).
  { intros author Ht Hd. apply duration_default in Hd.
    unfold download_info_claim, field.
    cbn [body lookup_prop String.eqb Ascii.eqb Bool.eqb].
    rewrite Ht, Hd, is_str_refl. reflexivity. }
  destruct (truthy u); [|rewrite Hc]; eexists;
    (split; [reflexivity|]); repeat (split; [reflexivity|]);
    (split; [exact Hstring | apply Hclaim]).
Qed.

Lemma C7_download_info_witness :
  exists r,
    run (Server.download_info Json.runtime Scenario.breaking_stream Scenario.video_request)
    = (Ok r, mkState [CallGetVideoInfo ["https://www.youtube.com/watch?v=dQw4w9WgXcQ";
                                        "--dump-json"]] [])
    /\ status r = 200%Z
    /\ field r "title" = VStr "Never Gonna Give You Up (Official Video)"
    /\ field r "lengthSeconds" = or (num 212) (num 0)
    /\ field r "downloadUrl" = VStr "https://www.youtube.com/watch?v=dQw4w9WgXcQ"
    /\ field r "quality" = VStr "best"
    /\ field r "format" = VStr "audio/mp4"
    /\ (forall id,
           query_param Scenario.video_request "videoId" = VStr id ->
           "https://www.youtube.com/watch?v=dQw4w9WgXcQ"
           = ("https://www.youtube.com/watch?v=" ++ id)%string)
    /\ (nonempty_string (VStr "Never Gonna Give You Up (Official Video)") = true ->
        nullish (num 212) = true \/ nonneg_number (num 212) = true ->
        download_info_claim "https://www.youtube.com/watch?v=dQw4w9WgXcQ" r = true).
Proof.
  exact (C7_download_info Json.runtime Scenario.breaking_stream Scenario.video_request
           "https://www.youtube.com/watch?v=dQw4w9WgXcQ"
           Scenario.video_document Scenario.video_document
           (VStr "Never Gonna Give You Up (Official Video)") (num 212)
           eq_refl eq_refl eq_refl eq_refl eq_refl eq_refl).
Defined.

(* ===================================================================== *)
(** * Further properties of the code                                      *)
(* ===================================================================== *)

Import Notions.

(** ** Strings *)

Lemma sanitize_char_fixed (c : ascii) :
  sanitize_char (sanitize_char c) = sanitize_char c.
Proof.
  destruct c as [[] [] [] [] [] [] [] []]; reflexivity.
Qed.

Lemma map_string_compose (f g : ascii -> ascii) (s : string) :
  map_string f (map_string g s) = map_string (fun c => f (g c)) s.
Proof. induction s as [|c rest IH]; simpl; congruence. Qed.

Lemma map_string_ext (f g : ascii -> ascii) (s : string) :
  (forall c, f c = g c) -> map_string f s = map_string g s.
Proof. intros H. induction s as [|c rest IH]; simpl; congruence. Qed.

(** X1: sanitizing a title twice gives what sanitizing it once gives: a
    file name built by [/api/download] is its own sanitization. *)
Theorem X1_sanitize_idempotent (title : string) :
  sanitize (sanitize title) = sanitize title.
Proof.
  rewrite !sanitize_pointwise, map_string_compose.
  apply map_string_ext. intros c. apply sanitize_char_fixed.
Qed.

(** X2: the file name does not depend on the case of the ASCII letters of
    the title: two titles that differ only there get the same name. *)
Theorem X2_sanitize_ignores_case (t1 t2 : string) :
  fold_ascii_case t1 = fold_ascii_case t2 -> sanitize t1 = sanitize t2.
Proof.
  intros H.
  assert (Hfold : forall t, sanitize (fold_ascii_case t) = sanitize t).
  { intros t. rewrite !sanitize_pointwise. unfold fold_ascii_case.
    rewrite map_string_compose. apply map_string_ext.
    intros c. destruct c as [[] [] [] [] [] [] [] []]; reflexivity. }
  rewrite <- (Hfold t1), <- (Hfold t2), H. reflexivity.
Qed.

Lemma X2_sanitize_ignores_case_witness :
  sanitize "Road Trip" = sanitize "ROAD TRIP".
Proof. exact (X2_sanitize_ignores_case "Road Trip" "ROAD TRIP" eq_refl). Defined.

Lemma split_on_nonempty (sep : ascii) (s : string) : split_on sep s <> [].
Proof.
  destruct s as [|c rest]; simpl; [discriminate|].
  destruct (Ascii.eqb c sep); [discriminate|].
  destruct (split_on sep rest); discriminate.
Qed.

Lemma join_cons_char (sep c : ascii) (piece : string) (pieces : list string) :
  join sep (String c piece :: pieces) = String c (join sep (piece :: pieces)).
Proof. destruct pieces; reflexivity. Qed.

(** Splitting a string at a separator loses nothing: the pieces, joined
    with the separator, are the string again, and no piece holds the
    separator. *)
Lemma split_on_spec (sep : ascii) (s : string) :
  join sep (split_on sep s) = s
  /\ Forall (fun piece => free_of sep piece = true) (split_on sep s).
Proof.
  induction s as [|c rest [IHj IHf]]; simpl.
  - split; [reflexivity | repeat constructor].
  - destruct (Ascii.eqb c sep) eqn:E.
    + apply Ascii.eqb_eq in E. subst c. split.
      * pose proof (split_on_nonempty sep rest) as Hne.
        destruct (split_on sep rest) as [|p ps]; [contradiction|].
        simpl in *. now rewrite IHj.
      * constructor; [reflexivity | exact IHf].
    + pose proof (split_on_nonempty sep rest) as Hne.
      destruct (split_on sep rest) as [|p ps]; [contradiction|]. split.
      * rewrite join_cons_char, IHj. reflexivity.
      * inversion IHf; subst. constructor; [|assumption].
        unfold free_of in *. simpl. now rewrite E.
Qed.

Lemma split_on_head (sep : ascii) (a b : string) :
  free_of sep a = true ->
  hd EmptyString (split_on sep (a ++ String sep b)) = a.
Proof.
  unfold free_of.
  induction a as [|c rest IH]; intros H.
  - change (EmptyString ++ String sep b)%string with (String sep b).
    cbn [split_on]. now rewrite Ascii.eqb_refl.
  - change (String c rest ++ String sep b)%string
      with (String c (rest ++ String sep b)%string).
    cbn [split_on forall_string] in *.
    apply andb_true_iff in H as [Hc Hrest]. apply negb_true_iff in Hc.
    rewrite Hc. specialize (IH Hrest).
    pose proof (split_on_nonempty sep (rest ++ String sep b)) as Hne.
    destruct (split_on sep (rest ++ String sep b)) as [|p ps]; [contradiction|].
    cbn [hd] in *. now rewrite IH.
Qed.

Lemma free_of_app_sep (sep : ascii) (a b : string) :
  free_of sep (a ++ String sep b) = false.
Proof.
  unfold free_of. induction a as [|c rest IH].
  - change (EmptyString ++ String sep b)%string with (String sep b).
    cbn [forall_string]. now rewrite Ascii.eqb_refl.
  - change (String c rest ++ String sep b)%string
      with (String c (rest ++ String sep b)%string).
    cbn [forall_string]. rewrite IH. apply andb_false_r.
Qed.

(** ** The per-line draft, [src/unnamed/part_002] *)

(** X3: [/api/playlist-info] of the per-line draft reads the first line of
    a string payload and nothing else: whatever follows the first line
    break does not change the answer. *)
Theorem X3_first_line_only (rt : Runtime) (sv sv' : Services) (req : request)
    (playlistUrl line tail : string) :
  free_of LineDraft.newline line = true ->
  playlist_url rt (query_param req "playlistId") = Ok playlistUrl ->
  getVideoInfo sv [playlistUrl; "--flat-playlist"; "--dump-json"]
    = Ok (VStr (line ++ String LineDraft.newline tail)) ->
  getVideoInfo sv' [playlistUrl; "--flat-playlist"; "--dump-json"]
    = Ok (VStr line) ->
  run (LineDraft.playlist_info rt sv req) = run (LineDraft.playlist_info rt sv' req).
Proof.
  intros Hfree Hurl Hsv Hsv'.
  unfold LineDraft.playlist_info, run, try_catch, bind, perform, lift, ret.
  destruct (negb (truthy (query_param req "playlistId"))); [reflexivity|].
  simpl. rewrite Hurl. simpl. rewrite Hsv, Hsv'. unfold LineDraft.parse_first_line.
  rewrite (split_on_head _ _ _ Hfree).
  assert (Hline : hd EmptyString (split_on LineDraft.newline line) = line).
  { pose proof (split_on_spec LineDraft.newline line) as [Hj Hf].
    pose proof (split_on_nonempty LineDraft.newline line) as Hne.
    destruct (split_on LineDraft.newline line) as [|p [|p' ps]]; [contradiction| |].
    - exact Hj.
    - exfalso. cbn [join] in Hj. rewrite <- Hj, free_of_app_sep in Hfree.
      discriminate. }
  rewrite Hline. reflexivity.
Qed.

Lemma X3_first_line_only_witness :
  run (LineDraft.playlist_info Json.runtime
         (Scenario.extractor_returns (VStr Scenario.ndjson)) Scenario.playlist_request)
  = run (LineDraft.playlist_info Json.runtime
           (Scenario.extractor_returns
              (VStr (Scenario.entry_line "a" "First song")))
           Scenario.playlist_request).
Proof.
  exact (X3_first_line_only Json.runtime
           (Scenario.extractor_returns (VStr Scenario.ndjson))
           (Scenario.extractor_returns (VStr (Scenario.entry_line "a" "First song")))
           Scenario.playlist_request
           "https://www.youtube.com/playlist?list=PL1"
           (Scenario.entry_line "a" "First song")
           (Scenario.entry_line "b" "Second song" ++ Scenario.line_break
            ++ "{" ++ Scenario.quoted "id" ++ Scenario.line_break
            ++ Scenario.entry_line "c" "Third song" ++ Scenario.line_break)
           eq_refl eq_refl eq_refl eq_refl).
Defined.

(** X4: [/api/playlist-videos] of the per-line draft never lists the first
    non-blank line and lists the others: the videos do not depend on what
    the first line holds, a single line gives no video, and when every
    later line is a JSON object the videos are the entries of those lines,
    one for each and in their order. *)
Theorem X4_first_line_dropped (rt : Runtime) (first : string) (rest : list string) :
  (forall other,
      LineDraft.videos_of_lines rt (first :: rest)
      = LineDraft.videos_of_lines rt (other :: rest))
  /\ LineDraft.videos_of_lines rt [first] = []
  /\ (Forall (fun line => exists props, JSON_parse rt line = Ok (VObj props)) rest ->
      LineDraft.videos_of_lines rt (first :: rest)
      = List.map (LineDraft.map_line rt) rest
      /\ List.length (LineDraft.videos_of_lines rt (first :: rest)) = List.length rest).
Proof.
  split; [reflexivity|]. split; [reflexivity|].
  intros Hall.
  assert (Hvideos : LineDraft.videos_of_lines rt (first :: rest)
                    = List.map (LineDraft.map_line rt) rest).
  { unfold LineDraft.videos_of_lines. cbn [List.tl].
    induction Hall as [|line lines (props & Hline) _ IH]; [reflexivity|].
    cbn [List.map List.filter]. rewrite (map_line_object rt line props Hline).
    cbn [not_null]. now rewrite IH. }
  split; [exact Hvideos|]. rewrite Hvideos. apply length_map.
Qed.

Lemma X4_first_line_dropped_witness :
  LineDraft.videos_of_lines Json.runtime
    [Scenario.entry_line "a" "First song";
     Scenario.entry_line "b" "Second song";
     Scenario.entry_line "c" "Third song"]
  = [Scenario.line_entry "b" "Second song"; Scenario.line_entry "c" "Third song"].
Proof.
  refine (proj1 (proj2 (proj2 (X4_first_line_dropped Json.runtime
                                 (Scenario.entry_line "a" "First song")
                                 [Scenario.entry_line "b" "Second song";
                                  Scenario.entry_line "c" "Third song"])) _)).
  repeat constructor; eexists; reflexivity.
Defined.

(** X5: [/api/playlist-videos] of the per-line draft needs the payload as
    text: when the extractor wrapper hands over anything else (a parsed
    document, an array), the answer is a 500. *)
Theorem X5_line_draft_needs_text (rt : Runtime) (sv : Services) (req : request)
    (playlistUrl : string) (metadata : value) :
  truthy (query_param req "playlistId") = true ->
  playlist_url rt (query_param req "playlistId") = Ok playlistUrl ->
  getVideoInfo sv [playlistUrl; "--flat-playlist"; "--dump-json"] = Ok metadata ->
  (forall text, metadata <> VStr text) ->
  exists r,
    fst (run (LineDraft.playlist_videos rt sv req)) = Ok r
    /\ status r = 500%Z
    /\ field r "error" = VStr "Failed to fetch playlist videos".
Proof.
  intros Hid Hurl Hcall Hnot.
  unfold LineDraft.playlist_videos, run, try_catch, bind, perform, lift, ret.
  rewrite Hid. simpl. rewrite Hurl. simpl. rewrite Hcall.
  destruct metadata; try (exfalso; eapply Hnot; reflexivity);
    simpl; eexists; repeat split.
Qed.

Lemma X5_line_draft_needs_text_witness :
  exists r,
    fst (run (LineDraft.playlist_videos Json.runtime
                (Scenario.extractor_returns Scenario.short_playlist)
                Scenario.playlist_request)) = Ok r
    /\ status r = 500%Z
    /\ field r "error" = VStr "Failed to fetch playlist videos".
Proof.
  apply (X5_line_draft_needs_text Json.runtime
           (Scenario.extractor_returns Scenario.short_playlist)
           Scenario.playlist_request "https://www.youtube.com/playlist?list=PL1"
           Scenario.short_playlist eq_refl eq_refl eq_refl).
  intros text. discriminate.
Defined.

(** ** The routes of [src/server.js]: failures and outbound calls *)

(** Case analysis on every scrutinee of the goal that is not itself a
    case analysis. *)
Ltac case_goal :=
  repeat match goal with
         | |- context [match ?x with _ => _ end] =>
             lazymatch x with
             | match _ with _ => _ end => fail
             | (match _ with _ => _ end) _ => fail
             | _ => destruct x eqn:?; simpl
             end
         end.

(** X6: on each of the four routes of [src/server.js], when the address
    is built from the parameter and the metadata cannot be had (the
    extractor call is rejected, or its text output does not parse), the
    answer is a 500 with the route's own error text and the message of that
    failure; the extractor was called once, and on the streaming route no
    stream was opened. *)
Theorem X6_metadata_failure (rt : Runtime) (sv : Services) (r : route) (req : request)
    (url : string) (e : js_error) :
  truthy (query_param req (required r)) = true ->
  route_url rt r req = Ok url ->
  rbind (getVideoInfo sv (metadata_args r url)) (parse_metadata rt) = Throw e ->
  serve rt sv r req
  = (Some (Server.server_error (failure_text r) e),
     [CallGetVideoInfo (metadata_args r url)]).
Proof.
  intros Hid Hurl Hfail. unfold rbind in Hfail.
  destruct r; simpl in Hid, Hurl, Hfail |- *;
    unfold answer, run, Server.playlist_info, Server.playlist_videos,
      Server.download_info, Server.download_exchange, Server.download,
      Server.download_catch, Server.send_json, get_state, on_res,
      try_catch, bind, perform, lift, ret;
    rewrite Hid; simpl; rewrite Hurl; simpl;
    destruct (getVideoInfo sv _) as [metadata | e']; simpl;
    try rewrite Hfail; try (inversion Hfail; subst); reflexivity.
Qed.

Lemma X6_metadata_failure_witness :
  serve Json.runtime Scenario.offline Download Scenario.video_request
  = (Some (Server.server_error "Failed to download" Scenario.extractor_down),
     [CallGetVideoInfo ["https://www.youtube.com/watch?v=dQw4w9WgXcQ"; "--dump-json"]]).
Proof.
  exact (X6_metadata_failure Json.runtime Scenario.offline Download Scenario.video_request
           "https://www.youtube.com/watch?v=dQw4w9WgXcQ"
           Scenario.extractor_down eq_refl eq_refl eq_refl).
Defined.

(** The streaming handler when the address of the video cannot be built:
    a 500 before any call. *)
Lemma download_no_address (rt : Runtime) (sv : Services) (req : request)
    (e : js_error) :
  truthy (query_param req "videoId") = true ->
  watch_url rt (query_param req "videoId") = Throw e ->
  run (Server.download rt sv req)
  = (Ok [], mkState []
              [Status 500;
               Json (VObj [("error", VStr "Failed to download");
                           ("message", err_message e)])]).
Proof.
  intros Hid Hurl.
  unfold Server.download, Server.download_catch, Server.send_json, Server.setHeader,
    get_state, on_res, run, initial, try_catch, bind, perform, lift, ret.
  rewrite Hid. simpl. rewrite Hurl. reflexivity.
Qed.

(** The three ways the streaming handler can go once it has a video id:
    it fails before the headers, it fails to open the stream, or it hands
    the response over to the stream. *)
Lemma download_cases (rt : Runtime) (sv : Services) (req : request)
    (videoUrl : string) :
  truthy (query_param req "videoId") = true ->
  watch_url rt (query_param req "videoId") = Ok videoUrl ->
  let meta := CallGetVideoInfo [videoUrl; "--dump-json"] in
  let opening := CallExecStream [videoUrl; "-f"; "bestaudio"; "-o"; "-"] in
  (exists e,
      run (Server.download rt sv req)
      = (Ok [], mkState [meta]
                  [Status 500;
                   Json (VObj [("error", VStr "Failed to download");
                               ("message", err_message e)])]))
  \/ (exists t e,
         run (Server.download rt sv req)
         = (Ok [], mkState [meta; opening]
                     [SetHeader "Content-Disposition"
                        (Server.content_disposition (sanitize t));
                      SetHeader "Content-Type" "audio/mp4";
                      Status 500;
                      Json (VObj [("error", VStr "Failed to download");
                                  ("message", err_message e)])]))
  \/ (exists t events,
         run (Server.download rt sv req)
         = (Ok events, mkState [meta; opening]
                         [SetHeader "Content-Disposition"
                            (Server.content_disposition (sanitize t));
                          SetHeader "Content-Type" "audio/mp4"])).
Proof.
  intros Hid Hurl meta opening. subst meta opening.
  unfold Server.download, Server.download_catch, Server.send_json, Server.setHeader,
    get_state, on_res, run, initial, try_catch, bind, perform, lift, ret.
  rewrite Hid. simpl. rewrite Hurl. simpl.
  destruct (getVideoInfo sv _) as [metadata | e]; simpl; [|left; eauto].
  destruct (parse_metadata rt metadata) as [info | e]; simpl; [|left; eauto].
  destruct (get info "title") as [title | e]; simpl; [|left; eauto].
  destruct title; simpl; try (left; eexists (TypeError _); reflexivity).
  destruct (execStream sv _) as [events | e]; simpl; right; [right | left]; eauto.
Qed.

(** X7: a route of [src/server.js] makes no outbound call for a request
    without its parameter, nor for one whose parameter gives no address;
    otherwise it makes exactly one metadata call to the extractor, with
    that address; only the streaming route can make a second call, the
    opening of the stream at the same address, and it comes after the
    metadata call. *)
Theorem X7_outbound_calls (rt : Runtime) (sv : Services) (r : route) (req : request) :
  exists tail,
    snd (serve rt sv r req)
    = (if truthy (query_param req (required r)) then
         match route_url rt r req with
         | Ok url => CallGetVideoInfo (metadata_args r url) :: tail
         | Throw _ => []
         end
       else [])
    /\ (tail = []
        \/ r = Download
           /\ exists url,
                route_url rt r req = Ok url
                /\ tail = [CallExecStream [url; "-f"; "bestaudio"; "-o"; "-"]]).
Proof.
  destruct (truthy (query_param req (required r))) eqn:Hid.
  - destruct (route_url rt r req) as [url|e] eqn:Hurl.
    + destruct r; simpl in Hid, Hurl |- *.
      1-3: unfold answer, run, Server.playlist_info, Server.playlist_videos,
             Server.download_info, try_catch, bind, perform, lift, ret;
           rewrite Hid; simpl; rewrite Hurl; simpl; case_goal; eauto.
      unfold Server.download_exchange.
      destruct (download_cases rt sv req url Hid Hurl)
        as [(e & ->) | [(t & e & ->) | (t & events & ->)]]; simpl; eauto 8.
    + exists []. split; [|now left].
      destruct r; simpl in Hid, Hurl |- *.
      1-3: unfold answer, run, Server.playlist_info, Server.playlist_videos,
             Server.download_info, try_catch, bind, perform, lift, ret;
           rewrite Hid; simpl; rewrite Hurl; reflexivity.
      unfold Server.download_exchange.
      now rewrite (download_no_address rt sv req e Hid Hurl).
  - exists []. split; [|now left].
    destruct r; simpl in Hid |- *;
      unfold answer, run, Server.playlist_info, Server.playlist_videos,
        Server.download_info, Server.download_exchange, Server.download,
        Server.send_json, on_res, try_catch, bind, perform, lift, ret;
      rewrite Hid; reflexivity.
Qed.

(** ** The streaming route of [src/server.js]: what reaches the client *)

Lemma finished_headersSent (log : list res_op) :
  Server.finished log = true -> Server.headersSent log = true.
Proof.
  induction log as [|op rest IH]; simpl; [discriminate|].
  destruct op; simpl; auto.
Qed.

Lemma finished_app (l l' : list res_op) :
  Server.finished (l ++ l') = Server.finished l || Server.finished l'.
Proof. apply existsb_app. Qed.

(** Once the response is ended, no event does anything to it. *)
Lemma deliver_finished (events : list stream_event) (log : list res_op) :
  Server.finished log = true -> Server.deliver events log = log.
Proof.
  intros H. induction events as [|ev rest IH]; simpl; [reflexivity|].
  destruct ev; simpl; rewrite ?H, ?(finished_headersSent log H); exact IH.
Qed.

(** While it is not, every chunk of data is written. *)
Lemma deliver_data (chunks : list string) (later : list stream_event)
    (log : list res_op) :
  Server.finished log = false ->
  Server.deliver (List.map Data chunks ++ later) log
  = Server.deliver later (log ++ List.map Write chunks).
Proof.
  revert log. induction chunks as [|chunk rest IH]; intros log H; simpl.
  - now rewrite app_nil_r.
  - rewrite H. rewrite IH.
    + now rewrite <- app_assoc.
    + rewrite finished_app, H. reflexivity.
Qed.

Lemma finished_written (log : list res_op) (chunks : list string) :
  Server.finished (log ++ List.map Write chunks) = Server.finished log.
Proof.
  rewrite finished_app.
  replace (Server.finished (List.map Write chunks)) with false;
    [apply orb_false_r|].
  induction chunks; simpl; auto.
Qed.

Lemma headersSent_written (log : list res_op) (chunk : string) (chunks : list string) :
  Server.headersSent (log ++ List.map Write (chunk :: chunks)) = true.
Proof. rewrite headersSent_app. simpl. apply orb_true_r. Qed.

(** X8: when the stream delivers its chunks and ends, the response is the
    two headers, then the chunks unchanged and in order, then the end;
    whatever the stream emits after its end changes nothing. *)
Theorem X8_stream_piped_through (rt : Runtime) (sv : Services) (req : request)
    (videoUrl : string) (metadata info : value) (t : string) (chunks : list string)
    (later : list stream_event) :
  truthy (query_param req "videoId") = true ->
  watch_url rt (query_param req "videoId") = Ok videoUrl ->
  getVideoInfo sv [videoUrl; "--dump-json"] = Ok metadata ->
  parse_metadata rt metadata = Ok info ->
  get info "title" = Ok (VStr t) ->
  execStream sv [videoUrl; "-f"; "bestaudio"; "-o"; "-"]
    = Ok (List.map Data chunks ++ End :: later) ->
  snd (Server.download_exchange rt sv req)
  = [SetHeader "Content-Disposition" (Server.content_disposition (sanitize t));
     SetHeader "Content-Type" "audio/mp4"]
    ++ List.map Write chunks ++ [EndResponse].
Proof.
  intros Hid Hurl Hcall Hparse Htitle Hstream.
  rewrite (download_streams rt sv req videoUrl metadata info t _
               Hid Hurl Hcall Hparse Htitle Hstream).
  cbn [snd]. rewrite deliver_data by reflexivity.
  cbn [Server.deliver fold_left Server.on_stream_event].
  rewrite finished_written. cbn [Server.finished existsb Server.ends orb].
  rewrite deliver_finished.
  - now rewrite <- app_assoc.
  - rewrite finished_app. simpl. apply orb_true_r.
Qed.

Lemma X8_stream_piped_through_witness :
  snd (Server.download_exchange Json.runtime
         (Scenario.extractor_returns Scenario.video_document) Scenario.video_request)
  = [SetHeader "Content-Disposition"
       (Server.content_disposition (sanitize "Never Gonna Give You Up (Official Video)"));
     SetHeader "Content-Type" "audio/mp4"]
    ++ List.map Write ["ftyp"] ++ [EndResponse].
Proof.
  exact (X8_stream_piped_through Json.runtime
           (Scenario.extractor_returns Scenario.video_document) Scenario.video_request
           "https://www.youtube.com/watch?v=dQw4w9WgXcQ"
           Scenario.video_document Scenario.video_document
           "Never Gonna Give You Up (Official Video)" ["ftyp"] []
           eq_refl eq_refl eq_refl eq_refl eq_refl eq_refl).
Defined.

(** X9: when the stream fails before its first chunk, the client gets a
    500 whose body is [{error: "Download failed"}], without a message, and
    nothing the stream emits afterwards is written. *)
Theorem X9_stream_fails_at_once (rt : Runtime) (sv : Services) (req : request)
    (videoUrl : string) (metadata info : value) (t : string) (e : js_error)
    (later : list stream_event) :
  truthy (query_param req "videoId") = true ->
  watch_url rt (query_param req "videoId") = Ok videoUrl ->
  getVideoInfo sv [videoUrl; "--dump-json"] = Ok metadata ->
  parse_metadata rt metadata = Ok info ->
  get info "title" = Ok (VStr t) ->
  execStream sv [videoUrl; "-f"; "bestaudio"; "-o"; "-"]
    = Ok (Error e :: later) ->
  fst (serve rt sv Download req)
    = Some (mkResponse 500 (VObj [("error", VStr "Download failed")]))
  /\ written (snd (Server.download_exchange rt sv req)) = [].
Proof.
  intros Hid Hurl Hcall Hparse Htitle Hstream. unfold serve. cbn [fst].
  rewrite (download_streams rt sv req videoUrl metadata info t _
               Hid Hurl Hcall Hparse Htitle Hstream).
  cbn [snd Server.deliver fold_left Server.on_stream_event Server.headersSent
         existsb Server.commits orb negb app].
  rewrite deliver_finished by reflexivity. split; reflexivity.
Qed.

Lemma X9_stream_fails_at_once_witness :
  fst (serve Json.runtime
         (mkServices (fun _ => Ok Scenario.video_document)
                     (fun _ => Ok [Error Scenario.broken_pipe; Data "ftyp"])
                     (fun _ _ => Throw Scenario.unauthorized))
         Download Scenario.video_request)
    = Some (mkResponse 500 (VObj [("error", VStr "Download failed")]))
  /\ written (snd (Server.download_exchange Json.runtime
                     (mkServices (fun _ => Ok Scenario.video_document)
                                 (fun _ => Ok [Error Scenario.broken_pipe; Data "ftyp"])
                                 (fun _ _ => Throw Scenario.unauthorized))
                     Scenario.video_request)) = [].
Proof.
  exact (X9_stream_fails_at_once Json.runtime
           (mkServices (fun _ => Ok Scenario.video_document)
                       (fun _ => Ok [Error Scenario.broken_pipe; Data "ftyp"])
                       (fun _ _ => Throw Scenario.unauthorized))
           Scenario.video_request "https://www.youtube.com/watch?v=dQw4w9WgXcQ"
           Scenario.video_document Scenario.video_document
           "Never Gonna Give You Up (Official Video)" Scenario.broken_pipe [Data "ftyp"]
           eq_refl eq_refl eq_refl eq_refl eq_refl eq_refl).
Defined.

(** X10: when the stream fails after at least one chunk, the handler does
    nothing at all: the response holds the headers and the chunks written
    so far, it has no JSON body, and it is not ended. *)
Theorem X10_stream_fails_midway (rt : Runtime) (sv : Services) (req : request)
    (videoUrl : string) (metadata info : value) (t chunk : string)
    (chunks : list string) (e : js_error) :
  truthy (query_param req "videoId") = true ->
  watch_url rt (query_param req "videoId") = Ok videoUrl ->
  getVideoInfo sv [videoUrl; "--dump-json"] = Ok metadata ->
  parse_metadata rt metadata = Ok info ->
  get info "title" = Ok (VStr t) ->
  execStream sv [videoUrl; "-f"; "bestaudio"; "-o"; "-"]
    = Ok (List.map Data (chunk :: chunks) ++ [Error e]) ->
  snd (Server.download_exchange rt sv req)
  = [SetHeader "Content-Disposition" (Server.content_disposition (sanitize t));
     SetHeader "Content-Type" "audio/mp4"]
    ++ List.map Write (chunk :: chunks)
  /\ fst (serve rt sv Download req) = None
  /\ Server.finished (snd (Server.download_exchange rt sv req)) = false.
Proof.
  intros Hid Hurl Hcall Hparse Htitle Hstream.
  assert (Hlog : snd (Server.download_exchange rt sv req)
                 = [SetHeader "Content-Disposition"
                      (Server.content_disposition (sanitize t));
                    SetHeader "Content-Type" "audio/mp4"]
                   ++ List.map Write (chunk :: chunks)).
  { rewrite (download_streams rt sv req videoUrl metadata info t _
               Hid Hurl Hcall Hparse Htitle Hstream).
    cbn [snd]. rewrite deliver_data by reflexivity.
    cbn [Server.deliver fold_left Server.on_stream_event].
    now rewrite headersSent_written. }
  unfold serve. cbn [fst]. rewrite Hlog. split; [reflexivity|]. split.
  - cbn [app json_sent]. clear. induction (chunk :: chunks); simpl; auto.
  - rewrite finished_written. reflexivity.
Qed.

Lemma X10_stream_fails_midway_witness :
  snd (Server.download_exchange Json.runtime
         (mkServices (fun _ => Ok Scenario.video_document)
                     (fun _ => Ok [Data "ftyp"; Data "mdat"; Error Scenario.broken_pipe])
                     (fun _ _ => Throw Scenario.unauthorized))
         Scenario.video_request)
  = [SetHeader "Content-Disposition"
       (Server.content_disposition (sanitize "Never Gonna Give You Up (Official Video)"));
     SetHeader "Content-Type" "audio/mp4"]
    ++ List.map Write ["ftyp"; "mdat"]
  /\ fst (serve Json.runtime
            (mkServices (fun _ => Ok Scenario.video_document)
                        (fun _ => Ok [Data "ftyp"; Data "mdat"; Error Scenario.broken_pipe])
                        (fun _ _ => Throw Scenario.unauthorized))
            Download Scenario.video_request) = None
  /\ Server.finished
       (snd (Server.download_exchange Json.runtime
               (mkServices (fun _ => Ok Scenario.video_document)
                           (fun _ => Ok [Data "ftyp"; Data "mdat"; Error Scenario.broken_pipe])
                           (fun _ _ => Throw Scenario.unauthorized))
               Scenario.video_request)) = false.
Proof.
  exact (X10_stream_fails_midway Json.runtime
           (mkServices (fun _ => Ok Scenario.video_document)
                       (fun _ => Ok [Data "ftyp"; Data "mdat"; Error Scenario.broken_pipe])
                       (fun _ _ => Throw Scenario.unauthorized))
           Scenario.video_request "https://www.youtube.com/watch?v=dQw4w9WgXcQ"
           Scenario.video_document Scenario.video_document
           "Never Gonna Give You Up (Official Video)" "ftyp" ["mdat"] Scenario.broken_pipe
           eq_refl eq_refl eq_refl eq_refl eq_refl eq_refl).
Defined.

(** X11: the streaming route never opens a stream before the attachment
    headers are in place: whenever the extractor was asked for the audio,
    the response carries [Content-Type: audio/mp4] and a
    [Content-Disposition] whose file name holds only lower-case letters,
    digits and underscores. *)
Theorem X11_stream_after_headers (rt : Runtime) (sv : Services) (req : request) :
  existsb is_stream_call (fst (Server.download_exchange rt sv req)) = true ->
  Server.headers (snd (Server.download_exchange rt sv req)) !! "Content-Type"
    = Some "audio/mp4"
  /\ exists name,
       Server.headers (snd (Server.download_exchange rt sv req)) !! "Content-Disposition"
         = Some (Server.content_disposition name)
       /\ forall_string filename_char name = true.
Proof.
  unfold Server.download_exchange.
  destruct (truthy (query_param req "videoId")) eqn:Hid.
  - destruct (watch_url rt (query_param req "videoId")) as [videoUrl|e0] eqn:Hurl;
      [|rewrite (download_no_address rt sv req e0 Hid Hurl); discriminate].
    destruct (download_cases rt sv req videoUrl Hid Hurl)
      as [(e & ->) | [(t & e & ->) | (t & events & ->)]];
      cbn [fst snd calls res existsb is_stream_call orb]; intros H;
      try discriminate; rewrite ?deliver_keeps_headers;
      (split; [reflexivity|]); exists (sanitize t);
      (split; [|apply sanitize_chars]);
      unfold Server.headers; simpl;
      (rewrite lookup_insert_ne by discriminate); apply lookup_insert_eq.
  - unfold run, Server.download, Server.send_json, on_res, try_catch, bind, ret.
    rewrite Hid. simpl. discriminate.
Qed.

Lemma X11_stream_after_headers_witness :
  Server.headers (snd (Server.download_exchange Json.runtime Scenario.breaking_stream
                         Scenario.video_request)) !! "Content-Type"
    = Some "audio/mp4"
  /\ exists name,
       Server.headers (snd (Server.download_exchange Json.runtime Scenario.breaking_stream
                              Scenario.video_request)) !! "Content-Disposition"
         = Some (Server.content_disposition name)
       /\ forall_string filename_char name = true.
Proof.
  exact (X11_stream_after_headers Json.runtime Scenario.breaking_stream
           Scenario.video_request eq_refl).
Defined.

(** X12: a video whose title the extractor does not report as a string
    cannot be downloaded: the streaming route answers 500 with the error
    text [Failed to download], after the metadata call alone; the stream is
    never opened. *)
Theorem X12_download_needs_title (rt : Runtime) (sv : Services) (req : request)
    (videoUrl : string) (metadata info title : value) :
  truthy (query_param req "videoId") = true ->
  watch_url rt (query_param req "videoId") = Ok videoUrl ->
  getVideoInfo sv [videoUrl; "--dump-json"] = Ok metadata ->
  parse_metadata rt metadata = Ok info ->
  get info "title" = Ok title ->
  (forall t, title <> VStr t) ->
  exists r,
    serve rt sv Download req
    = (Some r, [CallGetVideoInfo [videoUrl; "--dump-json"]])
    /\ status r = 500%Z
    /\ field r "error" = VStr "Failed to download"
    /\ Server.headers (snd (Server.download_exchange rt sv req)) = ∅.
Proof.
  intros Hid Hurl Hcall Hparse Htitle Hnot.
  unfold serve, Server.download_exchange, Server.download, Server.download_catch,
    Server.send_json, Server.setHeader, get_state, on_res, run, initial,
    try_catch, bind, perform, lift, ret.
  rewrite Hid. simpl. rewrite Hurl. simpl. rewrite Hcall, Hparse, Htitle. simpl.
  destruct title; try (exfalso; eapply Hnot; reflexivity);
    simpl; eexists; repeat split.
Qed.

Lemma X12_download_needs_title_witness :
  exists r,
    serve Json.runtime (Scenario.extractor_returns (VObj [("duration", num 212)]))
      Download Scenario.video_request
    = (Some r, [CallGetVideoInfo ["https://www.youtube.com/watch?v=dQw4w9WgXcQ";
                                  "--dump-json"]])
    /\ status r = 500%Z
    /\ field r "error" = VStr "Failed to download"
    /\ Server.headers (snd (Server.download_exchange Json.runtime
                              (Scenario.extractor_returns (VObj [("duration", num 212)]))
                              Scenario.video_request)) = ∅.
Proof.
  apply (X12_download_needs_title Json.runtime
           (Scenario.extractor_returns (VObj [("duration", num 212)]))
           Scenario.video_request "https://www.youtube.com/watch?v=dQw4w9WgXcQ"
           (VObj [("duration", num 212)])
           (VObj [("duration", num 212)]) VUndefined
           eq_refl eq_refl eq_refl eq_refl eq_refl).
  intros t. discriminate.
Defined.

(** ** Thumbnails and item counts *)

(** X13: the thumbnail of a playlist summary is the [url] of the last
    element of the extractor's [thumbnails] array, and the empty string
    when the array is empty. *)
Theorem X13_summary_uses_last_thumbnail (rt : Runtime)
    (props : list (string * value)) (items : list value) :
  lookup_prop "thumbnails" props = VArr items ->
  Server.playlist_thumbnail rt (VObj props)
  = match items with
    | [] => Ok (VStr "")
    | _ => get (List.last items VUndefined) "url"
    end.
Proof.
  intros H. unfold Server.playlist_thumbnail, rbind, and_then.
  rewrite get_object, H. destruct items as [|x rest]; [reflexivity|].
  cbn [truthy get String.eqb Ascii.eqb Bool.eqb List.length].
  unfold gt0, minus_one, to_number, num.
  replace (0 <? Qnum (inject_Z (Z.of_nat (S (List.length rest)))))%Z with true
    by (symmetry; apply Z.ltb_lt; simpl; lia).
  cbn [truthy get_at]. rewrite as_index_pred, nth_last. reflexivity.
Qed.

Lemma X13_summary_uses_last_thumbnail_witness :
  Server.playlist_thumbnail Json.runtime
    (VObj [("thumbnails", VArr [VObj [("url", VStr "small.jpg")];
                                VObj [("url", VStr "large.jpg")]])])
  = get (List.last [VObj [("url", VStr "small.jpg")]; VObj [("url", VStr "large.jpg")]]
           VUndefined) "url".
Proof.
  exact (X13_summary_uses_last_thumbnail Json.runtime
           [("thumbnails", VArr [VObj [("url", VStr "small.jpg")];
                                 VObj [("url", VStr "large.jpg")]])]
           [VObj [("url", VStr "small.jpg")]; VObj [("url", VStr "large.jpg")]]
           eq_refl).
Defined.

(** X14: the thumbnail of a playlist entry is its [thumbnail] when that is
    truthy; otherwise the [url] of the first element of its [thumbnails]
    array, or the empty string when that url is falsy or the array is
    empty. *)
Theorem X14_entry_uses_first_thumbnail (rt : Runtime)
    (props : list (string * value)) (items : list value) :
  lookup_prop "thumbnails" props = VArr items ->
  Server.entry_thumbnail rt (VObj props)
  = if truthy (lookup_prop "thumbnail" props) then Ok (lookup_prop "thumbnail" props)
    else match items with
         | [] => Ok (VStr "")
         | first :: _ => rbind (get first "url") (fun url => Ok (or url (VStr "")))
         end.
Proof.
  intros H. unfold Server.entry_thumbnail, rbind, or_else, and_then.
  rewrite !get_object, H.
  destruct (truthy (lookup_prop "thumbnail" props)) eqn:Ht.
  - unfold or. now rewrite Ht.
  - destruct items as [|x rest]; [reflexivity|].
    cbn [truthy get String.eqb Ascii.eqb Bool.eqb List.length].
    unfold gt0, to_number, num.
    replace (0 <? Qnum (inject_Z (Z.of_nat (S (List.length rest)))))%Z with true
      by (symmetry; apply Z.ltb_lt; simpl; lia).
    cbn [truthy get_at]. reflexivity.
Qed.

Lemma X14_entry_uses_first_thumbnail_witness :
  Server.entry_thumbnail Json.runtime
    (VObj [("thumbnails", VArr [VObj [("url", VStr "small.jpg")];
                                VObj [("url", VStr "large.jpg")]])])
  = Ok (VStr "small.jpg").
Proof.
  exact (X14_entry_uses_first_thumbnail Json.runtime
           [("thumbnails", VArr [VObj [("url", VStr "small.jpg")];
                                 VObj [("url", VStr "large.jpg")]])]
           [VObj [("url", VStr "small.jpg")]; VObj [("url", VStr "large.jpg")]]
           eq_refl).
Defined.

(** X15: the [itemCount] of the playlist summary of [src/server.js] is the
    extractor's [playlist_count] when that is truthy; otherwise the length
    of the [entries] array; and 0 when there are no entries either. *)
Theorem X15_summary_item_count (rt : Runtime) (sv : Services) (req : request)
    (playlistUrl : string) (playlistData : value) (r : response) :
  truthy (query_param req "playlistId") = true ->
  playlist_url rt (query_param req "playlistId") = Ok playlistUrl ->
  rbind (getVideoInfo sv [playlistUrl; "--flat-playlist"; "--dump-single-json"])
        (parse_metadata rt) = Ok playlistData ->
  fst (run (Server.playlist_info rt sv req)) = Ok r ->
  status r = 200%Z ->
  exists count,
    get playlistData "playlist_count" = Ok count
    /\ (truthy count = true -> field r "itemCount" = count)
    /\ (truthy count = false ->
        forall items, get playlistData "entries" = Ok (VArr items) ->
                      field r "itemCount" = num (Z.of_nat (List.length items)))
    /\ (truthy count = false ->
        forall entries, get playlistData "entries" = Ok entries ->
                        truthy entries = false ->
                        field r "itemCount" = num 0).
Proof.
  intros Hid Hurl Hdata H H200. unfold rbind in Hdata.
  unfold Server.playlist_info, run, try_catch, bind, perform, lift, ret, rbind,
    or_else in H.
  rewrite Hid in H. simpl in H. rewrite Hurl in H. simpl in H.
  destruct (getVideoInfo sv _) as [metadata|]; [|discriminate]. simpl in H.
  rewrite Hdata in H. simpl in H.
  repeat case_step H; inversion H; subst; simpl in H200; try discriminate H200;
    eexists; (split; [reflexivity|]); repeat split; intros;
    unfold field;
    repeat (simpl in *;
            match goal with
            | Heq : Ok _ = Ok _ |- _ => inversion Heq; subst; clear Heq
            end);
    simpl in *; congruence.
Qed.

Lemma X15_summary_item_count_witness :
  exists count,
    get Scenario.short_playlist "playlist_count" = Ok count
    /\ (truthy count = true ->
        field (mkResponse 200
                 (VObj [("id", VStr "PL1"); ("title", VStr "Road trip");
                        ("description", VStr ""); ("thumbnailUrl", VStr "");
                        ("itemCount", num 5)])) "itemCount" = count)
    /\ (truthy count = false ->
        forall items, get Scenario.short_playlist "entries" = Ok (VArr items) ->
                      field (mkResponse 200
                               (VObj [("id", VStr "PL1"); ("title", VStr "Road trip");
                                      ("description", VStr ""); ("thumbnailUrl", VStr "");
                                      ("itemCount", num 5)])) "itemCount"
                      = num (Z.of_nat (List.length items)))
    /\ (truthy count = false ->
        forall entries, get Scenario.short_playlist "entries" = Ok entries ->
                        truthy entries = false ->
                        field (mkResponse 200
                                 (VObj [("id", VStr "PL1"); ("title", VStr "Road trip");
                                        ("description", VStr ""); ("thumbnailUrl", VStr "");
                                        ("itemCount", num 5)])) "itemCount" = num 0).
Proof.
  exact (X15_summary_item_count Json.runtime
           (Scenario.extractor_returns Scenario.short_playlist)
           Scenario.playlist_request "https://www.youtube.com/playlist?list=PL1"
           Scenario.short_playlist _
           eq_refl eq_refl eq_refl eq_refl eq_refl).
Defined.

(** ** The authenticated routes of [src/unnamed/part_000] *)

Lemma substring_all (t : string) : String.substring 0 (String.length t) t = t.
Proof. induction t as [|c rest IH]; simpl; congruence. Qed.

Lemma bearer_token (token : string) :
  Hybrid.has_bearer (Some ("Bearer " ++ token)%string) = true
  /\ Hybrid.access_token (Some ("Bearer " ++ token)%string) = token.
Proof.
  change ("Bearer " ++ token)%string
    with (String "B" (String "e" (String "a" (String "r" (String "e" (String "r"
            (String " " token))))))).
  split; [destruct token; reflexivity|].
  unfold Hybrid.access_token, substring_from. simpl.
  rewrite Nat.sub_0_r. apply substring_all.
Qed.

(** X16: the token handed to the listing API is the [Authorization] header
    without its [Bearer ] prefix, unchanged, and a request with such a
    header makes exactly one outbound call, to the listing API with that
    token, asking for the caller's own playlists. *)
Theorem X16_token_forwarded (sv : Services) (query : list (string * value))
    (token : string) :
  calls (snd (run (Hybrid.user_playlists sv
                     (mkRequest query (Some ("Bearer " ++ token)%string)))))
  = [CallPlaylistsList token Hybrid.mine_params].
Proof.
  destruct (bearer_token token) as [Hb Ht].
  unfold Hybrid.user_playlists, run, try_catch, bind, perform, lift, ret.
  cbn [authorization]. rewrite Hb, Ht. simpl.
  case_goal; reflexivity.
Qed.

Lemma map_result_length (f : value -> result value) (xs ys : list value) :
  map_result f xs = Ok ys -> List.length ys = List.length xs.
Proof.
  revert ys. induction xs as [|x rest IH]; simpl; intros ys H.
  - now inversion H.
  - unfold rbind in H. destruct (f x); [|discriminate].
    destruct (map_result f rest) as [ys'|]; [|discriminate].
    inversion H. simpl. f_equal. now apply IH.
Qed.

Lemma map_result_throws (f : value -> result value) (xs : list value) (x : value)
    (e : js_error) :
  In x xs -> f x = Throw e -> exists e', map_result f xs = Throw e'
                                         /\ exists x', In x' xs /\ f x' = Throw e'.
Proof.
  induction xs as [|y rest IH]; simpl; intros Hin Hx; [contradiction|].
  unfold rbind. destruct (f y) as [v|e0] eqn:Ey.
  - destruct Hin as [-> | Hin]; [congruence|].
    destruct (IH Hin Hx) as (e' & -> & x' & Hin' & Hx'). eauto 6.
  - eauto 6.
Qed.

(** X17: when the listing API answers with an array of items that all
    have the expected shape, [/api/user-playlists] answers 200 with one
    playlist per item, in the same order. *)
Theorem X17_one_playlist_per_item (sv : Services) (req : request)
    (listing data : value) (items playlists : list value) :
  Hybrid.has_bearer (authorization req) = true ->
  playlists_list sv (Hybrid.access_token (authorization req)) Hybrid.mine_params
    = Ok listing ->
  get listing "data" = Ok data ->
  get data "items" = Ok (VArr items) ->
  map_result Hybrid.map_user_playlist items = Ok playlists ->
  fst (run (Hybrid.user_playlists sv req))
    = Ok (mkResponse 200 (VObj [("playlists", VArr playlists)]))
  /\ List.length playlists = List.length items
  /\ Forall2 (fun item playlist => Hybrid.map_user_playlist item = Ok playlist)
       items playlists.
Proof.
  intros Hb Hcall Hdata Hitems Hmap. split; [|split].
  - unfold Hybrid.user_playlists, run, try_catch, bind, perform, lift, ret, rbind.
    rewrite Hb. simpl. rewrite Hcall, Hdata, Hitems. simpl. now rewrite Hmap.
  - apply (map_result_length _ _ _ Hmap).
  - clear -Hmap. revert playlists Hmap.
    induction items as [|x rest IH]; simpl; intros playlists H.
    + inversion H. constructor.
    + unfold rbind in H. destruct (Hybrid.map_user_playlist x) eqn:Ex; [|discriminate].
      destruct (map_result Hybrid.map_user_playlist rest) as [ys|]; [|discriminate].
      inversion H. constructor; [exact Ex | now apply IH].
Qed.

Lemma X17_one_playlist_per_item_witness :
  fst (run (Hybrid.user_playlists Scenario.private_playlist
              (mkRequest [] (Some "Bearer ya29.owner"))))
    = Ok (mkResponse 200
            (VObj [("playlists",
                    VArr [VObj [("id", VStr "PLprivate");
                                ("title", VStr "Road trip");
                                ("description", VStr "");
                                ("thumbnailUrl", VStr "https://i.ytimg.com/vi/a/default.jpg");
                                ("itemCount", num 12);
                                ("privacy", VStr "public")]])]))
  /\ List.length [VObj [("id", VStr "PLprivate");
                        ("title", VStr "Road trip");
                        ("description", VStr "");
                        ("thumbnailUrl", VStr "https://i.ytimg.com/vi/a/default.jpg");
                        ("itemCount", num 12);
                        ("privacy", VStr "public")]]
     = List.length [VObj [("id", VStr "PLprivate");
                          ("snippet",
                           VObj [("title", VStr "Road trip");
                                 ("description", VStr "");
                                 ("thumbnails",
                                  VObj [("default",
                                         VObj [("url", VStr "https://i.ytimg.com/vi/a/default.jpg")])])]);
                          ("contentDetails", VObj [("itemCount", num 12)])]]
  /\ Forall2 (fun item playlist => Hybrid.map_user_playlist item = Ok playlist)
       [VObj [("id", VStr "PLprivate");
              ("snippet",
               VObj [("title", VStr "Road trip");
                     ("description", VStr "");
                     ("thumbnails",
                      VObj [("default",
                             VObj [("url", VStr "https://i.ytimg.com/vi/a/default.jpg")])])]);
              ("contentDetails", VObj [("itemCount", num 12)])]]
       [VObj [("id", VStr "PLprivate");
              ("title", VStr "Road trip");
              ("description", VStr "");
              ("thumbnailUrl", VStr "https://i.ytimg.com/vi/a/default.jpg");
              ("itemCount", num 12);
              ("privacy", VStr "public")]].
Proof.
  exact (X17_one_playlist_per_item Scenario.private_playlist
           (mkRequest [] (Some "Bearer ya29.owner"))
           Scenario.owner_listing _ _ _ eq_refl eq_refl eq_refl eq_refl eq_refl).
Defined.

Lemma get_throws_type_error (v : value) (k : string) (e : js_error) :
  get v k = Throw e -> err_code e = VUndefined.
Proof.
  destruct v; simpl; intros H;
    repeat match type of H with
           | context [if ?b then _ else _] => destruct b
           end;
    inversion H; reflexivity.
Qed.

Lemma get_opt_throws_type_error (v : value) (k : string) (e : js_error) :
  get_opt v k = Throw e -> err_code e = VUndefined.
Proof.
  destruct v; simpl; intros H; try discriminate;
    repeat match type of H with
           | context [if ?b then _ else _] => destruct b
           end;
    inversion H; reflexivity.
Qed.

Lemma map_user_playlist_throws (item : value) (e : js_error) :
  Hybrid.map_user_playlist item = Throw e -> err_code e = VUndefined.
Proof.
  unfold Hybrid.map_user_playlist, Hybrid.api_thumbnail, rbind, or_else. intros H.
  repeat case_step H; inversion H; subst;
    match goal with
    | E : get _ _ = Throw _ |- _ => apply (get_throws_type_error _ _ _ E)
    | E : get_opt _ _ = Throw _ |- _ => apply (get_opt_throws_type_error _ _ _ E)
    end.
Qed.

(** X18: one item of the listing without the expected shape (no
    [snippet], no [contentDetails]) fails the whole of
    [/api/user-playlists]: the answer is a 500, not the list of the other
    playlists. *)
Theorem X18_one_bad_item_fails_all (sv : Services) (req : request)
    (listing data item : value) (items : list value) (e : js_error) :
  Hybrid.has_bearer (authorization req) = true ->
  playlists_list sv (Hybrid.access_token (authorization req)) Hybrid.mine_params
    = Ok listing ->
  get listing "data" = Ok data ->
  get data "items" = Ok (VArr items) ->
  In item items ->
  Hybrid.map_user_playlist item = Throw e ->
  exists r,
    fst (run (Hybrid.user_playlists sv req)) = Ok r
    /\ status r = 500%Z
    /\ field r "error" = VStr "Failed to fetch user playlists".
Proof.
  intros Hb Hcall Hdata Hitems Hin Hbad.
  destruct (map_result_throws _ _ _ _ Hin Hbad) as (e' & Hmap & x' & _ & Hx').
  apply map_user_playlist_throws in Hx'.
  unfold Hybrid.user_playlists, run, try_catch, bind, perform, lift, ret, rbind.
  rewrite Hb. simpl. rewrite Hcall, Hdata, Hitems. simpl. rewrite Hmap, Hx'. simpl.
  eexists. repeat split.
Qed.

Lemma X18_one_bad_item_fails_all_witness :
  exists r,
    fst (run (Hybrid.user_playlists
                (mkServices (fun _ => Throw Scenario.extractor_down)
                            (fun _ => Throw Scenario.extractor_down)
                            (fun _ _ =>
                               Ok (VObj [("data",
                                          VObj [("items",
                                                 VArr [VObj [("id", VStr "PL1")]])])])))
                (mkRequest [] (Some "Bearer ya29.owner")))) = Ok r
    /\ status r = 500%Z
    /\ field r "error" = VStr "Failed to fetch user playlists".
Proof.
  exact (X18_one_bad_item_fails_all
           (mkServices (fun _ => Throw Scenario.extractor_down)
                       (fun _ => Throw Scenario.extractor_down)
                       (fun _ _ =>
                          Ok (VObj [("data",
                                     VObj [("items", VArr [VObj [("id", VStr "PL1")]])])])))
           (mkRequest [] (Some "Bearer ya29.owner"))
           _ _ (VObj [("id", VStr "PL1")]) [VObj [("id", VStr "PL1")]]
           (TypeError "Cannot read properties of undefined (reading 'title')")
           eq_refl eq_refl eq_refl eq_refl (or_introl eq_refl) eq_refl).
Defined.

(** A rejection of the listing call is reported as 401 exactly when its
    code is the number 401; any other rejection gives a 500 that carries
    the rejection's message. *)
Lemma user_playlists_rejection (sv : Services) (req : request) (e : js_error) :
  Hybrid.has_bearer (authorization req) = true ->
  playlists_list sv (Hybrid.access_token (authorization req)) Hybrid.mine_params
    = Throw e ->
  fst (run (Hybrid.user_playlists sv req))
  = Ok (if is_int (err_code e) 401
        then mkResponse 401 (VObj [("error", VStr "Invalid or expired token");
                                   ("message", VStr "Please sign in again")])
        else mkResponse 500 (VObj [("error", VStr "Failed to fetch user playlists");
                                   ("message", err_message e)])).
Proof.
  intros Hb Hcall.
  unfold Hybrid.user_playlists, run, try_catch, bind, perform, lift, ret.
  rewrite Hb. simpl. rewrite Hcall. destruct (is_int (err_code e) 401); reflexivity.
Qed.

(** An optional read never throws. *)
Lemma get_opt_total (v : value) (k : string) : exists x, get_opt v k = Ok x.
Proof.
  destruct v; simpl; eauto;
    repeat match goal with |- context [if ?b then _ else _] => destruct b end; eauto.
Qed.

(** X19: the thumbnail of an item of the listing API is read with
    optional chaining, so for any snippet object, whatever its
    [thumbnails] holds, the read succeeds and gives a truthy value or the
    empty string: the field is never undefined. *)
Theorem X19_api_thumbnail_total (props : list (string * value)) :
  exists url,
    Hybrid.api_thumbnail (VObj props) = Ok url
    /\ (truthy url = true \/ url = VStr "").
Proof.
  unfold Hybrid.api_thumbnail, rbind, or_else, or. rewrite get_object.
  destruct (get_opt_total (lookup_prop "thumbnails" props) "medium") as [m ->].
  destruct (get_opt_total m "url") as [mu ->].
  destruct (truthy mu) eqn:Hmu.
  - rewrite Hmu. eauto.
  - destruct (get_opt_total (lookup_prop "thumbnails" props) "default") as [d ->].
    destruct (get_opt_total d "url") as [du ->].
    destruct (truthy du) eqn:Hdu; eauto.
Qed.

Lemma summary_of_extractor_source (rt : Runtime) (playlistId playlistData entries : value)
    (r : response) :
  Hybrid.summary_of_extractor rt playlistId playlistData entries = Ok r ->
  status r = 200%Z /\ field r "source" = VStr "yt-dlp".
Proof.
  unfold Hybrid.summary_of_extractor, rbind, or_else. intros H.
  repeat case_step H; inversion H; subst; split; reflexivity.
Qed.

(** X20: when the extractor's attempt succeeds, [/api/playlist-info] of
    [src/unnamed/part_000] answers with it, marked [source: yt-dlp], and
    never calls the listing API, token or no token. *)
Theorem X20_extractor_answer_is_final (rt : Runtime) (sv : Services) (req : request)
    (r : response) :
  truthy (query_param req "playlistId") = true ->
  fst (run (Hybrid.try_extractor rt sv (query_param req "playlistId"))) = Ok r ->
  exists playlistUrl,
    playlist_url rt (query_param req "playlistId") = Ok playlistUrl
    /\ run (Hybrid.playlist_info rt sv req)
       = (Ok r, mkState [CallGetVideoInfo [playlistUrl; "--flat-playlist";
                                           "--dump-single-json"]] [])
    /\ status r = 200%Z
    /\ field r "source" = VStr "yt-dlp".
Proof.
  intros Hid Hok.
  destruct (playlist_url rt (query_param req "playlistId")) as [playlistUrl|e] eqn:Hurl;
    [|unfold run in Hok;
      rewrite (try_extractor_no_address rt sv _ e initial Hurl) in Hok; discriminate].
  exists playlistUrl. split; [reflexivity|]. split.
  - unfold Hybrid.playlist_info, run, try_catch. rewrite Hid. simpl.
    pose proof (try_extractor_state rt sv (query_param req "playlistId") initial) as Hs.
    unfold attempt_calls in Hs. rewrite Hurl in Hs.
    unfold run in Hok.
    destruct (Hybrid.try_extractor rt sv (query_param req "playlistId") initial)
      as [out s1].
    simpl in Hok, Hs. subst out s1. reflexivity.
  - unfold Hybrid.try_extractor, run, bind, perform, lift, rbind in Hok. simpl in Hok.
    repeat case_step Hok; try discriminate.
    apply (summary_of_extractor_source _ _ _ _ _ Hok).
Qed.

Lemma X20_extractor_answer_is_final_witness :
  exists playlistUrl,
    playlist_url Json.runtime
      (query_param (Scenario.with_query "playlistId" "PL1" (Some "Bearer ya29.owner"))
         "playlistId") = Ok playlistUrl
    /\ run (Hybrid.playlist_info Json.runtime
              (Scenario.extractor_returns Scenario.short_playlist)
              (Scenario.with_query "playlistId" "PL1" (Some "Bearer ya29.owner")))
       = (Ok (mkResponse 200
                (VObj [("id", VStr "PL1"); ("title", VStr "Road trip");
                       ("description", VStr ""); ("thumbnailUrl", VStr "");
                       ("itemCount", num 5); ("source", VStr "yt-dlp")])),
          mkState [CallGetVideoInfo [playlistUrl; "--flat-playlist";
                                     "--dump-single-json"]] [])
    /\ status (mkResponse 200
                  (VObj [("id", VStr "PL1"); ("title", VStr "Road trip");
                         ("description", VStr ""); ("thumbnailUrl", VStr "");
                         ("itemCount", num 5); ("source", VStr "yt-dlp")])) = 200%Z
    /\ field (mkResponse 200
                 (VObj [("id", VStr "PL1"); ("title", VStr "Road trip");
                        ("description", VStr ""); ("thumbnailUrl", VStr "");
                        ("itemCount", num 5); ("source", VStr "yt-dlp")])) "source"
       = VStr "yt-dlp".
Proof.
  exact (X20_extractor_answer_is_final Json.runtime
           (Scenario.extractor_returns Scenario.short_playlist)
           (Scenario.with_query "playlistId" "PL1" (Some "Bearer ya29.owner"))
           _ eq_refl eq_refl).
Defined.

(** ** The ytdl-core draft, [src/unnamed/part_001] *)

(** X21: in the ytdl-core draft a video id the library does not accept as
    a URL is refused with a 400 and the text [Invalid YouTube video ID], on
    both routes, before any outbound call and before any header is set. *)
Theorem X21_invalid_id_refused (rt : Runtime) (yt : YtdlDraft.Ytdl)
    (open_stream : string -> result (list stream_event)) (req : request)
    (videoUrl : string) :
  truthy (query_param req "videoId") = true ->
  watch_url rt (query_param req "videoId") = Ok videoUrl ->
  YtdlDraft.validateURL yt videoUrl = false ->
  run (YtdlDraft.download_info rt yt req)
    = (Ok (Server.bad_request "Invalid YouTube video ID"), initial)
  /\ YtdlDraft.download_exchange rt yt open_stream req
     = ([], [Status 400; Json (VObj [("error", VStr "Invalid YouTube video ID")])]).
Proof.
  intros Hid Hurl Hvalid. split.
  - unfold YtdlDraft.download_info, run, try_catch, bind, lift, ret.
    rewrite Hid. simpl. rewrite Hurl. simpl. now rewrite Hvalid.
  - unfold YtdlDraft.download_exchange, YtdlDraft.download, Server.send_json, on_res,
      run, try_catch, bind, lift, ret.
    rewrite Hid. simpl. rewrite Hurl. simpl. now rewrite Hvalid.
Qed.

Lemma X21_invalid_id_refused_witness :
  run (YtdlDraft.download_info Json.runtime
         (YtdlDraft.mkYtdl (fun _ => false) (fun _ => Ok Scenario.ytdl_info)
            (fun formats => Ok formats))
         Scenario.video_request)
    = (Ok (Server.bad_request "Invalid YouTube video ID"), initial)
  /\ YtdlDraft.download_exchange Json.runtime
       (YtdlDraft.mkYtdl (fun _ => false) (fun _ => Ok Scenario.ytdl_info)
          (fun formats => Ok formats))
       (fun _ => Ok [Data "ID3"; End]) Scenario.video_request
     = ([], [Status 400; Json (VObj [("error", VStr "Invalid YouTube video ID")])]).
Proof.
  exact (X21_invalid_id_refused Json.runtime
           (YtdlDraft.mkYtdl (fun _ => false) (fun _ => Ok Scenario.ytdl_info)
              (fun formats => Ok formats))
           (fun _ => Ok [Data "ID3"; End]) Scenario.video_request
           "https://www.youtube.com/watch?v=dQw4w9WgXcQ" eq_refl eq_refl eq_refl).
Defined.

Lemma rated_inv (format : value) :
  rated format = true ->
  exists props q,
    format = VObj props
    /\ lookup_prop "audioBitrate" props = VNum q
    /\ (0 < Qnum q)%Z.
Proof.
  unfold rated, bitrate. destruct format; try discriminate.
  destruct (lookup_prop "audioBitrate" props) eqn:E; try discriminate.
  intros H. apply Z.ltb_lt in H. eauto.
Qed.

Lemma bitrate_le_refl (format : value) :
  rated format = true -> bitrate_le format format = true.
Proof.
  intros H. apply rated_inv in H as (props & q & -> & Hq & _).
  unfold bitrate_le, bitrate. rewrite Hq. apply Qle_bool_iff, Qle_refl.
Qed.

Lemma bitrate_le_trans (a b c : value) :
  bitrate_le a b = true -> bitrate_le b c = true -> bitrate_le a c = true.
Proof.
  unfold bitrate_le.
  destruct (bitrate a), (bitrate b), (bitrate c); try discriminate.
  rewrite !Qle_bool_iff. apply Qle_trans.
Qed.

(** One step of the reduction on rated formats: the better of the two. *)
Lemma better_rated (rt : Runtime) (best format : value) :
  rated best = true -> rated format = true ->
  exists next,
    YtdlDraft.better rt best format = Ok next
    /\ (next = best \/ next = format)
    /\ bitrate_le best next = true
    /\ bitrate_le format next = true.
Proof.
  intros Hb Hf.
  pose proof (bitrate_le_refl _ Hb) as Hbb. pose proof (bitrate_le_refl _ Hf) as Hff.
  apply rated_inv in Hb as (bp & qb & -> & Hqb & Hposb).
  apply rated_inv in Hf as (fp & qf & -> & Hqf & Hposf).
  unfold YtdlDraft.better, rbind, and_then. simpl. rewrite Hqf, Hqb. simpl.
  replace (Qnum qf =? 0)%Z with false by (symmetry; apply Z.eqb_neq; lia).
  simpl. unfold greater. simpl.
  destruct (Qle_bool qf qb) eqn:E; simpl; eexists; (split; [reflexivity|]).
  - split; [now left|]. split; [assumption|].
    unfold bitrate_le, bitrate. now rewrite Hqf, Hqb.
  - split; [now right|]. split; [|assumption].
    unfold bitrate_le, bitrate. rewrite Hqf, Hqb.
    apply Qle_bool_iff, Qlt_le_weak, Qnot_le_lt.
    intros Hle. apply Qle_bool_iff in Hle. congruence.
Qed.

Lemma reduce_best_max (rt : Runtime) (formats : list value) (best : value) :
  rated best = true ->
  Forall (fun f => rated f = true) formats ->
  exists top,
    YtdlDraft.reduce_best rt formats best = Ok top
    /\ (top = best \/ In top formats)
    /\ rated top = true
    /\ bitrate_le best top = true
    /\ Forall (fun f => bitrate_le f top = true) formats.
Proof.
  revert best. induction formats as [|f rest IH]; intros best Hb Hall; simpl.
  - exists best. repeat split; auto. now apply bitrate_le_refl.
  - inversion Hall as [|? ? Hf Hrest]; subst.
    destruct (better_rated rt best f Hb Hf) as (next & Hnext & Hwhich & Hbn & Hfn).
    unfold rbind. rewrite Hnext.
    assert (Hn : rated next = true) by (destruct Hwhich; subst; assumption).
    destruct (IH next Hn Hrest) as (top & Htop & Hin & Hrt & Hnt & Hall').
    exists top. repeat split; auto.
    + destruct Hin as [-> | Hin]; [|now right; right].
      destruct Hwhich as [-> | ->]; [now left | now right; left].
    + eapply bitrate_le_trans; eassumption.
    + constructor; [eapply bitrate_le_trans; eassumption | exact Hall'].
Qed.

(** X22: among audio formats that each have a positive numeric bitrate,
    the format the draft selects is one of them and no format has a higher
    bitrate. *)
Theorem X22_best_audio_is_highest (rt : Runtime) (first : value) (others : list value) :
  Forall (fun f => rated f = true) (first :: others) ->
  exists top,
    YtdlDraft.best_audio rt (VArr (first :: others)) = Ok top
    /\ In top (first :: others)
    /\ Forall (fun f => bitrate_le f top = true) (first :: others).
Proof.
  intros Hall. inversion Hall as [|? ? Hf Hrest]; subst.
  unfold YtdlDraft.best_audio. cbn [YtdlDraft.reduce_best].
  assert (Hstart : YtdlDraft.better rt VNull first = Ok first) by reflexivity.
  unfold rbind. rewrite Hstart.
  destruct (reduce_best_max rt others first Hf Hrest)
    as (top & Htop & Hin & _ & Hft & Hall').
  exists top. split; [exact Htop|]. split.
  - destruct Hin as [-> | Hin]; [now left | now right].
  - constructor; assumption.
Qed.

Lemma X22_best_audio_is_highest_witness :
  exists top,
    YtdlDraft.best_audio Json.runtime
      (VArr [VObj [("url", VStr "a"); ("audioBitrate", num 128)];
             VObj [("url", VStr "b"); ("audioBitrate", num 160)];
             VObj [("url", VStr "c"); ("audioBitrate", num 48)]]) = Ok top
    /\ In top [VObj [("url", VStr "a"); ("audioBitrate", num 128)];
               VObj [("url", VStr "b"); ("audioBitrate", num 160)];
               VObj [("url", VStr "c"); ("audioBitrate", num 48)]]
    /\ Forall (fun f => bitrate_le f top = true)
         [VObj [("url", VStr "a"); ("audioBitrate", num 128)];
          VObj [("url", VStr "b"); ("audioBitrate", num 160)];
          VObj [("url", VStr "c"); ("audioBitrate", num 48)]].
Proof.
  apply (X22_best_audio_is_highest Json.runtime).
  repeat constructor.
Defined.

(** X23: when the video has no audio-only format, [/api/download-info] of
    the ytdl-core draft still answers 200, with [downloadUrl] null, quality
    [unknown] and format [audio/webm]. *)
Theorem X23_no_audio_format (rt : Runtime) (yt : YtdlDraft.Ytdl) (req : request)
    (videoUrl : string)
    (info formats videoDetails title author name lengthSeconds : value) :
  truthy (query_param req "videoId") = true ->
  watch_url rt (query_param req "videoId") = Ok videoUrl ->
  YtdlDraft.validateURL yt videoUrl = true ->
  YtdlDraft.getInfo yt videoUrl = Ok info ->
  get info "formats" = Ok formats ->
  YtdlDraft.filterFormats yt formats = Ok (VArr []) ->
  get info "videoDetails" = Ok videoDetails ->
  get videoDetails "title" = Ok title ->
  get videoDetails "author" = Ok author ->
  get author "name" = Ok name ->
  get videoDetails "lengthSeconds" = Ok lengthSeconds ->
  fst (run (YtdlDraft.download_info rt yt req))
  = Ok (mkResponse 200
          (VObj [("videoId", query_param req "videoId");
                 ("title", title);
                 ("author", name);
                 ("lengthSeconds", lengthSeconds);
                 ("downloadUrl", VNull);
                 ("quality", VStr "unknown");
                 ("format", VStr "audio/webm")])).
Proof.
  intros Hid Hurl Hvalid Hinfo Hformats Hfilter Hvd Ht Ha Hn Hl.
  unfold YtdlDraft.download_info, run, try_catch, bind, perform, lift, ret, rbind.
  rewrite Hid. simpl. rewrite Hurl. simpl. rewrite Hvalid. simpl.
  rewrite Hinfo, Hformats, Hfilter. simpl.
  rewrite Hvd, Ht, Ha, Hn, Hl. reflexivity.
Qed.

Lemma X23_no_audio_format_witness :
  fst (run (YtdlDraft.download_info Json.runtime
              (YtdlDraft.mkYtdl (fun _ => true) (fun _ => Ok Scenario.ytdl_info)
                 (fun _ => Ok (VArr [])))
              Scenario.video_request))
  = Ok (mkResponse 200
          (VObj [("videoId", VStr "dQw4w9WgXcQ");
                 ("title", VStr "Never Gonna Give You Up (Official Video)");
                 ("author", VStr "Rick Astley");
                 ("lengthSeconds", VStr "212");
                 ("downloadUrl", VNull);
                 ("quality", VStr "unknown");
                 ("format", VStr "audio/webm")])).
Proof.
  exact (X23_no_audio_format Json.runtime
           (YtdlDraft.mkYtdl (fun _ => true) (fun _ => Ok Scenario.ytdl_info)
              (fun _ => Ok (VArr [])))
           Scenario.video_request "https://www.youtube.com/watch?v=dQw4w9WgXcQ"
           Scenario.ytdl_info _ _ _ _ _ _
           eq_refl eq_refl eq_refl eq_refl eq_refl eq_refl eq_refl eq_refl eq_refl
           eq_refl eq_refl).
Defined.

(** X24: the format label of the ytdl-core draft is the MIME type of the
    selected format cut at its first semicolon: it holds no semicolon, and
    the MIME type is that label alone or the label, a semicolon and the
    parameters. *)
Theorem X24_format_label (props : list (string * value)) (mime : string) :
  lookup_prop "mimeType" props = VStr mime ->
  exists label parameters,
    YtdlDraft.mime_head (VObj props) = Ok (VStr label)
    /\ free_of ";" label = true
    /\ (mime = label \/ mime = (label ++ String ";" parameters)%string).
Proof.
  intros H. unfold YtdlDraft.mime_head, rbind. simpl. rewrite H.
  pose proof (split_on_spec ";" mime) as [Hj Hf].
  pose proof (split_on_nonempty ";" mime) as Hne.
  destruct (split_on ";" mime) as [|label rest]; [contradiction|].
  inversion Hf as [|? ? Hlabel Hrest]. exists label, (join ";" rest).
  split; [reflexivity|]. split; [exact Hlabel|].
  destruct rest; [left | right]; symmetry; exact Hj.
Qed.

Lemma X24_format_label_witness :
  exists label parameters,
    YtdlDraft.mime_head (VObj [("mimeType", VStr "audio/webm; codecs=opus")])
      = Ok (VStr label)
    /\ free_of ";" label = true
    /\ ("audio/webm; codecs=opus" = label
        \/ "audio/webm; codecs=opus" = (label ++ String ";" parameters)%string).
Proof.
  exact (X24_format_label [("mimeType", VStr "audio/webm; codecs=opus")]
           "audio/webm; codecs=opus" eq_refl).
Defined.

(** X25: in the ytdl-core draft, when the library reports a title string
    and the stream opens, the response of [/api/download] carries
    [Content-Type: audio/mpeg] and
    [Content-Disposition: attachment; filename="<name>.mp3"], where
    [<name>] is the sanitized title, and the only outbound call is the one
    for the video's information. *)
Theorem X25_draft_download_headers (rt : Runtime) (yt : YtdlDraft.Ytdl)
    (open_stream : string -> result (list stream_event)) (req : request)
    (videoUrl : string) (info videoDetails : value) (t : string)
    (events : list stream_event) :
  truthy (query_param req "videoId") = true ->
  watch_url rt (query_param req "videoId") = Ok videoUrl ->
  YtdlDraft.validateURL yt videoUrl = true ->
  YtdlDraft.getInfo yt videoUrl = Ok info ->
  get info "videoDetails" = Ok videoDetails ->
  get videoDetails "title" = Ok (VStr t) ->
  open_stream videoUrl = Ok events ->
  fst (YtdlDraft.download_exchange rt yt open_stream req)
    = [CallYtdlGetInfo videoUrl]
  /\ Server.headers (snd (YtdlDraft.download_exchange rt yt open_stream req))
       !! "Content-Disposition"
     = Some ("attachment; filename=" ++ Server.dquote ++ sanitize t ++ ".mp3"
             ++ Server.dquote)%string
  /\ Server.headers (snd (YtdlDraft.download_exchange rt yt open_stream req))
       !! "Content-Type"
     = Some "audio/mpeg"
  /\ forall_string filename_char (sanitize t) = true.
Proof.
  intros Hid Hurl Hvalid Hinfo Hvd Ht Hopen.
  assert (Hrun : YtdlDraft.download_exchange rt yt open_stream req
                 = ([CallYtdlGetInfo videoUrl],
                    Server.deliver events
                      [SetHeader "Content-Disposition"
                         (YtdlDraft.content_disposition (sanitize t));
                       SetHeader "Content-Type" "audio/mpeg"])).
  { unfold YtdlDraft.download_exchange, YtdlDraft.download, run, try_catch, bind,
      perform, lift, ret, Server.setHeader, on_res.
    rewrite Hid. simpl. rewrite Hurl. simpl. rewrite Hvalid. simpl.
    rewrite Hinfo, Hvd, Ht. simpl. rewrite Hopen. reflexivity. }
  rewrite Hrun. cbn [fst snd]. rewrite deliver_keeps_headers.
  split; [reflexivity|]. split; [|split].
  - unfold Server.headers, YtdlDraft.content_disposition. simpl.
    rewrite lookup_insert_ne by discriminate. apply lookup_insert_eq.
  - unfold Server.headers. simpl. apply lookup_insert_eq.
  - apply sanitize_chars.
Qed.

Lemma X25_draft_download_headers_witness :
  fst (YtdlDraft.download_exchange Json.runtime Scenario.ytdl_library
         (fun _ => Ok [Data "ID3"; End]) Scenario.video_request)
    = [CallYtdlGetInfo "https://www.youtube.com/watch?v=dQw4w9WgXcQ"]
  /\ Server.headers
       (snd (YtdlDraft.download_exchange Json.runtime Scenario.ytdl_library
               (fun _ => Ok [Data "ID3"; End]) Scenario.video_request))
       !! "Content-Disposition"
     = Some ("attachment; filename=" ++ Server.dquote
             ++ sanitize "Never Gonna Give You Up (Official Video)" ++ ".mp3"
             ++ Server.dquote)%string
  /\ Server.headers
       (snd (YtdlDraft.download_exchange Json.runtime Scenario.ytdl_library
               (fun _ => Ok [Data "ID3"; End]) Scenario.video_request))
       !! "Content-Type"
     = Some "audio/mpeg"
  /\ forall_string filename_char (sanitize "Never Gonna Give You Up (Official Video)")
     = true.
Proof.
  exact (X25_draft_download_headers Json.runtime Scenario.ytdl_library
           (fun _ => Ok [Data "ID3"; End]) Scenario.video_request
           "https://www.youtube.com/watch?v=dQw4w9WgXcQ"
           Scenario.ytdl_info _ "Never Gonna Give You Up (Official Video)"
           [Data "ID3"; End] eq_refl eq_refl eq_refl eq_refl eq_refl eq_refl eq_refl).
Defined.

(** ** A parameter with no conversion to a string *)

(** X26: on each of the four routes of [src/server.js], a parameter that
    is present but cannot be converted to a string (an object whose
    [toString] is not a function) never reaches the extractor: building the
    address throws, and the answer is a 500 with the route's own error text
    and the message of that error, after no outbound call at all. *)
Theorem X26_parameter_without_text (rt : Runtime) (sv : Services) (r : route)
    (req : request) (e : js_error) :
  truthy (query_param req (required r)) = true ->
  route_url rt r req = Throw e ->
  serve rt sv r req = (Some (Server.server_error (failure_text r) e), []).
Proof.
  intros Hid Hurl.
  destruct r; simpl in Hid, Hurl |- *.
  1-3: unfold answer, run, Server.playlist_info, Server.playlist_videos,
         Server.download_info, try_catch, bind, perform, lift, ret;
       rewrite Hid; simpl; rewrite Hurl; reflexivity.
  unfold Server.download_exchange.
  now rewrite (download_no_address rt sv req e Hid Hurl).
Qed.

Lemma X26_parameter_without_text_witness :
  serve Json.runtime (Scenario.extractor_returns Scenario.short_playlist) PlaylistVideos
    (mkRequest [("playlistId", Scenario.unprintable)] None)
  = (Some (Server.server_error "Failed to fetch playlist videos"
             (TypeError "Cannot convert object to primitive value")), []).
Proof.
  exact (X26_parameter_without_text Json.runtime
           (Scenario.extractor_returns Scenario.short_playlist) PlaylistVideos
           (mkRequest [("playlistId", Scenario.unprintable)] None)
           (TypeError "Cannot convert object to primitive value") eq_refl eq_refl).
Defined.

(** ** The choice of the extractor binary at startup *)

Lemma trim_start_first (s : string) : not_space (first_char (trim_start s)) = true.
Proof.
  induction s as [|c rest IH]; simpl; [reflexivity|].
  destruct (is_space c) eqn:E; [exact IH | simpl; now rewrite E].
Qed.

Lemma trim_end_first (s : string) :
  not_space (first_char s) = true -> not_space (first_char (trim_end s)) = true.
Proof.
  destruct s as [|c rest]; simpl; intros H; [reflexivity|].
  apply negb_true_iff in H. rewrite H.
  destruct (trim_end rest); simpl; now rewrite H.
Qed.

Lemma trim_end_last (s : string) : not_space (last_char (trim_end s)) = true.
Proof.
  induction s as [|c rest IH]; simpl; [reflexivity|].
  destruct (trim_end rest) as [|k kept] eqn:E.
  - destruct (is_space c) eqn:Ec; simpl; [reflexivity | now rewrite Ec].
  - exact IH.
Qed.

(** X27: at startup, when [which yt-dlp] succeeds the version probe is not
    run and the path is the output of [which] with no white space left at
    either end; when it fails the version probe is run, and the path is
    undefined exactly when that probe fails too. *)
Theorem X27_startup_path (execSync : string -> result string) :
  (forall output,
      execSync "which yt-dlp" = Ok output ->
      exists path,
        Server.resolve_ytDlpPath execSync = (Some path, ["which yt-dlp"])
        /\ path = trim output
        /\ not_space (first_char path) = true
        /\ not_space (last_char path) = true)
  /\ (forall e,
         execSync "which yt-dlp" = Throw e ->
         snd (Server.resolve_ytDlpPath execSync) = ["which yt-dlp"; "yt-dlp --version"]
         /\ (fst (Server.resolve_ytDlpPath execSync) = None
             <-> exists e', execSync "yt-dlp --version" = Throw e')).
Proof.
  split.
  - intros output H. exists (trim output). unfold Server.resolve_ytDlpPath. rewrite H.
    repeat split.
    + apply trim_end_first, trim_start_first.
    + apply trim_end_last.
  - intros e H. unfold Server.resolve_ytDlpPath. rewrite H.
    destruct (execSync "yt-dlp --version") as [out | e'] eqn:E; simpl; split;
      try reflexivity; split; try discriminate; eauto.
    intros [e'' He'']. discriminate.
Qed.

Lemma X27_startup_path_witness :
  exists path,
    Server.resolve_ytDlpPath (fun _ => Ok which_output)
    = (Some path, ["which yt-dlp"])
    /\ path = trim which_output
    /\ not_space (first_char path) = true
    /\ not_space (last_char path) = true.
Proof.
  exact (proj1 (X27_startup_path (fun _ => Ok which_output)) _ eq_refl).
Defined.

Example startup_trims_the_line_break :
  Server.resolve_ytDlpPath (fun _ => Ok which_output)
  = (Some "/usr/local/bin/yt-dlp", ["which yt-dlp"]).
Proof. reflexivity. Qed.

(** ** The lines of a text payload *)

(** A line is kept by [line => line.trim()] exactly when trimming it
    leaves something. *)
Lemma trim_truthy_trim (s : string) :
  trim_truthy s = negb (String.eqb (trim s) "").
Proof.
  unfold trim_truthy, trim. f_equal.
  induction s as [|c rest IH]; [reflexivity|].
  cbn [forall_string trim_start].
  destruct (is_space c) eqn:E; [exact IH|].
  cbn [trim_end]. destruct (trim_end rest); rewrite ?E; reflexivity.
Qed.

(** X28: the lines the per-line draft works on are the pieces of the text
    between line breaks that do not trim to the empty string: none of them
    holds a line break and none is blank, whatever the text. *)
Theorem X28_lines_of_text (text : string) :
  exists lines,
    LineDraft.nonblank_lines (VStr text) = Ok lines
    /\ Forall (fun line => free_of LineDraft.newline line = true
                           /\ String.eqb (trim line) "" = false
                           /\ In line (split_on LineDraft.newline text)) lines.
Proof.
  exists (List.filter trim_truthy (split_on LineDraft.newline text)).
  split; [reflexivity|].
  pose proof (split_on_spec LineDraft.newline text) as [_ Hfree].
  apply List.Forall_forall. intros line Hin. apply filter_In in Hin as [Hin Hkeep].
  repeat split.
  - rewrite List.Forall_forall in Hfree. now apply Hfree.
  - rewrite trim_truthy_trim in Hkeep. now apply negb_true_iff in Hkeep.
  - exact Hin.
Qed.
